(** * Gesture Shooter: input fusion and combat resolution

    A shallow embedding of [js/core.js] and [js/main.js] (both delivered in
    [src/js/core.js]) and the properties of the specification checked
    against it.

    Conventions of the embedding.
    - A JavaScript number is a rational [Q]: arithmetic is exact, rounding
      of IEEE doubles is not modelled.  The haste timer, where the rounding
      decides the tick of an event, is embedded on doubles as well
      ([HasteInDoubles]).
    - [Math.sqrt] and [Math.hypot] return a [Root], a non-negative real
      known by its square; the comparisons the program makes with such a
      value are decided on the squares.
    - The wall clock ([Date.now() / 1000]) is an argument [now] of the
      functions that read it, the frame clock ([performance.now()]) an
      argument [currentTime], and a draw of [Math.random()] an argument
      [random].
    - Mutable objects are records passed and returned explicitly.
    - [js/gameplay.js] (Player, Enemy, Projectile, Pickup, weapons) is not
      part of the sources; the few methods of it that the code below calls
      are modelled from the specification and marked so. *)

From Stdlib Require Import QArith ZArith List String Bool Lia Lqa Qround Qabs.
From Stdlib Require Reals Qreals Lra.
From Stdlib Require PrimFloat FloatClass FloatOps SpecFloat.
From stdpp Require Import gmap strings.
Import ListNotations.

Local Open Scope Q_scope.
Local Open Scope string_scope.

(** ** Numbers *)

(** [a < b] on numbers, as a boolean. *)
Definition Qltb (a b : Q) : bool := negb (Qle_bool b a).

(** [Math.min], [Math.max]. *)
Definition Math_min (a b : Q) : Q := if Qle_bool a b then a else b.
Definition Math_max (a b : Q) : Q := if Qle_bool a b then b else a.

(** [Math.round]: the nearest integer, halves rounded up. *)
Definition Math_round (a : Q) : Z := Qfloor (a + (1 # 2)).

(** The value of a square root, kept as the number under the root. *)
Record Root : Type := SquareRoot { radicand : Q }.

Definition Math_sqrt (a : Q) : Root := SquareRoot a.
Definition Math_hypot (a b : Q) : Root := SquareRoot (a * a + b * b).

(** [r < t] for a root [r] and a number [t]. *)
Definition root_lt_num (r : Root) (t : Q) : bool :=
  Qltb 0 t && Qltb (radicand r) (t * t).

(** [r > t] for a root [r] and a number [t]. *)
Definition root_gt_num (r : Root) (t : Q) : bool :=
  Qltb t 0 || Qltb (t * t) (radicand r).

(** [r1 < r2] for two roots. *)
Definition root_lt_root (r1 r2 : Root) : bool :=
  Qltb (radicand r1) (radicand r2).

(** [r >= t] for a root [r] and a number [t]. *)
Definition root_ge_num (r : Root) (t : Q) : bool :=
  Qle_bool t 0 || Qle_bool (t * t) (radicand r).

(** A root or [Infinity]: the running minimum of a nearest-neighbour scan. *)
Inductive Extended : Type :=
| Infinity
| Finite (r : Root).

Definition root_lt_ext (r : Root) (m : Extended) : bool :=
  match m with
  | Infinity => true
  | Finite r' => root_lt_root r r'
  end.

(** The value of [x / Math.sqrt(...)] and of [x] itself: a number divided
    by a root, or a plain number. *)
Inductive Ratio : Type :=
| Plain (q : Q)
| Over (q : Q) (r : Root).

(** [- v] *)
Definition ratio_neg (v : Ratio) : Ratio :=
  match v with
  | Plain q => Plain (- q)
  | Over q r => Over (- q) r
  end.

(** [Math.abs(v) > t].  Over a root that is zero the quotient is infinite
    for a numerator that is not zero, and not a number (every comparison
    false) for a numerator that is zero; a root of a negative number is not
    a number either. *)
Definition ratio_abs_gt_num (v : Ratio) (t : Q) : bool :=
  match v with
  | Plain q => Qltb t (Qabs q)
  | Over q r =>
      if Qle_bool (radicand r) 0
      then Qeq_bool (radicand r) 0 && negb (Qeq_bool q 0)
      else Qltb t 0 || Qltb (t * t * radicand r) (q * q)
  end.

(** ** Constants of core.js and main.js *)

Definition COLLISION_EPSILON : Q := 0.001.
Definition ARENA_WIDTH : Q := 1200.
Definition ARENA_HEIGHT : Q := 800.
Definition ENEMY_SPAWN_INTERVAL : Q := 2.
Definition PICKUP_SPAWN_INTERVAL : Q := 8.
Definition SPAWN_SAFETY_DISTANCE : Q := 150.
Definition PICKUP_SAFE_DISTANCE : Q := 50.
Definition PICKUP_RADIUS : Q := 28.

(** ** Utils *)

Module Utils.

Definition clamp (value min max : Q) : Q :=
  Math_min (Math_max value min) max.

Definition distance (x1 y1 x2 y2 : Q) : Root :=
  let dx := x2 - x1 in
  let dy := y2 - y1 in
  Math_sqrt (dx * dx + dy * dy).

(** [normalize]: the zero vector for the zero vector, else the vector
    divided by its length. *)
Definition normalize (x y : Q) : Ratio * Ratio :=
  let length := Math_sqrt (x * x + y * y) in
  if Qeq_bool (radicand length) 0 then (Plain 0, Plain 0)
  else (Over x length, Over y length).

(** [randomRange] and [randomInt]; [random] is the value that the call of
    [Math.random()] returns.  [randomInt] is called with integers. *)
Definition randomRange (random : Q) (min max : Q) : Q :=
  random * (max - min) + min.

Definition randomInt (random : Q) (min max : Z) : Z :=
  (Qfloor (random * inject_Z (max - min + 1)) + min)%Z.

End Utils.

(** ** EventBus

    A callback is a function object; here it is known by its identity
    ([indexOf] compares objects), and a call of it is recorded with the data
    it is given. *)

Module EventBus.

Definition Callback : Type := nat.

Record t : Type := { listeners : gmap string (list Callback) }.

Definition new : t := {| listeners := ∅ |}.

Definition on (event : string) (callback : Callback) (bus : t) : t :=
  match listeners bus !! event with
  | Some callbacks =>
      {| listeners := <[event := (callbacks ++ [callback])%list]> (listeners bus) |}
  | None =>
      {| listeners := <[event := [callback]]> (listeners bus) |}
  end.

(** [callbacks.indexOf(callback)]; [None] for [-1]. *)
Fixpoint indexOf (callback : Callback) (callbacks : list Callback)
    : option nat :=
  match callbacks with
  | [] => None
  | c :: rest =>
      if Nat.eqb c callback then Some 0%nat
      else match indexOf callback rest with
           | Some i => Some (S i)
           | None => None
           end
  end.

Definition off (event : string) (callback : Callback) (bus : t) : t :=
  match listeners bus !! event with
  | Some callbacks =>
      match indexOf callback callbacks with
      | Some index =>
          {| listeners := <[event := delete index callbacks]> (listeners bus) |}
      | None => bus
      end
  | None => bus
  end.

(** [emit]: the calls it makes, in their order. *)
Definition emit {Data : Type} (event : string) (data : Data) (bus : t)
    : list (Callback * Data) :=
  match listeners bus !! event with
  | Some callbacks => map (fun callback => (callback, data)) callbacks
  | None => []
  end.

Definition clear (bus : t) : t := {| listeners := ∅ |}.

End EventBus.

(** ** CollisionSystem *)

(** Anything with a position and a radius can be tested for overlap. *)
Class Circle (A : Type) : Type := {
  circle_x : A -> Q;
  circle_y : A -> Q;
  circle_radius : A -> Q
}.

Module CollisionSystem.

Definition checkCircleCollision {A B : Type} `{Circle A} `{Circle B}
    (obj1 : A) (obj2 : B) : bool :=
  let dx := circle_x obj2 - circle_x obj1 in
  let dy := circle_y obj2 - circle_y obj1 in
  let distance := Math_sqrt (dx * dx + dy * dy) in
  let minDistance := circle_radius obj1 + circle_radius obj2 in
  root_lt_num distance (minDistance + COLLISION_EPSILON).

(** [minDistance - distance]: a number less a root. *)
Record LessRoot : Type := { minuend : Q; subtrahend : Root }.

(** The object that [getCollisionInfo] returns. *)
Record CollisionInfo : Type := {
  overlap : LessRoot;
  normalX : Ratio;
  normalY : Ratio;
  distance : Root
}.

(** [getCollisionInfo]; [None] is [null]. *)
Definition getCollisionInfo {A B : Type} `{Circle A} `{Circle B}
    (obj1 : A) (obj2 : B) : option CollisionInfo :=
  let dx := circle_x obj2 - circle_x obj1 in
  let dy := circle_y obj2 - circle_y obj1 in
  let distance := Math_sqrt (dx * dx + dy * dy) in
  let minDistance := circle_radius obj1 + circle_radius obj2 in
  if root_ge_num distance (minDistance + COLLISION_EPSILON) then None
  else
    let overlap := {| minuend := minDistance; subtrahend := distance |} in
    let normalX := if root_gt_num distance 0 then Over dx distance
                   else Plain 1 in
    let normalY := if root_gt_num distance 0 then Over dy distance
                   else Plain 0 in
    Some {| overlap := overlap; normalX := normalX; normalY := normalY;
            distance := distance |}.

End CollisionSystem.

(** ** Abrupt completion

    A JavaScript call either returns or throws; in both cases the state it
    has reached is kept. *)

Definition Error : Type := string.

Inductive Completion (S : Type) : Type :=
| Normal (s : S)
| Throw (e : Error) (s : S).
Arguments Normal {S} s.
Arguments Throw {S} e s.

(** [try { body } catch (e) { handler e }] *)
Definition try_catch {S : Type} (body : Completion S)
    (handler : Error -> S -> Completion S) : Completion S :=
  match body with
  | Normal s => Normal s
  | Throw e s => handler e s
  end.

(** ** InputManager and its providers *)

(** The input state of the [InputManager]: the fields the providers write
    and the game reads.  The move vector is left out: no property below
    reads it, and its keyboard value on a diagonal is [1 / sqrt 2]. *)
Record InputState : Type := {
  fire : bool;
  pickup : bool;
  switchWeapon : bool;
  lastWeaponSwitchTime : Q;
  weaponSwitchCooldown : Q;
  creatorMode : bool;
  lastCreatorModeToggleTime : Q;
  creatorModeToggleCooldown : Q;
  mouseX : Q;
  mouseY : Q
}.

Definition set_fire (v : bool) (s : InputState) : InputState :=
  {| fire := v; pickup := pickup s; switchWeapon := switchWeapon s;
     lastWeaponSwitchTime := lastWeaponSwitchTime s;
     weaponSwitchCooldown := weaponSwitchCooldown s;
     creatorMode := creatorMode s;
     lastCreatorModeToggleTime := lastCreatorModeToggleTime s;
     creatorModeToggleCooldown := creatorModeToggleCooldown s;
     mouseX := mouseX s; mouseY := mouseY s |}.

Definition set_pickup (v : bool) (s : InputState) : InputState :=
  {| fire := fire s; pickup := v; switchWeapon := switchWeapon s;
     lastWeaponSwitchTime := lastWeaponSwitchTime s;
     weaponSwitchCooldown := weaponSwitchCooldown s;
     creatorMode := creatorMode s;
     lastCreatorModeToggleTime := lastCreatorModeToggleTime s;
     creatorModeToggleCooldown := creatorModeToggleCooldown s;
     mouseX := mouseX s; mouseY := mouseY s |}.

Definition set_switchWeapon (v : bool) (s : InputState) : InputState :=
  {| fire := fire s; pickup := pickup s; switchWeapon := v;
     lastWeaponSwitchTime := lastWeaponSwitchTime s;
     weaponSwitchCooldown := weaponSwitchCooldown s;
     creatorMode := creatorMode s;
     lastCreatorModeToggleTime := lastCreatorModeToggleTime s;
     creatorModeToggleCooldown := creatorModeToggleCooldown s;
     mouseX := mouseX s; mouseY := mouseY s |}.

Definition set_lastWeaponSwitchTime (v : Q) (s : InputState) : InputState :=
  {| fire := fire s; pickup := pickup s; switchWeapon := switchWeapon s;
     lastWeaponSwitchTime := v;
     weaponSwitchCooldown := weaponSwitchCooldown s;
     creatorMode := creatorMode s;
     lastCreatorModeToggleTime := lastCreatorModeToggleTime s;
     creatorModeToggleCooldown := creatorModeToggleCooldown s;
     mouseX := mouseX s; mouseY := mouseY s |}.

Definition set_creatorMode (v : bool) (s : InputState) : InputState :=
  {| fire := fire s; pickup := pickup s; switchWeapon := switchWeapon s;
     lastWeaponSwitchTime := lastWeaponSwitchTime s;
     weaponSwitchCooldown := weaponSwitchCooldown s;
     creatorMode := v;
     lastCreatorModeToggleTime := lastCreatorModeToggleTime s;
     creatorModeToggleCooldown := creatorModeToggleCooldown s;
     mouseX := mouseX s; mouseY := mouseY s |}.

Definition set_lastCreatorModeToggleTime (v : Q) (s : InputState)
    : InputState :=
  {| fire := fire s; pickup := pickup s; switchWeapon := switchWeapon s;
     lastWeaponSwitchTime := lastWeaponSwitchTime s;
     weaponSwitchCooldown := weaponSwitchCooldown s;
     creatorMode := creatorMode s;
     lastCreatorModeToggleTime := v;
     creatorModeToggleCooldown := creatorModeToggleCooldown s;
     mouseX := mouseX s; mouseY := mouseY s |}.

Definition set_mouse (x y : Q) (s : InputState) : InputState :=
  {| fire := fire s; pickup := pickup s; switchWeapon := switchWeapon s;
     lastWeaponSwitchTime := lastWeaponSwitchTime s;
     weaponSwitchCooldown := weaponSwitchCooldown s;
     creatorMode := creatorMode s;
     lastCreatorModeToggleTime := lastCreatorModeToggleTime s;
     creatorModeToggleCooldown := creatorModeToggleCooldown s;
     mouseX := x; mouseY := y |}.

(** The state the [InputManager] constructor sets up. *)
Definition initialInputState : InputState :=
  {| fire := false; pickup := false; switchWeapon := false;
     lastWeaponSwitchTime := 0; weaponSwitchCooldown := 0.2;
     creatorMode := false;
     lastCreatorModeToggleTime := 0; creatorModeToggleCooldown := 0.2;
     mouseX := 0; mouseY := 0 |}.

(** An input provider is any object with a [name] and an [update] method;
    [activate] and [deactivate] are optional ([?.()]).  [oid] stands for the
    identity of the object ([!==] compares objects, not their contents).
    The hooks of the providers of this program add and remove DOM listeners
    and write to the console, and return: here a call of a hook is recorded
    in the manager's trace. *)
Module Provider.

Record t : Type := {
  name : string;
  oid : nat;
  update : Q -> InputState -> Completion InputState;
  has_activate : bool;
  has_deactivate : bool
}.

Definition same (p q : t) : bool := Nat.eqb (oid p) (oid q).

End Provider.

Inductive HookCall : Type :=
| Activated (provider : nat)
| Deactivated (provider : nat).

Module InputManager.

Record t : Type := {
  providers : gmap string Provider.t;
  activeProvider : option Provider.t;
  fallbackProvider : option Provider.t;
  input : InputState;
  console : list (string * Error);  (* console.warn, newest first *)
  hooks : list HookCall             (* hook calls, newest first *)
}.

Definition new : t :=
  {| providers := ∅; activeProvider := None; fallbackProvider := None;
     input := initialInputState; console := []; hooks := [] |}.

Definition set_input (s : InputState) (im : t) : t :=
  {| providers := providers im; activeProvider := activeProvider im;
     fallbackProvider := fallbackProvider im; input := s;
     console := console im; hooks := hooks im |}.

Definition console_warn (msg : string) (e : Error) (im : t) : t :=
  {| providers := providers im; activeProvider := activeProvider im;
     fallbackProvider := fallbackProvider im; input := input im;
     console := (msg, e) :: console im; hooks := hooks im |}.

Definition call_hook (h : HookCall) (im : t) : t :=
  {| providers := providers im; activeProvider := activeProvider im;
     fallbackProvider := fallbackProvider im; input := input im;
     console := console im; hooks := h :: hooks im |}.

Definition setActiveProvider (name : string) (im : t) : t :=
  match providers im !! name with
  | Some provider =>
      let im1 :=
        match activeProvider im with
        | Some old =>
            if Provider.has_deactivate old
            then call_hook (Deactivated (Provider.oid old)) im
            else im
        | None => im
        end in
      let im2 :=
        {| providers := providers im1; activeProvider := Some provider;
           fallbackProvider := fallbackProvider im1; input := input im1;
           console := console im1; hooks := hooks im1 |} in
      if Provider.has_activate provider
      then call_hook (Activated (Provider.oid provider)) im2
      else im2
  | None => im
  end.

Definition registerProvider (name : string) (provider : Provider.t)
    (isFallback : bool) (im : t) : t :=
  let im1 :=
    {| providers := <[name := provider]> (providers im);
       activeProvider := activeProvider im;
       fallbackProvider :=
         if isFallback then Some provider else fallbackProvider im;
       input := input im; console := console im; hooks := hooks im |} in
  match activeProvider im1 with
  | None => setActiveProvider name im1
  | Some _ => im1
  end.

Definition fallbackToDefault (im : t) : t :=
  match fallbackProvider im, activeProvider im with
  | Some fb, Some act =>
      if negb (Provider.same act fb)
      then setActiveProvider (Provider.name fb) im
      else im
  | Some fb, None => setActiveProvider (Provider.name fb) im
  | None, _ => im
  end.

(** The active provider's [update], run on the manager's input state. *)
Definition providerUpdate (p : Provider.t) (deltaTime : Q) (im : t)
    : Completion t :=
  match Provider.update p deltaTime (input im) with
  | Normal s => Normal (set_input s im)
  | Throw e s => Throw e (set_input s im)
  end.

Definition update (deltaTime : Q) (im : t) : Completion t :=
  match activeProvider im with
  | Some p =>
      try_catch (providerUpdate p deltaTime im)
        (fun error im' =>
           Normal (fallbackToDefault
                     (console_warn "Input provider failed, falling back:"
                        error im')))
  | None => Normal im
  end.

Definition clearWeaponSwitch (now : Q) (im : t) : t :=
  set_input
    (set_lastWeaponSwitchTime now (set_switchWeapon false (input im))) im.

Definition clearCreatorModeToggle (now : Q) (im : t) : t :=
  set_input
    (set_lastCreatorModeToggleTime now (set_creatorMode false (input im)))
    im.

Definition canSwitchWeapon (now : Q) (im : t) : bool :=
  Qle_bool (weaponSwitchCooldown (input im))
           (now - lastWeaponSwitchTime (input im)).

Definition canToggleCreatorMode (now : Q) (im : t) : bool :=
  Qle_bool (creatorModeToggleCooldown (input im))
           (now - lastCreatorModeToggleTime (input im)).

Definition isFiring (im : t) : bool := fire (input im).
Definition isPickingUp (im : t) : bool := pickup (input im).
Definition getWeaponSwitch (im : t) : bool := switchWeapon (input im).
Definition getCreatorModeToggle (im : t) : bool := creatorMode (input im).
Definition getMousePosition (im : t) : Q * Q :=
  (mouseX (input im), mouseY (input im)).

End InputManager.

(** *** KeyboardMouseProvider *)

Module KeyboardMouseProvider.

Record t : Type := {
  keys : gset string;
  mouseButtons : gset Z
}.

Definition new : t := {| keys := ∅; mouseButtons := ∅ |}.

Definition keyMap : gmap string string :=
  list_to_map
    [ ("KeyW", "up"); ("KeyS", "down"); ("KeyA", "left"); ("KeyD", "right");
      ("ArrowUp", "up"); ("ArrowDown", "down"); ("ArrowLeft", "left");
      ("ArrowRight", "right"); ("KeyR", "switchWeapon");
      ("KeyG", "creatorMode"); ("KeyF", "pickup") ].

(** [update]: the fire and pickup flags follow the held button and key. *)
Definition update (this : t) (deltaTime : Q) (s : InputState)
    : InputState :=
  set_pickup (bool_decide ("pickup" ∈ keys this))
    (set_fire (bool_decide (0%Z ∈ mouseButtons this)) s).

Definition handleKeyDown (now : Q) (code : string)
    (this : t) (im : InputManager.t) : t * InputManager.t :=
  match keyMap !! code with
  | Some action =>
      if String.eqb action "switchWeapon" then
        if negb (switchWeapon (InputManager.input im))
           && InputManager.canSwitchWeapon now im
        then (this,
              InputManager.set_input
                (set_switchWeapon true (InputManager.input im)) im)
        else (this, im)
      else if String.eqb action "creatorMode" then
        if negb (creatorMode (InputManager.input im))
           && InputManager.canToggleCreatorMode now im
        then (this,
              InputManager.set_input
                (set_creatorMode true (InputManager.input im)) im)
        else (this, im)
      else
        ({| keys := {[action]} ∪ keys this;
            mouseButtons := mouseButtons this |},
         if String.eqb action "pickup"
         then InputManager.set_input
                (set_pickup true (InputManager.input im)) im
         else im)
  | None => (this, im)
  end.

Definition handleKeyUp (code : string)
    (this : t) (im : InputManager.t) : t * InputManager.t :=
  match keyMap !! code with
  | Some action =>
      if negb (String.eqb action "switchWeapon")
         && negb (String.eqb action "creatorMode")
      then
        ({| keys := keys this ∖ {[action]};
            mouseButtons := mouseButtons this |},
         if String.eqb action "pickup"
         then InputManager.set_input
                (set_pickup false (InputManager.input im)) im
         else im)
      else (this, im)
  | None => (this, im)
  end.

Definition handleMouseDown (button : Z) (this : t) : t :=
  {| keys := keys this; mouseButtons := {[button]} ∪ mouseButtons this |}.

Definition handleMouseUp (button : Z) (this : t) : t :=
  {| keys := keys this; mouseButtons := mouseButtons this ∖ {[button]} |}.

(** The provider object, as the manager sees it. *)
Definition provider (id : nat) (this : t) : Provider.t :=
  {| Provider.name := "keyboard-mouse";
     Provider.oid := id;
     Provider.update := fun dt s => Normal (update this dt s);
     Provider.has_activate := true;
     Provider.has_deactivate := true |}.

(** The move vector that [update] writes to the manager: one step for
    every direction held, a diagonal divided by its length. *)
Definition moveVector (this : t) : Ratio * Ratio :=
  let x := 0 in
  let y := 0 in
  let x := if bool_decide ("left" ∈ keys this) then x - 1 else x in
  let x := if bool_decide ("right" ∈ keys this) then x + 1 else x in
  let y := if bool_decide ("up" ∈ keys this) then y - 1 else y in
  let y := if bool_decide ("down" ∈ keys this) then y + 1 else y in
  if negb (Qeq_bool x 0) && negb (Qeq_bool y 0) then
    let length := Math_sqrt (x * x + y * y) in
    (Over x length, Over y length)
  else (Plain x, Plain y).

End KeyboardMouseProvider.

(** *** GestureProvider and VoiceProvider (stubs of the source) *)

Module GestureProvider.

Definition update (deltaTime : Q) (s : InputState) : InputState :=
  set_fire false s.

Definition provider (id : nat) : Provider.t :=
  {| Provider.name := "gesture";
     Provider.oid := id;
     Provider.update := fun dt s => Normal (update dt s);
     Provider.has_activate := true;
     Provider.has_deactivate := true |}.

End GestureProvider.

Module VoiceProvider.

Definition update (deltaTime : Q) (s : InputState) : InputState :=
  set_fire false s.

Definition provider (id : nat) : Provider.t :=
  {| Provider.name := "voice";
     Provider.oid := id;
     Provider.update := fun dt s => Normal (update dt s);
     Provider.has_activate := true;
     Provider.has_deactivate := true |}.

End VoiceProvider.

(** ** GestureInputManager *)

(** A point [{x, y}]: a hand landmark in normalised image coordinates, or an
    aim point in arena coordinates. *)
Record Vec2 : Type := { vx : Q; vy : Q }.

(** The result of one inference cycle of the hand detector.  A field that
    is absent is [None]. *)
Record Results : Type := {
  multiHandLandmarks : option (list (list Vec2));
  multiHandedness : option (list string)   (* the [label] of each hand *)
}.

Module GestureInputManager.

Record t : Type := {
  initialized : bool;
  leftHandPresent : bool;
  gestureShootingActive : bool;
  gestureAimSmoothed : option Vec2;
  gestureAimTargetGame : option (Z * Z);
  rightPinchActive : bool;
  leftPinchActive : bool
}.

(** Parameters fixed by the constructor and never assigned again. *)
Definition aimSmoothingAlpha : Q := 0.4.
Definition aimDeadzonePx : Q := 6.
Definition aimMaxStepPx : Q := 10000.
Definition rightPinchOnThreshold : Q := 0.04.
Definition rightPinchOffThreshold : Q := 0.055.
Definition leftPinchOnThreshold : Q := 0.04.
Definition leftPinchOffThreshold : Q := 0.06.

Definition new : t :=
  {| initialized := false; leftHandPresent := false;
     gestureShootingActive := false;
     gestureAimSmoothed := None; gestureAimTargetGame := None;
     rightPinchActive := false; leftPinchActive := false |}.

(** What the loop over the detected hands collects. *)
Record Hands : Type := {
  leftSeen : bool;
  leftFingerTip : option Vec2;
  leftThumbTip : option Vec2;
  rightFingerTip : option Vec2;
  rightThumbTip : option Vec2
}.

Definition noHands : Hands :=
  {| leftSeen := false; leftFingerTip := None; leftThumbTip := None;
     rightFingerTip := None; rightThumbTip := None |}.

(** One iteration of the loop: hand [i] with its label. *)
Definition scanHand (h : Hands) (hand : list Vec2 * string) : Hands :=
  let '(landmarks, handedness) := hand in
  if String.eqb handedness "Left" then
    {| leftSeen := true;
       leftFingerTip := landmarks !! 8%nat;
       leftThumbTip := landmarks !! 4%nat;
       rightFingerTip := rightFingerTip h;
       rightThumbTip := rightThumbTip h |}
  else if String.eqb handedness "Right" then
    {| leftSeen := leftSeen h;
       leftFingerTip := leftFingerTip h;
       leftThumbTip := leftThumbTip h;
       rightFingerTip := landmarks !! 8%nat;
       rightThumbTip := landmarks !! 4%nat |}
  else h.

(** The loop runs over the first [min] of the two lengths. *)
Definition scanHands (results : Results) : Hands :=
  match multiHandLandmarks results with
  | Some (hand :: others) =>
      fold_left scanHand
        (combine (hand :: others)
                 (match multiHandedness results with
                  | Some labels => labels
                  | None => []
                  end))
        noHands
  | _ => noHands
  end.

(** The pinch judgment of one hand: hysteresis between the on and the off
    threshold on the distance of index fingertip and thumb tip. *)
Definition pinch (active : bool) (onThreshold offThreshold : Q)
    (fingerTip thumbTip : option Vec2) : bool :=
  match fingerTip, thumbTip with
  | Some finger, Some thumb =>
      let dxn := vx thumb - vx finger in
      let dyn := vy thumb - vy finger in
      let distNorm := Math_hypot dxn dyn in
      if active then
        if root_gt_num distNorm offThreshold then false else active
      else
        if root_lt_num distNorm onThreshold then true else active
  | _, _ => false
  end.

(** Smoothing of the raw aim point (the fingertip is within the region). *)
Definition smoothAim (rawX rawY : Q) (this : t) : t :=
  let prev :=
    match gestureAimSmoothed this with
    | Some p => p
    | None => {| vx := rawX; vy := rawY |}
    end in
  let dxAim := rawX - vx prev in
  let dyAim := rawY - vy prev in
  let dist := Math_hypot dxAim dyAim in
  let smoothed :=
    if root_lt_num dist aimDeadzonePx then prev
    else
      let cappedDx := Utils.clamp dxAim (- aimMaxStepPx) aimMaxStepPx in
      let cappedDy := Utils.clamp dyAim (- aimMaxStepPx) aimMaxStepPx in
      let cappedRawX := vx prev + cappedDx in
      let cappedRawY := vy prev + cappedDy in
      let a := aimSmoothingAlpha in
      {| vx := vx prev * (1 - a) + cappedRawX * a;
         vy := vy prev * (1 - a) + cappedRawY * a |} in
  {| initialized := initialized this;
     leftHandPresent := leftHandPresent this;
     gestureShootingActive := true;
     gestureAimSmoothed := Some smoothed;
     gestureAimTargetGame :=
       Some (Math_round (vx smoothed), Math_round (vy smoothed));
     rightPinchActive := rightPinchActive this;
     leftPinchActive := leftPinchActive this |}.

(** The fingertip is outside the region, or there is none: no aim target,
    the smoothed point is kept. *)
Definition dropAim (this : t) : t :=
  {| initialized := initialized this;
     leftHandPresent := leftHandPresent this;
     gestureShootingActive := false;
     gestureAimSmoothed := gestureAimSmoothed this;
     gestureAimTargetGame := None;
     rightPinchActive := rightPinchActive this;
     leftPinchActive := leftPinchActive this |}.

(** [onResults].  [region] stands for the overlay: [None] when there is no
    overlay canvas, otherwise the map from the left fingertip to the raw
    arena point when the fingertip is within the aiming rectangle (the
    rectangle's sides are square roots of the overlay's area). *)
Definition onResults (results : Results)
    (region : option (Vec2 -> option (Q * Q))) (this : t) : t :=
  let h := scanHands results in
  let this1 :=
    {| initialized := initialized this;
       leftHandPresent := leftSeen h;
       gestureShootingActive := false;
       gestureAimSmoothed := gestureAimSmoothed this;
       gestureAimTargetGame := gestureAimTargetGame this;
       rightPinchActive :=
         pinch (rightPinchActive this)
               rightPinchOnThreshold rightPinchOffThreshold
               (rightFingerTip h) (rightThumbTip h);
       leftPinchActive :=
         pinch (leftPinchActive this)
               leftPinchOnThreshold leftPinchOffThreshold
               (leftFingerTip h) (leftThumbTip h) |} in
  match region with
  | Some toArena =>
      if leftHandPresent this1 then
        match leftFingerTip h with
        | Some tip =>
            match toArena tip with
            | Some (rawX, rawY) => smoothAim rawX rawY this1
            | None => dropAim this1
            end
        | None => dropAim this1
        end
      else this1
  | None => this1
  end.

Definition isGestureShootingActive (this : t) : bool :=
  gestureShootingActive this.
Definition getGestureAimTargetGame (this : t) : option (Z * Z) :=
  gestureAimTargetGame this.
Definition isRightPinchActive (this : t) : bool := rightPinchActive this.
Definition isLeftPinchActive (this : t) : bool := leftPinchActive this.

(** The reference point of the movement gesture, in image coordinates. *)
Definition center : Vec2 := {| vx := 0.8; vy := 0.6 |}.

(** The move vector that [onResults] writes, from the right index
    fingertip alone. *)
Definition moveVector (results : Results) : Ratio * Ratio :=
  match rightFingerTip (scanHands results) with
  | Some tip =>
      let centerX := vx center in
      let centerY := vy center in
      let dx := - (vx tip - centerX) in
      let dy := - (vy tip - centerY) in
      let magnitude := Math_sqrt (dx * dx + dy * dy) in
      if root_gt_num magnitude 0.05
      then (Over dx magnitude, Over dy magnitude)
      else (Plain 0, Plain 0)
  | None => (Plain 0, Plain 0)
  end.

Definition getMoveVector (moveVector : Ratio * Ratio) : Ratio * Ratio :=
  (fst moveVector, ratio_neg (snd moveVector)).

End GestureInputManager.

(** ** Entities of gameplay.js

    The classes below live in [js/gameplay.js], which is not among the
    sources.  Each record holds the fields that main.js reads or writes;
    each method is modelled from the specification. *)

Module Player.

Record t : Type := {
  x : Q;
  y : Q;
  radius : Q;
  hp : Q;
  maxHp : Q;
  invulnerabilityTime : Q;      (* time left of the window *)
  invulnerabilityDuration : Q   (* length of the window *)
}.

(** Modelled from the spec: [Player.canTakeDamage] of gameplay.js is
    missing; the player has an "invulnerability window after taking
    damage (canTakeDamage() gate)". *)
Definition canTakeDamage (p : t) : bool :=
  Qle_bool (invulnerabilityTime p) 0.

(** Modelled from the spec: [Player.takeDamage] of gameplay.js is missing;
    damage lowers the hp and opens the invulnerability window. *)
Definition takeDamage (amount : Q) (p : t) : t :=
  {| x := x p; y := y p; radius := radius p;
     hp := hp p - amount; maxHp := maxHp p;
     invulnerabilityTime := invulnerabilityDuration p;
     invulnerabilityDuration := invulnerabilityDuration p |}.

(** Modelled from the spec: [Player.isAlive] of gameplay.js is missing;
    the player dies when the hp is used up. *)
Definition isAlive (p : t) : bool := Qltb 0 (hp p).

(** [this.player.hp = v] *)
Definition set_hp (v : Q) (p : t) : t :=
  {| x := x p; y := y p; radius := radius p;
     hp := v; maxHp := maxHp p;
     invulnerabilityTime := invulnerabilityTime p;
     invulnerabilityDuration := invulnerabilityDuration p |}.

End Player.

Module Enemy.

Record t : Type := {
  x : Q;
  y : Q;
  radius : Q;
  hp : Q;
  damage : Q
}.

(** Modelled from the spec: [Enemy.takeDamage] of gameplay.js is missing;
    damage is applied to the enemy's hp. *)
Definition takeDamage (amount : Q) (e : t) : t :=
  {| x := x e; y := y e; radius := radius e;
     hp := hp e - amount; damage := damage e |}.

(** Modelled from the spec: [Enemy.isAlive] of gameplay.js is missing;
    "enemy death (hp <= 0)". *)
Definition isAlive (e : t) : bool := Qltb 0 (hp e).

End Enemy.

Module Projectile.

Record t : Type := {
  x : Q;
  y : Q;
  radius : Q;
  damage : Q;
  owner : option string;   (* "player", an enemy identifier, or null *)
  alive : bool
}.

(** [projectile.alive = false] *)
Definition kill (p : t) : t :=
  {| x := x p; y := y p; radius := radius p; damage := damage p;
     owner := owner p; alive := false |}.

(** Modelled from the spec: [Projectile.isAlive] of gameplay.js is
    missing; an entity is removed "once alive is false". *)
Definition isAlive (p : t) : bool := alive p.

(** [projectile.owner === 'player'] *)
Definition ownedByPlayer (p : t) : bool :=
  match owner p with
  | Some o => String.eqb o "player"
  | None => false
  end.

(** [projectile.owner !== 'player' && projectile.owner !== null] *)
Definition ownedByEnemy (p : t) : bool :=
  match owner p with
  | Some o => negb (String.eqb o "player")
  | None => false
  end.

End Projectile.

(** [PICKUP_TYPES] of gameplay.js, by the names main.js uses. *)
Inductive PickupType : Type :=
| MG_AMMO
| GRENADE
| HEAL
| PISTOL_HASTE.

Module Pickup.

Record t : Type := {
  x : Q;
  y : Q;
  radius : Q;
  type : PickupType
}.

End Pickup.

#[export] Instance Player_Circle : Circle Player.t :=
  {| circle_x := Player.x; circle_y := Player.y;
     circle_radius := Player.radius |}.
#[export] Instance Enemy_Circle : Circle Enemy.t :=
  {| circle_x := Enemy.x; circle_y := Enemy.y;
     circle_radius := Enemy.radius |}.
#[export] Instance Projectile_Circle : Circle Projectile.t :=
  {| circle_x := Projectile.x; circle_y := Projectile.y;
     circle_radius := Projectile.radius |}.
#[export] Instance Pickup_Circle : Circle Pickup.t :=
  {| circle_x := Pickup.x; circle_y := Pickup.y;
     circle_radius := Pickup.radius |}.

(** The fields of [this.weapons] that main.js reads or writes. *)
Record Weapons : Type := {
  pistol_fireRate : Q;
  machine_gun_currentAmmo : Q;
  grenade_currentAmmo : Q
}.

Inductive WeaponKey : Type :=
| pistol
| machine_gun
| knife
| grenade.

(** ** Game states and the state machine *)

Inductive GAME_STATES : Type :=
| BOOT
| MENU
| PLAYING
| PAUSED
| UPGRADE_PICK
| GAME_OVER.

Definition GAME_STATES_eqb (a b : GAME_STATES) : bool :=
  match a, b with
  | BOOT, BOOT | MENU, MENU | PLAYING, PLAYING | PAUSED, PAUSED
  | UPGRADE_PICK, UPGRADE_PICK | GAME_OVER, GAME_OVER => true
  | _, _ => false
  end.

Module GameStateMachine.

Record t : Type := {
  currentState : GAME_STATES;
  previousState : option GAME_STATES
}.

Definition new : t := {| currentState := BOOT; previousState := None |}.

Definition setState (newState : GAME_STATES) (m : t) : t :=
  if GAME_STATES_eqb (currentState m) newState then m
  else {| currentState := newState;
          previousState := Some (currentState m) |}.

Definition getState (m : t) : GAME_STATES := currentState m.

Definition isState (state : GAME_STATES) (m : t) : bool :=
  GAME_STATES_eqb (currentState m) state.

(** The calls that [setState] makes on the subscribers of the machine's
    event bus: ['stateChanged'] with [{from, to}], and only when the state
    changes. *)
Definition setState_emit (newState : GAME_STATES) (m : t) (bus : EventBus.t)
    : list (EventBus.Callback * (option GAME_STATES * GAME_STATES)) :=
  if GAME_STATES_eqb (currentState m) newState then []
  else EventBus.emit "stateChanged"
         (previousState (setState newState m), newState) bus.

End GameStateMachine.

(** ** Game

    The simulation context of main.js: the state machine, the two input
    objects, the entity lists and the counters.  Canvas, HUD, images and
    sounds are outside the model. *)

Module Game.

Record t : Type := {
  stateMachine : GameStateMachine.t;
  inputManager : InputManager.t;
  gestureInput : GestureInputManager.t;
  player : Player.t;
  enemies : list Enemy.t;
  projectiles : list Projectile.t;
  pickups : list Pickup.t;
  weapons : Weapons;
  currentWeaponKey : WeaponKey;
  killCount : Z;
  enemySpawnTimer : Q;
  pickupSpawnTimer : Q;
  creatorMode : bool;
  pistolHasteActive : bool;
  pistolHasteRemaining : Q;
  originalPistolFireRate : option Q;
  pistolBaseFireRate : option Q;
  pickupCandidate : option Pickup.t;
  prevLeftPinchActive : bool
}.

(** Assignments [this.field = v]. *)
Definition set_stateMachine (v : GameStateMachine.t) (g : t) : t :=
  {| stateMachine := v; inputManager := inputManager g;
     gestureInput := gestureInput g; player := player g;
     enemies := enemies g; projectiles := projectiles g;
     pickups := pickups g; weapons := weapons g;
     currentWeaponKey := currentWeaponKey g; killCount := killCount g;
     enemySpawnTimer := enemySpawnTimer g;
     pickupSpawnTimer := pickupSpawnTimer g; creatorMode := creatorMode g;
     pistolHasteActive := pistolHasteActive g;
     pistolHasteRemaining := pistolHasteRemaining g;
     originalPistolFireRate := originalPistolFireRate g;
     pistolBaseFireRate := pistolBaseFireRate g;
     pickupCandidate := pickupCandidate g;
     prevLeftPinchActive := prevLeftPinchActive g |}.

Definition set_inputManager (v : InputManager.t) (g : t) : t :=
  {| stateMachine := stateMachine g; inputManager := v;
     gestureInput := gestureInput g; player := player g;
     enemies := enemies g; projectiles := projectiles g;
     pickups := pickups g; weapons := weapons g;
     currentWeaponKey := currentWeaponKey g; killCount := killCount g;
     enemySpawnTimer := enemySpawnTimer g;
     pickupSpawnTimer := pickupSpawnTimer g; creatorMode := creatorMode g;
     pistolHasteActive := pistolHasteActive g;
     pistolHasteRemaining := pistolHasteRemaining g;
     originalPistolFireRate := originalPistolFireRate g;
     pistolBaseFireRate := pistolBaseFireRate g;
     pickupCandidate := pickupCandidate g;
     prevLeftPinchActive := prevLeftPinchActive g |}.

Definition set_player (v : Player.t) (g : t) : t :=
  {| stateMachine := stateMachine g; inputManager := inputManager g;
     gestureInput := gestureInput g; player := v; enemies := enemies g;
     projectiles := projectiles g; pickups := pickups g;
     weapons := weapons g; currentWeaponKey := currentWeaponKey g;
     killCount := killCount g; enemySpawnTimer := enemySpawnTimer g;
     pickupSpawnTimer := pickupSpawnTimer g; creatorMode := creatorMode g;
     pistolHasteActive := pistolHasteActive g;
     pistolHasteRemaining := pistolHasteRemaining g;
     originalPistolFireRate := originalPistolFireRate g;
     pistolBaseFireRate := pistolBaseFireRate g;
     pickupCandidate := pickupCandidate g;
     prevLeftPinchActive := prevLeftPinchActive g |}.

Definition set_enemies (v : list Enemy.t) (g : t) : t :=
  {| stateMachine := stateMachine g; inputManager := inputManager g;
     gestureInput := gestureInput g; player := player g; enemies := v;
     projectiles := projectiles g; pickups := pickups g;
     weapons := weapons g; currentWeaponKey := currentWeaponKey g;
     killCount := killCount g; enemySpawnTimer := enemySpawnTimer g;
     pickupSpawnTimer := pickupSpawnTimer g; creatorMode := creatorMode g;
     pistolHasteActive := pistolHasteActive g;
     pistolHasteRemaining := pistolHasteRemaining g;
     originalPistolFireRate := originalPistolFireRate g;
     pistolBaseFireRate := pistolBaseFireRate g;
     pickupCandidate := pickupCandidate g;
     prevLeftPinchActive := prevLeftPinchActive g |}.

Definition set_projectiles (v : list Projectile.t) (g : t) : t :=
  {| stateMachine := stateMachine g; inputManager := inputManager g;
     gestureInput := gestureInput g; player := player g;
     enemies := enemies g; projectiles := v; pickups := pickups g;
     weapons := weapons g; currentWeaponKey := currentWeaponKey g;
     killCount := killCount g; enemySpawnTimer := enemySpawnTimer g;
     pickupSpawnTimer := pickupSpawnTimer g; creatorMode := creatorMode g;
     pistolHasteActive := pistolHasteActive g;
     pistolHasteRemaining := pistolHasteRemaining g;
     originalPistolFireRate := originalPistolFireRate g;
     pistolBaseFireRate := pistolBaseFireRate g;
     pickupCandidate := pickupCandidate g;
     prevLeftPinchActive := prevLeftPinchActive g |}.

Definition set_pickups (v : list Pickup.t) (g : t) : t :=
  {| stateMachine := stateMachine g; inputManager := inputManager g;
     gestureInput := gestureInput g; player := player g;
     enemies := enemies g; projectiles := projectiles g; pickups := v;
     weapons := weapons g; currentWeaponKey := currentWeaponKey g;
     killCount := killCount g; enemySpawnTimer := enemySpawnTimer g;
     pickupSpawnTimer := pickupSpawnTimer g; creatorMode := creatorMode g;
     pistolHasteActive := pistolHasteActive g;
     pistolHasteRemaining := pistolHasteRemaining g;
     originalPistolFireRate := originalPistolFireRate g;
     pistolBaseFireRate := pistolBaseFireRate g;
     pickupCandidate := pickupCandidate g;
     prevLeftPinchActive := prevLeftPinchActive g |}.

Definition set_weapons (v : Weapons) (g : t) : t :=
  {| stateMachine := stateMachine g; inputManager := inputManager g;
     gestureInput := gestureInput g; player := player g;
     enemies := enemies g; projectiles := projectiles g;
     pickups := pickups g; weapons := v;
     currentWeaponKey := currentWeaponKey g; killCount := killCount g;
     enemySpawnTimer := enemySpawnTimer g;
     pickupSpawnTimer := pickupSpawnTimer g; creatorMode := creatorMode g;
     pistolHasteActive := pistolHasteActive g;
     pistolHasteRemaining := pistolHasteRemaining g;
     originalPistolFireRate := originalPistolFireRate g;
     pistolBaseFireRate := pistolBaseFireRate g;
     pickupCandidate := pickupCandidate g;
     prevLeftPinchActive := prevLeftPinchActive g |}.

Definition set_currentWeaponKey (v : WeaponKey) (g : t) : t :=
  {| stateMachine := stateMachine g; inputManager := inputManager g;
     gestureInput := gestureInput g; player := player g;
     enemies := enemies g; projectiles := projectiles g;
     pickups := pickups g; weapons := weapons g; currentWeaponKey := v;
     killCount := killCount g; enemySpawnTimer := enemySpawnTimer g;
     pickupSpawnTimer := pickupSpawnTimer g; creatorMode := creatorMode g;
     pistolHasteActive := pistolHasteActive g;
     pistolHasteRemaining := pistolHasteRemaining g;
     originalPistolFireRate := originalPistolFireRate g;
     pistolBaseFireRate := pistolBaseFireRate g;
     pickupCandidate := pickupCandidate g;
     prevLeftPinchActive := prevLeftPinchActive g |}.

Definition set_killCount (v : Z) (g : t) : t :=
  {| stateMachine := stateMachine g; inputManager := inputManager g;
     gestureInput := gestureInput g; player := player g;
     enemies := enemies g; projectiles := projectiles g;
     pickups := pickups g; weapons := weapons g;
     currentWeaponKey := currentWeaponKey g; killCount := v;
     enemySpawnTimer := enemySpawnTimer g;
     pickupSpawnTimer := pickupSpawnTimer g; creatorMode := creatorMode g;
     pistolHasteActive := pistolHasteActive g;
     pistolHasteRemaining := pistolHasteRemaining g;
     originalPistolFireRate := originalPistolFireRate g;
     pistolBaseFireRate := pistolBaseFireRate g;
     pickupCandidate := pickupCandidate g;
     prevLeftPinchActive := prevLeftPinchActive g |}.

Definition set_enemySpawnTimer (v : Q) (g : t) : t :=
  {| stateMachine := stateMachine g; inputManager := inputManager g;
     gestureInput := gestureInput g; player := player g;
     enemies := enemies g; projectiles := projectiles g;
     pickups := pickups g; weapons := weapons g;
     currentWeaponKey := currentWeaponKey g; killCount := killCount g;
     enemySpawnTimer := v; pickupSpawnTimer := pickupSpawnTimer g;
     creatorMode := creatorMode g;
     pistolHasteActive := pistolHasteActive g;
     pistolHasteRemaining := pistolHasteRemaining g;
     originalPistolFireRate := originalPistolFireRate g;
     pistolBaseFireRate := pistolBaseFireRate g;
     pickupCandidate := pickupCandidate g;
     prevLeftPinchActive := prevLeftPinchActive g |}.

Definition set_pickupSpawnTimer (v : Q) (g : t) : t :=
  {| stateMachine := stateMachine g; inputManager := inputManager g;
     gestureInput := gestureInput g; player := player g;
     enemies := enemies g; projectiles := projectiles g;
     pickups := pickups g; weapons := weapons g;
     currentWeaponKey := currentWeaponKey g; killCount := killCount g;
     enemySpawnTimer := enemySpawnTimer g; pickupSpawnTimer := v;
     creatorMode := creatorMode g;
     pistolHasteActive := pistolHasteActive g;
     pistolHasteRemaining := pistolHasteRemaining g;
     originalPistolFireRate := originalPistolFireRate g;
     pistolBaseFireRate := pistolBaseFireRate g;
     pickupCandidate := pickupCandidate g;
     prevLeftPinchActive := prevLeftPinchActive g |}.

Definition set_creatorMode (v : bool) (g : t) : t :=
  {| stateMachine := stateMachine g; inputManager := inputManager g;
     gestureInput := gestureInput g; player := player g;
     enemies := enemies g; projectiles := projectiles g;
     pickups := pickups g; weapons := weapons g;
     currentWeaponKey := currentWeaponKey g; killCount := killCount g;
     enemySpawnTimer := enemySpawnTimer g;
     pickupSpawnTimer := pickupSpawnTimer g; creatorMode := v;
     pistolHasteActive := pistolHasteActive g;
     pistolHasteRemaining := pistolHasteRemaining g;
     originalPistolFireRate := originalPistolFireRate g;
     pistolBaseFireRate := pistolBaseFireRate g;
     pickupCandidate := pickupCandidate g;
     prevLeftPinchActive := prevLeftPinchActive g |}.

Definition set_pistolHasteActive (v : bool) (g : t) : t :=
  {| stateMachine := stateMachine g; inputManager := inputManager g;
     gestureInput := gestureInput g; player := player g;
     enemies := enemies g; projectiles := projectiles g;
     pickups := pickups g; weapons := weapons g;
     currentWeaponKey := currentWeaponKey g; killCount := killCount g;
     enemySpawnTimer := enemySpawnTimer g;
     pickupSpawnTimer := pickupSpawnTimer g; creatorMode := creatorMode g;
     pistolHasteActive := v;
     pistolHasteRemaining := pistolHasteRemaining g;
     originalPistolFireRate := originalPistolFireRate g;
     pistolBaseFireRate := pistolBaseFireRate g;
     pickupCandidate := pickupCandidate g;
     prevLeftPinchActive := prevLeftPinchActive g |}.

Definition set_pistolHasteRemaining (v : Q) (g : t) : t :=
  {| stateMachine := stateMachine g; inputManager := inputManager g;
     gestureInput := gestureInput g; player := player g;
     enemies := enemies g; projectiles := projectiles g;
     pickups := pickups g; weapons := weapons g;
     currentWeaponKey := currentWeaponKey g; killCount := killCount g;
     enemySpawnTimer := enemySpawnTimer g;
     pickupSpawnTimer := pickupSpawnTimer g; creatorMode := creatorMode g;
     pistolHasteActive := pistolHasteActive g; pistolHasteRemaining := v;
     originalPistolFireRate := originalPistolFireRate g;
     pistolBaseFireRate := pistolBaseFireRate g;
     pickupCandidate := pickupCandidate g;
     prevLeftPinchActive := prevLeftPinchActive g |}.

Definition set_originalPistolFireRate (v : option Q) (g : t) : t :=
  {| stateMachine := stateMachine g; inputManager := inputManager g;
     gestureInput := gestureInput g; player := player g;
     enemies := enemies g; projectiles := projectiles g;
     pickups := pickups g; weapons := weapons g;
     currentWeaponKey := currentWeaponKey g; killCount := killCount g;
     enemySpawnTimer := enemySpawnTimer g;
     pickupSpawnTimer := pickupSpawnTimer g; creatorMode := creatorMode g;
     pistolHasteActive := pistolHasteActive g;
     pistolHasteRemaining := pistolHasteRemaining g;
     originalPistolFireRate := v;
     pistolBaseFireRate := pistolBaseFireRate g;
     pickupCandidate := pickupCandidate g;
     prevLeftPinchActive := prevLeftPinchActive g |}.

Definition set_pistolBaseFireRate (v : option Q) (g : t) : t :=
  {| stateMachine := stateMachine g; inputManager := inputManager g;
     gestureInput := gestureInput g; player := player g;
     enemies := enemies g; projectiles := projectiles g;
     pickups := pickups g; weapons := weapons g;
     currentWeaponKey := currentWeaponKey g; killCount := killCount g;
     enemySpawnTimer := enemySpawnTimer g;
     pickupSpawnTimer := pickupSpawnTimer g; creatorMode := creatorMode g;
     pistolHasteActive := pistolHasteActive g;
     pistolHasteRemaining := pistolHasteRemaining g;
     originalPistolFireRate := originalPistolFireRate g;
     pistolBaseFireRate := v; pickupCandidate := pickupCandidate g;
     prevLeftPinchActive := prevLeftPinchActive g |}.

Definition set_pickupCandidate (v : option Pickup.t) (g : t) : t :=
  {| stateMachine := stateMachine g; inputManager := inputManager g;
     gestureInput := gestureInput g; player := player g;
     enemies := enemies g; projectiles := projectiles g;
     pickups := pickups g; weapons := weapons g;
     currentWeaponKey := currentWeaponKey g; killCount := killCount g;
     enemySpawnTimer := enemySpawnTimer g;
     pickupSpawnTimer := pickupSpawnTimer g; creatorMode := creatorMode g;
     pistolHasteActive := pistolHasteActive g;
     pistolHasteRemaining := pistolHasteRemaining g;
     originalPistolFireRate := originalPistolFireRate g;
     pistolBaseFireRate := pistolBaseFireRate g; pickupCandidate := v;
     prevLeftPinchActive := prevLeftPinchActive g |}.

Definition set_prevLeftPinchActive (v : bool) (g : t) : t :=
  {| stateMachine := stateMachine g; inputManager := inputManager g;
     gestureInput := gestureInput g; player := player g;
     enemies := enemies g; projectiles := projectiles g;
     pickups := pickups g; weapons := weapons g;
     currentWeaponKey := currentWeaponKey g; killCount := killCount g;
     enemySpawnTimer := enemySpawnTimer g;
     pickupSpawnTimer := pickupSpawnTimer g; creatorMode := creatorMode g;
     pistolHasteActive := pistolHasteActive g;
     pistolHasteRemaining := pistolHasteRemaining g;
     originalPistolFireRate := originalPistolFireRate g;
     pistolBaseFireRate := pistolBaseFireRate g;
     pickupCandidate := pickupCandidate g; prevLeftPinchActive := v |}.


Definition set_gestureInput (v : GestureInputManager.t) (g : t) : t :=
  {| stateMachine := stateMachine g; inputManager := inputManager g;
     gestureInput := v; player := player g;
     enemies := enemies g; projectiles := projectiles g;
     pickups := pickups g; weapons := weapons g;
     currentWeaponKey := currentWeaponKey g; killCount := killCount g;
     enemySpawnTimer := enemySpawnTimer g;
     pickupSpawnTimer := pickupSpawnTimer g; creatorMode := creatorMode g;
     pistolHasteActive := pistolHasteActive g;
     pistolHasteRemaining := pistolHasteRemaining g;
     originalPistolFireRate := originalPistolFireRate g;
     pistolBaseFireRate := pistolBaseFireRate g;
     pickupCandidate := pickupCandidate g;
     prevLeftPinchActive := prevLeftPinchActive g |}.

(** [recomputePistolFireRate] *)
Definition recomputePistolFireRate (g : t) : t :=
  let base :=
    match pistolBaseFireRate g with
    | Some b => b
    | None => pistol_fireRate (weapons g)
    end in
  let effective := base / (if pistolHasteActive g then 3 else 1) in
  set_weapons
    {| pistol_fireRate := effective;
       machine_gun_currentAmmo := machine_gun_currentAmmo (weapons g);
       grenade_currentAmmo := grenade_currentAmmo (weapons g) |} g.

(** [applyPickupEffect] (the toast is not modelled) *)
Definition applyPickupEffect (type : PickupType) (g : t) : t :=
  match type with
  | MG_AMMO =>
      set_weapons
        {| pistol_fireRate := pistol_fireRate (weapons g);
           machine_gun_currentAmmo :=
             machine_gun_currentAmmo (weapons g) + 20;
           grenade_currentAmmo := grenade_currentAmmo (weapons g) |} g
  | GRENADE =>
      set_weapons
        {| pistol_fireRate := pistol_fireRate (weapons g);
           machine_gun_currentAmmo := machine_gun_currentAmmo (weapons g);
           grenade_currentAmmo := grenade_currentAmmo (weapons g) + 5 |} g
  | HEAL =>
      set_player
        (Player.set_hp
           (Math_min (Player.maxHp (player g)) (Player.hp (player g) + 1))
           (player g)) g
  | PISTOL_HASTE =>
      recomputePistolFireRate
        (set_pistolHasteRemaining 10 (set_pistolHasteActive true g))
  end.

(** *** handleCollisions *)

(** Player vs enemies: one iteration of the [forEach]. *)
Definition playerVsEnemy (p : Player.t) (enemy : Enemy.t) : Player.t :=
  if CollisionSystem.checkCircleCollision p enemy then
    if Player.canTakeDamage p
    then Player.takeDamage (Enemy.damage enemy) p
    else p
  else p.

(** Projectiles vs enemies: the inner [forEach] over the enemies for one
    player-owned projectile.  The hit sound is not modelled. *)
Fixpoint projectileVsEnemies (projectile : Projectile.t)
    (es : list Enemy.t) (kills : Z)
    : Projectile.t * list Enemy.t * Z :=
  match es with
  | [] => (projectile, [], kills)
  | enemy :: rest =>
      if CollisionSystem.checkCircleCollision projectile enemy then
        let enemy' := Enemy.takeDamage (Projectile.damage projectile) enemy in
        let projectile' := Projectile.kill projectile in
        let kills' :=
          if negb (Enemy.isAlive enemy') then (kills + 1)%Z else kills in
        let '(p, rest', k) := projectileVsEnemies projectile' rest kills' in
        (p, enemy' :: rest', k)
      else
        let '(p, rest', k) := projectileVsEnemies projectile rest kills in
        (p, enemy :: rest', k)
  end.

(** Projectiles vs enemies: the outer [forEach] over the projectiles. *)
Fixpoint projectilesVsEnemies (ps : list Projectile.t)
    (es : list Enemy.t) (kills : Z)
    : list Projectile.t * list Enemy.t * Z :=
  match ps with
  | [] => ([], es, kills)
  | projectile :: rest =>
      if Projectile.ownedByPlayer projectile then
        let '(p, es1, k1) := projectileVsEnemies projectile es kills in
        let '(rest', es2, k2) := projectilesVsEnemies rest es1 k1 in
        (p :: rest', es2, k2)
      else
        let '(rest', es2, k2) := projectilesVsEnemies rest es kills in
        (projectile :: rest', es2, k2)
  end.

(** Enemy projectiles vs player: the [forEach] over the projectiles. *)
Fixpoint projectilesVsPlayer (ps : list Projectile.t) (p : Player.t)
    : list Projectile.t * Player.t :=
  match ps with
  | [] => ([], p)
  | projectile :: rest =>
      if Projectile.ownedByEnemy projectile then
        if CollisionSystem.checkCircleCollision projectile p then
          if Player.canTakeDamage p then
            let p' := Player.takeDamage (Projectile.damage projectile) p in
            let '(rest', p'') := projectilesVsPlayer rest p' in
            (Projectile.kill projectile :: rest', p'')
          else
            let '(rest', p'') := projectilesVsPlayer rest p in
            (projectile :: rest', p'')
        else
          let '(rest', p'') := projectilesVsPlayer rest p in
          (projectile :: rest', p'')
      else
        let '(rest', p'') := projectilesVsPlayer rest p in
        (projectile :: rest', p'')
  end.

(** Player vs pickups: the [for] loop from index [i] on.  [nearestIndex]
    is [None] for [-1]. *)
Fixpoint scanPickups (p : Player.t) (ps : list Pickup.t) (i : nat)
    (nearestIndex : option nat) (nearestDist : Extended)
    : option nat * Extended :=
  match ps with
  | [] => (nearestIndex, nearestDist)
  | pk :: rest =>
      if CollisionSystem.checkCircleCollision p pk then
        let d := Utils.distance (Player.x p) (Player.y p)
                                (Pickup.x pk) (Pickup.y pk) in
        if root_lt_ext d nearestDist
        then scanPickups p rest (S i) (Some i) (Finite d)
        else scanPickups p rest (S i) nearestIndex nearestDist
      else scanPickups p rest (S i) nearestIndex nearestDist
  end.

(** Player vs pickups: the candidate and its confirmation. *)
Definition playerVsPickups (g : t) : t :=
  let g0 := set_pickupCandidate None g in
  match fst (scanPickups (player g0) (pickups g0) 0 None Infinity) with
  | Some nearestIndex =>
      match pickups g0 !! nearestIndex with
      | Some candidate =>
          let g1 := set_pickupCandidate (Some candidate) g0 in
          let pinchActive :=
            GestureInputManager.isRightPinchActive (gestureInput g1) in
          if InputManager.isPickingUp (inputManager g1) || pinchActive
          then
            let g2 := applyPickupEffect (Pickup.type candidate) g1 in
            let g3 := set_pickups (delete nearestIndex (pickups g2)) g2 in
            set_pickupCandidate None g3
          else g1
      | None => g0
      end
  | None => g0
  end.

(** The three damage passes of [handleCollisions], in their order. *)
Definition resolveDamage (g : t) : t :=
  let g1 := set_player (fold_left playerVsEnemy (enemies g) (player g)) g in
  let '(ps, es, kills) :=
    projectilesVsEnemies (projectiles g1) (enemies g1) (killCount g1) in
  let g2 := set_killCount kills (set_enemies es (set_projectiles ps g1)) in
  let '(ps', p') := projectilesVsPlayer (projectiles g2) (player g2) in
  set_player p' (set_projectiles ps' g2).

Definition handleCollisions (g : t) : t :=
  playerVsPickups (resolveDamage g).

(** *** updatePlaying *)

(** The calls of [updatePlaying] into gameplay.js, and the two spawn
    functions, which draw random numbers and build entities of
    gameplay.js.  Their code is not in the sources: they are parameters,
    and may change any part of the game. *)
Record Gameplay : Type := {
  (* this.player.update(deltaTime, hybridInput, bounds) *)
  player_update : Q -> t -> t;
  (* this.player.fire(x, y, this.projectiles, this.enemies) *)
  player_fire : Q -> Q -> t -> t;
  spawnEnemy : t -> t;
  spawnPickup : t -> t;
  (* this.enemies.forEach(enemy => enemy.update(...)) *)
  enemies_update : Q -> t -> t;
  (* this.projectiles.forEach(projectile => projectile.update(...)) *)
  projectiles_update : Q -> t -> t;
  (* Object.values(this.weapons).forEach(weapon => weapon.update(...)) *)
  weapons_update : Q -> t -> t;
  (* new Player(ARENA_WIDTH / 2, ARENA_HEIGHT / 2) *)
  newPlayer : Player.t;
  (* new WEAPON_REGISTRY.pistol(), ... *)
  newWeapons : Weapons
}.

(** Firing: the gesture aim overrides the mouse. *)
Definition handleFiring (gp : Gameplay) (g : t) : t :=
  let gestureActive :=
    GestureInputManager.isGestureShootingActive (gestureInput g) in
  let aim :=
    if gestureActive
    then GestureInputManager.getGestureAimTargetGame (gestureInput g)
    else None in
  if gestureActive then
    match aim with
    | Some (aimX, aimY) =>
        let im := inputManager g in
        let g1 :=
          set_inputManager
            (InputManager.set_input
               (set_mouse (inject_Z aimX) (inject_Z aimY)
                          (InputManager.input im)) im) g in
        player_fire gp (inject_Z aimX) (inject_Z aimY) g1
    | None => g
    end
  else
    if InputManager.isFiring (inputManager g) then
      let '(mx, my) := InputManager.getMousePosition (inputManager g) in
      player_fire gp mx my g
    else g.

(** The rising edge of the left-hand pinch asks for a weapon switch. *)
Definition handleLeftPinch (now : Q) (g : t) : t :=
  let leftPinchActive :=
    GestureInputManager.isLeftPinchActive (gestureInput g) in
  let g1 :=
    if leftPinchActive && negb (prevLeftPinchActive g) then
      if InputManager.canSwitchWeapon now (inputManager g)
      then set_inputManager
             (InputManager.set_input
                (set_switchWeapon true
                   (InputManager.input (inputManager g)))
                (inputManager g)) g
      else g
    else g in
  set_prevLeftPinchActive leftPinchActive g1.

(** [toggleWeapon]: the next weapon of the cycle.  Handing the weapon to
    the player object ([setWeapon]) and the toast are not modelled. *)
Definition toggleWeapon (g : t) : t :=
  set_currentWeaponKey
    match currentWeaponKey g with
    | pistol => machine_gun
    | machine_gun => knife
    | knife => grenade
    | grenade => pistol
    end g.

(** The consumer of the weapon-switch flag. *)
Definition handleWeaponSwitch (now : Q) (g : t) : t :=
  let weaponSwitch := InputManager.getWeaponSwitch (inputManager g) in
  if weaponSwitch then
    let g1 := toggleWeapon g in
    set_inputManager
      (InputManager.clearWeaponSwitch now (inputManager g1)) g1
  else g.

(** JavaScript truthiness of a number or null. *)
Definition truthy (v : option Q) : bool :=
  match v with
  | Some q => negb (Qeq_bool q 0)
  | None => false
  end.

Definition applyCreatorModeModifications (g : t) : t :=
  let g1 :=
    if negb (truthy (originalPistolFireRate g))
    then set_originalPistolFireRate
           (Some (pistol_fireRate (weapons g))) g
    else g in
  recomputePistolFireRate
    (set_pistolBaseFireRate
       (match originalPistolFireRate g1 with
        | Some o => Some (o / 5)
        | None => None
        end) g1).

Definition revertCreatorModeModifications (g : t) : t :=
  if truthy (originalPistolFireRate g)
  then recomputePistolFireRate
         (set_pistolBaseFireRate (originalPistolFireRate g) g)
  else g.

Definition toggleCreatorMode (g : t) : t :=
  let g1 := set_creatorMode (negb (creatorMode g)) g in
  if creatorMode g1
  then applyCreatorModeModifications g1
  else revertCreatorModeModifications g1.

(** The consumer of the creator-mode flag. *)
Definition handleCreatorModeToggle (now : Q) (g : t) : t :=
  if InputManager.getCreatorModeToggle (inputManager g) then
    let g1 := toggleCreatorMode g in
    set_inputManager
      (InputManager.clearCreatorModeToggle now (inputManager g1)) g1
  else g.

(** The two spawn timers. *)
Definition handleSpawns (gp : Gameplay) (deltaTime : Q) (g : t) : t :=
  let g1 := set_enemySpawnTimer (enemySpawnTimer g + deltaTime) g in
  let g2 :=
    if Qle_bool ENEMY_SPAWN_INTERVAL (enemySpawnTimer g1)
    then set_enemySpawnTimer 0 (spawnEnemy gp g1)
    else g1 in
  let g3 := set_pickupSpawnTimer (pickupSpawnTimer g2 + deltaTime) g2 in
  if Qle_bool PICKUP_SPAWN_INTERVAL (pickupSpawnTimer g3)
  then set_pickupSpawnTimer 0 (spawnPickup gp g3)
  else g3.

(** Pistol haste: countdown and expiry. *)
Definition updatePistolHaste (deltaTime : Q) (g : t) : t :=
  if pistolHasteActive g then
    let g1 :=
      set_pistolHasteRemaining
        (Math_max 0 (pistolHasteRemaining g - deltaTime)) g in
    if Qle_bool (pistolHasteRemaining g1) 0
    then recomputePistolFireRate (set_pistolHasteActive false g1)
    else g1
  else g.

(** [updatePlaying] up to its call of [handleCollisions]. *)
Definition advancePlaying (gp : Gameplay) (now deltaTime : Q) (g : t) : t :=
  let g1 := player_update gp deltaTime g in
  let g2 := handleFiring gp g1 in
  let g3 := handleLeftPinch now g2 in
  let g4 := handleWeaponSwitch now g3 in
  let g5 := handleCreatorModeToggle now g4 in
  let g6 := handleSpawns gp deltaTime g5 in
  let g7 := enemies_update gp deltaTime g6 in
  let g8 := projectiles_update gp deltaTime g7 in
  let g9 := weapons_update gp deltaTime g8 in
  updatePistolHaste deltaTime g9.

(** [updatePlaying] from its call of [handleCollisions] on: collisions,
    removal of the dead, game-over check. *)
Definition resolvePlaying (g : t) : t :=
  let g1 := handleCollisions g in
  let g2 := set_enemies (List.filter Enemy.isAlive (enemies g1)) g1 in
  let g3 :=
    set_projectiles (List.filter Projectile.isAlive (projectiles g2)) g2 in
  if negb (Player.isAlive (player g3))
  then set_stateMachine
         (GameStateMachine.setState GAME_OVER (stateMachine g3)) g3
  else g3.

Definition updatePlaying (gp : Gameplay) (now deltaTime : Q) (g : t) : t :=
  resolvePlaying (advancePlaying gp now deltaTime g).

Definition updateGameOver (deltaTime : Q) (g : t) : t := g.

(** [update] after the state's own update: collisions again, HUD (not
    modelled), game-over check. *)
Definition finishUpdate (g : t) : t :=
  let g1 := handleCollisions g in
  if negb (Player.isAlive (player g1))
     && GAME_STATES_eqb (GameStateMachine.getState (stateMachine g1)) PLAYING
  then set_stateMachine
         (GameStateMachine.setState GAME_OVER (stateMachine g1)) g1
  else g1.

(** [update]: one tick of the simulation. *)
Definition update (gp : Gameplay) (now deltaTime : Q) (g : t)
    : Completion t :=
  match InputManager.update deltaTime (inputManager g) with
  | Normal im =>
      let g1 := set_inputManager im g in
      let g2 :=
        match GameStateMachine.getState (stateMachine g1) with
        | PLAYING => updatePlaying gp now deltaTime g1
        | GAME_OVER => updateGameOver deltaTime g1
        | _ => g1
        end in
      Normal (finishUpdate g2)
  | Throw e im => Throw e (set_inputManager im g)
  end.

(** [initGameObjects] and [restart] *)
Definition initGameObjects (gp : Gameplay) (g : t) : t :=
  recomputePistolFireRate
    {| stateMachine := stateMachine g;
       inputManager := inputManager g;
       gestureInput := gestureInput g;
       player := newPlayer gp;
       enemies := [];
       projectiles := [];
       pickups := [];
       weapons := newWeapons gp;
       currentWeaponKey := pistol;
       killCount := 0;
       enemySpawnTimer := 0;
       pickupSpawnTimer := 0;
       creatorMode := creatorMode g;
       pistolHasteActive := false;
       pistolHasteRemaining := 0;
       originalPistolFireRate := Some (pistol_fireRate (newWeapons gp));
       pistolBaseFireRate := Some (pistol_fireRate (newWeapons gp));
       pickupCandidate := pickupCandidate g;
       prevLeftPinchActive := prevLeftPinchActive g |}.

Definition restart (gp : Gameplay) (g : t) : t :=
  let g1 := initGameObjects gp g in
  set_stateMachine (GameStateMachine.setState PLAYING (stateMachine g1)) g1.

(** The vector handed to the player's update: the keyboard's when a key
    moves, otherwise the gesture's.  [keyboardVector] is
    [inputManager.getMoveVector()], [gestureMove] the [moveVector] of the
    gesture input. *)
Definition finalVector (keyboardVector gestureMove : Ratio * Ratio) (g : t)
    : Ratio * Ratio :=
  let gestureVector :=
    if GestureInputManager.initialized (gestureInput g)
    then GestureInputManager.getMoveVector gestureMove
    else (Plain 0, Plain 0) in
  let keyboardActive :=
    ratio_abs_gt_num (fst keyboardVector) 0.01
    || ratio_abs_gt_num (snd keyboardVector) 0.01 in
  if keyboardActive then keyboardVector else gestureVector.

(** [updateHUD]: the hearts of the health display, full ones first.
    [String.prototype.repeat] takes the integer part of its count. *)
Inductive Heart : Type :=
| FullHeart
| EmptyHeart.

Definition healthHearts (g : t) : list Heart :=
  let hearts :=
    replicate (Z.to_nat (Qfloor (Math_max 0 (Player.hp (player g)))))
              FullHeart in
  let emptyHearts :=
    replicate
      (Z.to_nat
         (Qfloor (Math_max 0 (Player.maxHp (player g)
                              - Player.hp (player g)))))
      EmptyHeart in
  (hearts ++ emptyHearts)%list.

(** [updateHUD]: the seconds shown by the haste countdown; [None] when the
    countdown is not displayed. *)
Definition hasteCountdown (g : t) : option Z :=
  if pistolHasteActive g then Some (Qceiling (pistolHasteRemaining g))
  else None.

End Game.

(** ** Spawning (main.js)

    [spawnEnemy] and [spawnPickup] draw from [Math.random()]: [random k]
    is the draw of the call's [k]-th use of it.  The entities are built by
    constructors of gameplay.js, which are parameters here. *)

Module GameSpawn.

Definition enemyTypes : list string := ["assassin"; "shooter"; "tank"].

Definition pickupTypes : list PickupType :=
  [MG_AMMO; GRENADE; HEAL; PISTOL_HASTE].

(** [array[index]] for an integer index: [None] is [undefined]. *)
Definition at_index {A : Type} (array : list A) (index : Z) : option A :=
  if (index <? 0)%Z then None else array !! Z.to_nat index.

Definition margin : Q := 50.

(** The [switch] over the edge (0 top, 1 right, 2 bottom, 3 left), with
    the draw of its [randomRange]; without a matching case [x] and [y] stay
    as they are. *)
Definition edgePoint (edge : Z) (random : Q) (xy : option Q * option Q)
    : option Q * option Q :=
  match edge with
  | 0%Z => (Some (Utils.randomRange random margin (ARENA_WIDTH - margin)),
            Some (- margin))
  | 1%Z => (Some (ARENA_WIDTH + margin),
            Some (Utils.randomRange random margin (ARENA_HEIGHT - margin)))
  | 2%Z => (Some (Utils.randomRange random margin (ARENA_WIDTH - margin)),
            Some (ARENA_HEIGHT + margin))
  | 3%Z => (Some (- margin),
            Some (Utils.randomRange random margin (ARENA_HEIGHT - margin)))
  | _ => xy
  end.

(** [Utils.distance(x, y, ...) < limit]; with an undefined coordinate the
    distance is not a number and the comparison is false. *)
Definition closerThan (limit : Q) (xy : option Q * option Q)
    (player : Player.t) : bool :=
  match xy with
  | (Some x, Some y) =>
      root_lt_num (Utils.distance x y (Player.x player) (Player.y player))
                  limit
  | _ => false
  end.

(** The point at which [spawnEnemy] builds the enemy. *)
Definition enemySpawnPoint (random : nat -> Q) (player : Player.t)
    : option Q * option Q :=
  let edge := Utils.randomInt (random 1%nat) 0 3 in
  let xy := edgePoint edge (random 2%nat) (None, None) in
  if closerThan SPAWN_SAFETY_DISTANCE xy player then
    let alternativeEdge := Z.rem (edge + 2) 4 in
    edgePoint alternativeEdge (random 3%nat) xy
  else xy.

(** [registry] is [ENEMY_REGISTRY]: the constructor of a type, if any. *)
Definition spawnEnemy
    (registry : option string -> option (option Q -> option Q -> Enemy.t))
    (random : nat -> Q) (g : Game.t) : Game.t :=
  let enemyType :=
    at_index enemyTypes
      (Utils.randomInt (random 0%nat) 0
         (Z.of_nat (length enemyTypes) - 1)) in
  let '(x, y) := enemySpawnPoint random (Game.player g) in
  match registry enemyType with
  | Some EnemyClass =>
      Game.set_enemies (Game.enemies g ++ [EnemyClass x y])%list g
  | None => g
  end.

(** The tries of [spawnPickup] from the [i]-th on, [tries] of them left;
    the draws of a try are [random k] and [random (k + 1)]. *)
Fixpoint pickupTries (tries : nat) (random : nat -> Q) (k : nat)
    (player : Player.t) (x y : Q) : Q * Q :=
  match tries with
  | O => (x, y)
  | S tries' =>
      let x :=
        Utils.randomRange (random k) PICKUP_RADIUS
                          (ARENA_WIDTH - PICKUP_RADIUS) in
      let y :=
        Utils.randomRange (random (S k)) PICKUP_RADIUS
                          (ARENA_HEIGHT - PICKUP_RADIUS) in
      if root_ge_num
           (Utils.distance x y (Player.x player) (Player.y player))
           PICKUP_SAFE_DISTANCE
      then (x, y)
      else pickupTries tries' random (S (S k)) player x y
  end.

(** The point at which [spawnPickup] builds the pickup. *)
Definition pickupSpawnPoint (random : nat -> Q) (player : Player.t)
    : Q * Q :=
  pickupTries 40 random 1 player (Player.x player) (Player.y player).

(** [newPickup] is the constructor [Pickup] of gameplay.js. *)
Definition spawnPickup
    (newPickup : Q -> Q -> option PickupType -> Pickup.t)
    (random : nat -> Q) (g : Game.t) : Game.t :=
  let type :=
    at_index pickupTypes
      (Utils.randomInt (random 0%nat) 0
         (Z.of_nat (length pickupTypes) - 1)) in
  let '(x, y) := pickupSpawnPoint random (Game.player g) in
  Game.set_pickups (Game.pickups g ++ [newPickup x y type])%list g.

End GameSpawn.

(** ** The game loop (main.js)

    The timing fields of [Game] and the methods that use them.
    [currentTime] is the reading of [performance.now()], in milliseconds,
    [now] that of [Date.now() / 1000].  [render] only draws and is not
    modelled; the next call of [gameLoop] is made by the browser. *)

Module GameLoop.

Record t : Type := {
  game : Game.t;
  isRunning : bool;
  lastTime : Q;
  deltaTime : Q;
  fps : Q;
  fpsCounter : Z;
  fpsTimer : Q
}.

(** The timing fields as the constructor of [Game] sets them. *)
Definition new (g : Game.t) : t :=
  {| game := g; isRunning := false; lastTime := 0; deltaTime := 0;
     fps := 0; fpsCounter := 0; fpsTimer := 0 |}.





End GameLoop.

(** ** Pistol haste in the program's numbers

    The numbers of the program are IEEE 754 doubles.  The haste timer is
    the one place where the rounding of a single subtraction decides at
    which tick something happens, so the code that keeps it is embedded a
    second time here, on doubles: the pistol fields of [Game], the
    [PISTOL_HASTE] case of [applyPickupEffect], [recomputePistolFireRate]
    and the countdown of [updatePlaying]. *)

Module HasteInDoubles.

Import PrimFloat.


(** [Math.max] of two doubles. *)
Definition Math_max (a b : float) : float :=
  if is_nan a || is_nan b then nan
  else if (a <? b)%float then b
  else if (b <? a)%float then a
  else match classify a with
       | FloatClass.NZero => b
       | _ => a
       end.

Record t : Type := {
  pistol_fireRate : float;           (* this.weapons.pistol.fireRate *)
  pistolBaseFireRate : option float;
  pistolHasteActive : bool;
  pistolHasteRemaining : float
}.

Definition recomputePistolFireRate (g : t) : t :=
  let base :=
    match pistolBaseFireRate g with
    | Some b => b
    | None => pistol_fireRate g
    end in
  let effective := (base / (if pistolHasteActive g then 3 else 1))%float in
  {| pistol_fireRate := effective;
     pistolBaseFireRate := pistolBaseFireRate g;
     pistolHasteActive := pistolHasteActive g;
     pistolHasteRemaining := pistolHasteRemaining g |}.


(** The haste countdown of [updatePlaying]. *)
Definition updatePistolHaste (deltaTime : float) (g : t) : t :=
  if pistolHasteActive g then
    let g1 :=
      {| pistol_fireRate := pistol_fireRate g;
         pistolBaseFireRate := pistolBaseFireRate g;
         pistolHasteActive := pistolHasteActive g;
         pistolHasteRemaining :=
           Math_max 0 (pistolHasteRemaining g - deltaTime)%float |} in
    if (pistolHasteRemaining g1 <=? 0)%float
    then recomputePistolFireRate
           {| pistol_fireRate := pistol_fireRate g1;
              pistolBaseFireRate := pistolBaseFireRate g1;
              pistolHasteActive := false;
              pistolHasteRemaining := pistolHasteRemaining g1 |}
    else g1
  else g.





End HasteInDoubles.

(** * Vocabulary of the properties

    The words in which the properties below are stated, and the sample
    games they are tried on. *)

(** ** Roots and real square roots *)

(** The real number a [Root] stands for. *)
Definition valueOf (r : Root) : Rdefinitions.R :=
  R_sqrt.sqrt (Rdefinitions.Q2R (radicand r)).

(** ** Pinch hysteresis *)

Section Pinch.

Import GestureInputManager.

(** The two hands of the pinch judgment. *)
Inductive Side : Type := LeftHand | RightHand.

Definition onThreshold (side : Side) : Q :=
  match side with
  | LeftHand => leftPinchOnThreshold
  | RightHand => rightPinchOnThreshold
  end.

Definition offThreshold (side : Side) : Q :=
  match side with
  | LeftHand => leftPinchOffThreshold
  | RightHand => rightPinchOffThreshold
  end.

Definition pinchActive (side : Side) (this : t) : bool :=
  match side with
  | LeftHand => leftPinchActive this
  | RightHand => rightPinchActive this
  end.

(** The index fingertip and the thumb tip that a frame holds of a hand. *)
Definition tips (side : Side) (results : Results)
    : option Vec2 * option Vec2 :=
  let h := scanHands results in
  match side with
  | LeftHand => (leftFingerTip h, leftThumbTip h)
  | RightHand => (rightFingerTip h, rightThumbTip h)
  end.

(** The fingertip-thumb distance of a hand in a frame, when both
    landmarks are there. *)
Definition pinchDistance (side : Side) (results : Results) : option Root :=
  match tips side results with
  | (Some finger, Some thumb) =>
      Some (Math_hypot (vx thumb - vx finger) (vy thumb - vy finger))
  | _ => None
  end.

(** A frame as [onResults] receives it: the detector's results and the
    overlay's aiming region. *)
Definition Frame : Type := Results * option (Vec2 -> option (Q * Q)).

Definition feed (this : t) (frames : list Frame) : t :=
  fold_left (fun s f => onResults (fst f) (snd f) s) frames this.

(** The hand is in the frame and its distance is not above the exit
    threshold. *)
Definition heldWithinExit (side : Side) (f : Frame) : Prop :=
  exists d, pinchDistance side (fst f) = Some d
            /\ root_gt_num d (offThreshold side) = false.

(** The hand is in the frame and its distance is below the enter
    threshold. *)
Definition belowEnter (side : Side) (f : Frame) : Prop :=
  exists d, pinchDistance side (fst f) = Some d
            /\ root_lt_num d (onThreshold side) = true.

End Pinch.

(** A right hand whose thumb tip is at (0.5, 0.5) and whose index fingertip
    is at ([fingerX], 0.5), as the detector reports it. *)
Definition rightHandFrame (fingerX : Q) : Frame :=
  let origin := {| vx := 0; vy := 0 |} in
  let thumb := {| vx := 0.5; vy := 0.5 |} in
  let finger := {| vx := fingerX; vy := 0.5 |} in
  ({| multiHandLandmarks :=
        Some [[origin; origin; origin; origin; thumb;
               origin; origin; origin; finger]];
      multiHandedness := Some ["Right"] |}, None).

(** ** Aim smoothing *)

(** What the smoothing step must have made of the raw point and the last
    smoothed point [prev]; [this'] is the manager after the step. *)
Definition smoothedFrom (rawX rawY : Q) (prev : Vec2)
    (this' : GestureInputManager.t) : Prop :=
  let alpha := GestureInputManager.aimSmoothingAlpha in
  let maxStep := GestureInputManager.aimMaxStepPx in
  let dx := rawX - vx prev in
  let dy := rawY - vy prev in
  0 < alpha /\ alpha < 1
  /\ exists smoothed : Vec2,
       GestureInputManager.gestureAimSmoothed this' = Some smoothed
       /\ (root_lt_num (Math_hypot dx dy) GestureInputManager.aimDeadzonePx
           = true ->
           smoothed = prev)
       /\ (root_lt_num (Math_hypot dx dy) GestureInputManager.aimDeadzonePx
           = false ->
           let cx := Utils.clamp dx (- maxStep) maxStep in
           let cy := Utils.clamp dy (- maxStep) maxStep in
           smoothed = {| vx := vx prev * (1 - alpha) + (vx prev + cx) * alpha;
                         vy := vy prev * (1 - alpha) + (vy prev + cy) * alpha |}
           /\ vx smoothed == vx prev + alpha * cx
           /\ vy smoothed == vy prev + alpha * cy
           /\ - maxStep <= cx <= maxStep /\ - maxStep <= cy <= maxStep
           /\ (- maxStep <= dx <= maxStep -> cx == dx)
           /\ (- maxStep <= dy <= maxStep -> cy == dy))
       /\ (exists tx ty : Z,
             GestureInputManager.gestureAimTargetGame this' = Some (tx, ty)
             /\ tx = Math_round (vx smoothed) /\ ty = Math_round (vy smoothed)
             /\ vx smoothed - (1 # 2) < inject_Z tx <= vx smoothed + (1 # 2)
             /\ vy smoothed - (1 # 2) < inject_Z ty <= vy smoothed + (1 # 2))
       /\ GestureInputManager.gestureShootingActive this' = true.

(** A left hand whose index fingertip is at ([fingerX], [fingerY]). *)
Definition leftHandResults (fingerX fingerY : Q) : Results :=
  let origin := {| vx := 0; vy := 0 |} in
  let finger := {| vx := fingerX; vy := fingerY |} in
  {| multiHandLandmarks :=
       Some [[origin; origin; origin; origin; origin;
              origin; origin; origin; finger]];
     multiHandedness := Some ["Left"] |}.

(** A region that covers the whole image, mirrored onto the arena. *)
Definition wholeImage (tip : Vec2) : option (Q * Q) :=
  Some ((1 - vx tip) * ARENA_WIDTH, vy tip * ARENA_HEIGHT).

(** A manager whose last smoothed aim point is the centre of the arena. *)
Definition aimingAtCentre : GestureInputManager.t :=
  {| GestureInputManager.initialized := true;
     GestureInputManager.leftHandPresent := true;
     GestureInputManager.gestureShootingActive := true;
     GestureInputManager.gestureAimSmoothed :=
       Some {| vx := 600; vy := 400 |};
     GestureInputManager.gestureAimTargetGame := Some (600%Z, 400%Z);
     GestureInputManager.rightPinchActive := false;
     GestureInputManager.leftPinchActive := false |}.

(** ** Provider faults *)




(** ** Pistol haste *)





(** ** Sample games *)

(** The input manager as [setupInput] leaves it, the keyboard provider being
    in state [kb] and [input] being the input state. *)
Definition setupInput (kb : KeyboardMouseProvider.t) (input : InputState)
    : InputManager.t :=
  InputManager.set_input input
    (InputManager.setActiveProvider "keyboard-mouse"
       (InputManager.registerProvider "voice" (VoiceProvider.provider 3) false
          (InputManager.registerProvider "gesture"
             (GestureProvider.provider 2) false
             (InputManager.registerProvider "keyboard-mouse"
                (KeyboardMouseProvider.provider 1 kb) true
                InputManager.new)))).

(** The F key is held. *)
Definition holdingF : KeyboardMouseProvider.t :=
  {| KeyboardMouseProvider.keys := {["pickup"]};
     KeyboardMouseProvider.mouseButtons := ∅ |}.

(** A player of radius 16 in the centre of the arena. *)
Definition playerAtCentre (hp invulnerabilityTime : Q) : Player.t :=
  {| Player.x := 600; Player.y := 400; Player.radius := 16;
     Player.hp := hp; Player.maxHp := 3;
     Player.invulnerabilityTime := invulnerabilityTime;
     Player.invulnerabilityDuration := 1 |}.

(** A game in state [state] with the given entities; the pistol fires every
    0.3 seconds, no haste, no kills yet. *)
Definition scene (state : GAME_STATES) (kb : KeyboardMouseProvider.t)
    (p : Player.t) (es : list Enemy.t) (ps : list Projectile.t)
    (pks : list Pickup.t) : Game.t :=
  {| Game.stateMachine :=
       GameStateMachine.setState state
         (GameStateMachine.setState PLAYING GameStateMachine.new);
     Game.inputManager :=
       setupInput kb
         (set_pickup (bool_decide ("pickup" ∈ KeyboardMouseProvider.keys kb))
                     initialInputState);
     Game.gestureInput := GestureInputManager.new;
     Game.player := p;
     Game.enemies := es;
     Game.projectiles := ps;
     Game.pickups := pks;
     Game.weapons :=
       {| pistol_fireRate := 0.3;
          machine_gun_currentAmmo := 0;
          grenade_currentAmmo := 0 |};
     Game.currentWeaponKey := pistol;
     Game.killCount := 0;
     Game.enemySpawnTimer := 0;
     Game.pickupSpawnTimer := 0;
     Game.creatorMode := false;
     Game.pistolHasteActive := false;
     Game.pistolHasteRemaining := 0;
     Game.originalPistolFireRate := Some 0.3;
     Game.pistolBaseFireRate := Some 0.3;
     Game.pickupCandidate := None;
     Game.prevLeftPinchActive := false |}.

Definition playerBullet (x y : Q) : Projectile.t :=
  {| Projectile.x := x; Projectile.y := y; Projectile.radius := 4;
     Projectile.damage := 1; Projectile.owner := Some "player";
     Projectile.alive := true |}.

Definition enemyBullet (x y : Q) : Projectile.t :=
  {| Projectile.x := x; Projectile.y := y; Projectile.radius := 4;
     Projectile.damage := 1; Projectile.owner := Some "shooter";
     Projectile.alive := true |}.

Definition enemyAt (x y hp : Q) : Enemy.t :=
  {| Enemy.x := x; Enemy.y := y; Enemy.radius := 20;
     Enemy.hp := hp; Enemy.damage := 1 |}.

Definition pickupAt (x y : Q) (type : PickupType) : Pickup.t :=
  {| Pickup.x := x; Pickup.y := y; Pickup.radius := 28; Pickup.type := type |}.

(** ** Collisions *)

(** What a hit test of projectile [p] does to an enemy. *)
Definition hitBy (p : Projectile.t) (e : Enemy.t) : Enemy.t :=
  if CollisionSystem.checkCircleCollision p e
  then Enemy.takeDamage (Projectile.damage p) e
  else e.

(** One bullet over two enemies that stand close together. *)
Definition bulletOverTwoEnemies : Game.t :=
  scene PLAYING KeyboardMouseProvider.new (playerAtCentre 3 0)
    [enemyAt 100 100 2; enemyAt 110 100 2] [playerBullet 105 100] [].

(** The enemies that are dead, counted. *)
Definition deadAmong (es : list Enemy.t) : Z :=
  Z.of_nat (length (List.filter (fun e => negb (Enemy.isAlive e)) es)).

(** Two bullets of the player on one enemy that has 1 hp left. *)
Definition twoBulletsOnOneEnemy : Game.t :=
  scene PLAYING KeyboardMouseProvider.new (playerAtCentre 3 0)
    [enemyAt 100 100 1] [playerBullet 100 100; playerBullet 110 100] [].

(** The distance from the player's centre to a pickup's centre. *)
Definition pickupDistance (pl : Player.t) (c : Pickup.t) : Root :=
  Utils.distance (Player.x pl) (Player.y pl) (Pickup.x c) (Pickup.y c).

(** Pickup [c] is strictly nearer to the player than pickup [c']. *)
Definition nearer (pl : Player.t) (c c' : Pickup.t) : bool :=
  root_lt_root (pickupDistance pl c) (pickupDistance pl c').

(** The confirmation of a pickup: the F key or the right-hand pinch. *)
Definition pickupConfirmed (g : Game.t) : bool :=
  InputManager.isPickingUp (Game.inputManager g)
  || GestureInputManager.isRightPinchActive (Game.gestureInput g).

(** Pickup [c], at index [i], is the nearest of the pickups that overlap
    the player, and the first of the list among equally near ones. *)
Definition nearestOverlapping (pl : Player.t) (pks : list Pickup.t)
    (i : nat) (c : Pickup.t) : Prop :=
  pks !! i = Some c
  /\ CollisionSystem.checkCircleCollision pl c = true
  /\ (forall (k : nat) (c' : Pickup.t),
        pks !! k = Some c' ->
        CollisionSystem.checkCircleCollision pl c' = true ->
        nearer pl c' c = false)
  /\ (forall (k : nat) (c' : Pickup.t),
        (k < i)%nat ->
        pks !! k = Some c' ->
        CollisionSystem.checkCircleCollision pl c' = true ->
        nearer pl c c' = true).

(** The F key is held and the player stands on two pickups; a third pickup
    is far away. *)
Definition twoPickupsUnderfoot : Game.t :=
  scene PLAYING holdingF (playerAtCentre 3 0) [] []
    [pickupAt 610 400 MG_AMMO; pickupAt 590 410 GRENADE;
     pickupAt 900 100 HEAL].

(** The player has fallen next to a heal pickup and an enemy; the game is
    over; the F key is held. *)
Definition fallenPlayerOnHealPickup : Game.t :=
  scene GAME_OVER holdingF (playerAtCentre 0 1)
    [enemyAt 610 400 5] [] [pickupAt 610 400 HEAL].

(** ** Weapon switch *)

(** What happens to the weapon-switch flag: a key goes down, the hand
    detector delivers a frame, or a PLAYING tick reaches the weapon part of
    [updatePlaying] (the edge test of the left pinch, then the consumer of
    the flag). *)
Inductive SwitchEvent : Type :=
| KeyDown (now : Q) (code : string)
| HandsSeen (frame : Frame)
| WeaponTick (now : Q).

Definition SwitchState : Type := KeyboardMouseProvider.t * Game.t.

Definition switchStep (ev : SwitchEvent) (st : SwitchState) : SwitchState :=
  let '(kb, g) := st in
  match ev with
  | KeyDown now code =>
      let '(kb', im') :=
        KeyboardMouseProvider.handleKeyDown now code kb (Game.inputManager g)
      in (kb', Game.set_inputManager im' g)
  | HandsSeen frame =>
      (kb,
       Game.set_gestureInput
         (GestureInputManager.onResults (fst frame) (snd frame)
            (Game.gestureInput g)) g)
  | WeaponTick now =>
      (kb, Game.handleWeaponSwitch now (Game.handleLeftPinch now g))
  end.

Definition switchRun (evs : list SwitchEvent) (st : SwitchState)
    : SwitchState :=
  fold_left (fun s ev => switchStep ev s) evs st.

Definition eventTime (ev : SwitchEvent) : option Q :=
  match ev with
  | KeyDown now _ => Some now
  | HandsSeen _ => None
  | WeaponTick now => Some now
  end.

(** The flag, the time of its last clear, and the cooldown. *)
Definition flagOf (st : SwitchState) : bool :=
  InputManager.getWeaponSwitch (Game.inputManager (snd st)).
Definition lastClearOf (st : SwitchState) : Q :=
  lastWeaponSwitchTime (InputManager.input (Game.inputManager (snd st))).
Definition cooldownOf (st : SwitchState) : Q :=
  weaponSwitchCooldown (InputManager.input (Game.inputManager (snd st))).

(** The event is a raise signal: the R key goes down, or a tick sees the
    left pinch active that was not active at the tick before. *)
Definition raisedBy (ev : SwitchEvent) (st : SwitchState) : bool :=
  match ev with
  | KeyDown _ code =>
      match KeyboardMouseProvider.keyMap !! code with
      | Some action => String.eqb action "switchWeapon"
      | None => false
      end
  | HandsSeen _ => false
  | WeaponTick _ =>
      GestureInputManager.isLeftPinchActive (Game.gestureInput (snd st))
      && negb (Game.prevLeftPinchActive (snd st))
  end.

(** The event applies a weapon toggle: a tick whose consumer finds the
    flag raised. *)
Definition toggledBy (ev : SwitchEvent) (st : SwitchState) : bool :=
  match ev with
  | WeaponTick now =>
      InputManager.getWeaponSwitch
        (Game.inputManager (Game.handleLeftPinch now (snd st)))
  | _ => false
  end.

Fixpoint toggles (evs : list SwitchEvent) (st : SwitchState) : nat :=
  match evs with
  | [] => 0
  | ev :: rest =>
      (if toggledBy ev st then 1 else 0) + toggles rest (switchStep ev st)
  end.

Fixpoint signals (evs : list SwitchEvent) (st : SwitchState) : nat :=
  match evs with
  | [] => 0
  | ev :: rest =>
      (if raisedBy ev st then 1 else 0) + signals rest (switchStep ev st)
  end.

(** Every timed event of the list falls into the window that opens at [t0]
    and is shorter than the cooldown. *)
Definition withinWindow (t0 cooldown : Q) (evs : list SwitchEvent) : Prop :=
  Forall (fun ev => forall now, eventTime ev = Some now ->
                                t0 <= now /\ now < t0 + cooldown) evs.

(** One if the flag is raised and waits for its consumer. *)
Definition pending (st : SwitchState) : nat := if flagOf st then 1 else 0.

(** The cooldown has elapsed at [now]. *)
Definition cooledDown (now : Q) (st : SwitchState) : bool :=
  Qle_bool (cooldownOf st) (now - lastClearOf st).

(** The R key goes down three times within 120 ms, with two ticks between
    the presses: the weapon moves on by one, from the pistol to the machine
    gun. *)
Definition threeQuickPresses : list SwitchEvent :=
  [KeyDown 1000 "KeyR"; KeyDown 1000.05 "KeyR"; WeaponTick 1000.06;
   KeyDown 1000.1 "KeyR"; WeaponTick 1000.12].

Definition switchStart : SwitchState :=
  (KeyboardMouseProvider.new,
   scene PLAYING KeyboardMouseProvider.new (playerAtCentre 3 0) [] [] []).

(** ** Utils, EventBus and the state machine *)

(** The real number a [Ratio] stands for. *)
Definition ratioValue (v : Ratio) : Rdefinitions.R :=
  match v with
  | Plain q => Rdefinitions.Q2R q
  | Over q r => Rdefinitions.Rdiv (Rdefinitions.Q2R q) (valueOf r)
  end.

(** The squared length of a vector of two ratios. *)
Definition squaredLength (v : Ratio * Ratio) : Rdefinitions.R :=
  Rdefinitions.Rplus
    (Rdefinitions.Rmult (ratioValue (fst v)) (ratioValue (fst v)))
    (Rdefinitions.Rmult (ratioValue (snd v)) (ratioValue (snd v))).

(** [callbacks] are registered for [event], one after the other. *)
Definition subscribe (event : string) (callbacks : list EventBus.Callback)
    (bus : EventBus.t) : EventBus.t :=
  fold_left (fun b callback => EventBus.on event callback b) callbacks bus.

(** [callback] is registered for [event]. *)
Definition registered (event : string) (callback : EventBus.Callback)
    (bus : EventBus.t) : Prop :=
  exists callbacks,
    EventBus.listeners bus !! event = Some callbacks /\ In callback callbacks.

(** The calls with [data] of a list of callbacks. *)
Definition callsOf {Data : Type} (data : Data)
    (callbacks : list EventBus.Callback) : list (EventBus.Callback * Data) :=
  map (fun callback => (callback, data)) callbacks.

(** A list of [setState] requests, one after the other. *)
Definition requestAll (requests : list GAME_STATES) (m : GameStateMachine.t)
    : GameStateMachine.t :=
  fold_left (fun m' s => GameStateMachine.setState s m') requests m.

(** What the requests announce on the bus, all calls in their order. *)
Fixpoint announced (requests : list GAME_STATES) (m : GameStateMachine.t)
    (bus : EventBus.t)
    : list (EventBus.Callback * (option GAME_STATES * GAME_STATES)) :=
  match requests with
  | [] => []
  | s :: rest =>
      (GameStateMachine.setState_emit s m bus
       ++ announced rest (GameStateMachine.setState s m) bus)%list
  end.

(** The changes of state that a list of requests amounts to, from the
    state [current]: a request for the state the machine is in is none. *)
Fixpoint changes (requests : list GAME_STATES) (current : GAME_STATES)
    : list (option GAME_STATES * GAME_STATES) :=
  match requests with
  | [] => []
  | s :: rest =>
      if GAME_STATES_eqb current s then changes rest current
      else (Some current, s) :: changes rest s
  end.

(** The calls of one subscriber, one for each of the data. *)
Definition callsOfEach {Data : Type} (subscriber : EventBus.Callback)
    (data : list Data) : list (EventBus.Callback * Data) :=
  map (fun d => (subscriber, d)) data.

(** ** Move vectors *)

(** The keys held are balanced: left with right, and up with down, or
    neither. *)
Definition balanced (this : KeyboardMouseProvider.t) : Prop :=
  ("left" ∈ KeyboardMouseProvider.keys this
   <-> "right" ∈ KeyboardMouseProvider.keys this)
  /\ ("up" ∈ KeyboardMouseProvider.keys this
      <-> "down" ∈ KeyboardMouseProvider.keys this).

(** A keyboard provider with the given actions held. *)
Definition holding (actions : list string) : KeyboardMouseProvider.t :=
  {| KeyboardMouseProvider.keys := list_to_set actions;
     KeyboardMouseProvider.mouseButtons := ∅ |}.

(** A game whose gesture input has been initialised; no key is held. *)
Definition gestureGame : Game.t :=
  Game.set_gestureInput
    {| GestureInputManager.initialized := true;
       GestureInputManager.leftHandPresent := false;
       GestureInputManager.gestureShootingActive := false;
       GestureInputManager.gestureAimSmoothed := None;
       GestureInputManager.gestureAimTargetGame := None;
       GestureInputManager.rightPinchActive := false;
       GestureInputManager.leftPinchActive := false |}
    (scene PLAYING KeyboardMouseProvider.new (playerAtCentre 3 0) [] [] []).

(** One detected hand with the given label and index fingertip. *)
Definition handAt (label : string) (tip : Vec2) : Results :=
  {| multiHandLandmarks := Some [replicate 8 {| vx := 0; vy := 0 |} ++ [tip]]%list;
     multiHandedness := Some [label] |}.

(** ** The provider registry *)

(** One call of [registerProvider]. *)
Record Registration : Type := {
  regName : string;
  regProvider : Provider.t;
  regIsFallback : bool
}.

Definition register (im : InputManager.t) (r : Registration)
    : InputManager.t :=
  InputManager.registerProvider (regName r) (regProvider r) (regIsFallback r)
    im.

Definition registerAll (rs : list Registration) (im : InputManager.t)
    : InputManager.t :=
  fold_left register rs im.

(** The provider of the last registration with the fallback flag, or
    [initially]. *)
Definition lastFallback (rs : list Registration)
    (initially : option Provider.t) : option Provider.t :=
  fold_left
    (fun fb r => if regIsFallback r then Some (regProvider r) else fb)
    rs initially.

(** The provider of the last registration under [name], or
    [initially]. *)
Definition lastUnder (name : string) (rs : list Registration)
    (initially : option Provider.t) : option Provider.t :=
  fold_left
    (fun p r => if String.eqb (regName r) name then Some (regProvider r)
                else p)
    rs initially.

(** The hook calls of activating [p], newest first. *)
Definition activation (p : Provider.t) : list HookCall :=
  if Provider.has_activate p then [Activated (Provider.oid p)] else [].

(** The hook calls of deactivating the active provider, if any. *)
Definition deactivation (active : option Provider.t) : list HookCall :=
  match active with
  | Some old =>
      if Provider.has_deactivate old then [Deactivated (Provider.oid old)]
      else []
  | None => []
  end.

(** ** Key events *)

(** What reaches the keyboard provider: the events of its listeners and
    the [update] of a tick in which it is the active provider. *)
Inductive KeyEvent : Type :=
| KeyPressed (now : Q) (code : string)
| KeyReleased (code : string)
| ButtonPressed (button : Z)
| ButtonReleased (button : Z)
| ProviderUpdate (deltaTime : Q).

Definition keyStep (s : KeyboardMouseProvider.t * InputManager.t)
    (e : KeyEvent) : KeyboardMouseProvider.t * InputManager.t :=
  let '(kb, im) := s in
  match e with
  | KeyPressed now code => KeyboardMouseProvider.handleKeyDown now code kb im
  | KeyReleased code => KeyboardMouseProvider.handleKeyUp code kb im
  | ButtonPressed button => (KeyboardMouseProvider.handleMouseDown button kb, im)
  | ButtonReleased button => (KeyboardMouseProvider.handleMouseUp button kb, im)
  | ProviderUpdate deltaTime =>
      (kb,
       InputManager.set_input
         (KeyboardMouseProvider.update kb deltaTime (InputManager.input im))
         im)
  end.

Definition keyRun (es : list KeyEvent)
    (s : KeyboardMouseProvider.t * InputManager.t)
    : KeyboardMouseProvider.t * InputManager.t :=
  fold_left keyStep es s.

(** The actions that the provider keeps in [keys]. *)
Definition heldActions : list string :=
  ["up"; "down"; "left"; "right"; "pickup"].

(** Whether the last event of a key bound to [action] was a key-down;
    [initially] when there is no such event. *)
Fixpoint lastWasDown (action : string) (es : list KeyEvent)
    (initially : bool) : bool :=
  match es with
  | [] => initially
  | KeyPressed _ code :: rest =>
      lastWasDown action rest
        (if bool_decide (KeyboardMouseProvider.keyMap !! code = Some action)
         then true else initially)
  | KeyReleased code :: rest =>
      lastWasDown action rest
        (if bool_decide (KeyboardMouseProvider.keyMap !! code = Some action)
         then false else initially)
  | _ :: rest => lastWasDown action rest initially
  end.

(** ** Hand frames *)

(** One delivery of the hand detector: the results and the overlay. *)
Definition HandFrame : Type :=
  (Results * option (Vec2 -> option (Q * Q)))%type.

Definition handRun (frames : list HandFrame) (this : GestureInputManager.t)
    : GestureInputManager.t :=
  fold_left
    (fun gi frame =>
       GestureInputManager.onResults (fst frame) (snd frame) gi)
    frames this.

(** The aim target is the rounded smoothed point whenever gesture shooting
    is active. *)
Definition aimConsistent (this : GestureInputManager.t) : Prop :=
  GestureInputManager.gestureShootingActive this = true ->
  exists p : Vec2,
    GestureInputManager.gestureAimSmoothed this = Some p
    /\ GestureInputManager.gestureAimTargetGame this
       = Some (Math_round (vx p), Math_round (vy p)).

(** No hand is detected. *)
Definition emptyFrame : Results :=
  {| multiHandLandmarks := Some []; multiHandedness := Some [] |}.

(** ** The pistol's interval between shots *)

(** What main.js does to the pistol's interval: the operations that read or
    write it. *)
Inductive PistolOp : Type :=
| ToggleCreatorMode
| PickUp (type : PickupType)
| HasteCountdown (deltaTime : Q)
| Collisions
| Restart.

Definition pistolStep (gp : Game.Gameplay) (g : Game.t) (op : PistolOp)
    : Game.t :=
  match op with
  | ToggleCreatorMode => Game.toggleCreatorMode g
  | PickUp type => Game.applyPickupEffect type g
  | HasteCountdown deltaTime => Game.updatePistolHaste deltaTime g
  | Collisions => Game.handleCollisions g
  | Restart => Game.restart gp g
  end.

Definition pistolRun (gp : Game.Gameplay) (ops : list PistolOp) (g : Game.t)
    : Game.t :=
  fold_left (pistolStep gp) ops g.

(** The fields that decide the pistol's interval. *)
Definition pistolState (g : Game.t)
    : Q * option Q * option Q * bool * bool :=
  (pistol_fireRate (Game.weapons g), Game.pistolBaseFireRate g,
   Game.originalPistolFireRate g, Game.pistolHasteActive g,
   Game.creatorMode g).

(** The interval is the base interval, divided by three under haste; the
    base is the pistol's own interval [o] or a fifth of it. *)
Definition pistolConsistent (o : Q) (g : Game.t) : Prop :=
  Game.originalPistolFireRate g = Some o
  /\ (Game.pistolBaseFireRate g = Some o
      \/ Game.pistolBaseFireRate g = Some (o / 5))
  /\ exists base : Q,
       Game.pistolBaseFireRate g = Some base
       /\ pistol_fireRate (Game.weapons g)
          = base / (if Game.pistolHasteActive g then 3 else 1).

(** The base interval is the one that the creator-mode flag asks for. *)
Definition creatorModeInForce (o : Q) (g : Game.t) : Prop :=
  Game.pistolBaseFireRate g
  = Some (if Game.creatorMode g then o / 5 else o).

(** A gameplay whose pistol fires every 0.3 seconds. *)
Definition sampleGameplay : Game.Gameplay :=
  {| Game.player_update := fun _ g => g;
     Game.player_fire := fun _ _ g => g;
     Game.spawnEnemy := fun g => g;
     Game.spawnPickup := fun g => g;
     Game.enemies_update := fun _ g => g;
     Game.projectiles_update := fun _ g => g;
     Game.weapons_update := fun _ g => g;
     Game.newPlayer := playerAtCentre 3 0;
     Game.newWeapons :=
       {| pistol_fireRate := 0.3; machine_gun_currentAmmo := 0;
          grenade_currentAmmo := 0 |} |}.

(** ** Damage in one collision pass *)

(** The damage that the player's projectiles of [ps] deal to enemy [e] in
    one pass: every one that overlaps the enemy counts. *)
Definition damageTaken (e : Enemy.t) (ps : list Projectile.t) : Q :=
  fold_right
    (fun p total =>
       (if Projectile.ownedByPlayer p
           && CollisionSystem.checkCircleCollision p e
        then Projectile.damage p else 0) + total)
    0 ps.

(** Enemy [e'] is enemy [e] where it was, with the damage of one pass of
    the projectiles [ps] taken off its hp. *)
Definition damagedBy (ps : list Projectile.t) (e e' : Enemy.t) : Prop :=
  Enemy.x e' = Enemy.x e /\ Enemy.y e' = Enemy.y e
  /\ Enemy.radius e' = Enemy.radius e /\ Enemy.damage e' = Enemy.damage e
  /\ Enemy.hp e' == Enemy.hp e - damageTaken e ps.

(** Projectile [q'] is projectile [q], as it was or destroyed. *)
Definition sameOrSpent (q q' : Projectile.t) : Prop :=
  q' = q \/ q' = Projectile.kill q.

(** A shooter's bullet of the given damage. *)
Definition enemyShot (x y damage : Q) : Projectile.t :=
  {| Projectile.x := x; Projectile.y := y; Projectile.radius := 4;
     Projectile.damage := damage; Projectile.owner := Some "shooter";
     Projectile.alive := true |}.

(** The player between two enemies that touch it, under a shooter's
    bullet. *)
Definition playerBeset : Game.t :=
  scene PLAYING KeyboardMouseProvider.new (playerAtCentre 3 0)
    [enemyAt 610 400 5; enemyAt 590 400 5] [enemyShot 600 405 2] [].

(** ** Spawning *)

(** Every draw of [Math.random()] lies in [[0, 1)]. *)
Definition fairDraws (random : nat -> Q) : Prop :=
  forall k : nat, 0 <= random k /\ random k < 1.

(** The point lies on the frame around the arena on which enemies appear,
    [margin] outside of it. *)
Definition onSpawnFrame (x y : Q) : Prop :=
  ((y == - GameSpawn.margin \/ y == ARENA_HEIGHT + GameSpawn.margin)
   /\ GameSpawn.margin <= x /\ x < ARENA_WIDTH - GameSpawn.margin)
  \/ ((x == - GameSpawn.margin \/ x == ARENA_WIDTH + GameSpawn.margin)
      /\ GameSpawn.margin <= y /\ y < ARENA_HEIGHT - GameSpawn.margin).

(** The point of the try of [spawnPickup] that draws [random k] and
    [random (k + 1)]. *)
Definition tryPoint (random : nat -> Q) (k : nat) : Q * Q :=
  (Utils.randomRange (random k) PICKUP_RADIUS (ARENA_WIDTH - PICKUP_RADIUS),
   Utils.randomRange (random (S k)) PICKUP_RADIUS
                     (ARENA_HEIGHT - PICKUP_RADIUS)).

(** The point is nearer to the player than [PICKUP_SAFE_DISTANCE]. *)
Definition nearPlayer (player : Player.t) (point : Q * Q) : bool :=
  root_lt_num
    (Utils.distance (fst point) (snd point)
                    (Player.x player) (Player.y player))
    PICKUP_SAFE_DISTANCE.

(** Every draw is one half. *)
Definition halves : nat -> Q := fun _ => 1 # 2.

(** ** Collision information *)

(** The real number a [LessRoot] stands for. *)
Definition differenceValue (d : CollisionSystem.LessRoot) : Rdefinitions.R :=
  Rdefinitions.Rminus (Rdefinitions.Q2R (CollisionSystem.minuend d))
    (valueOf (CollisionSystem.subtrahend d)).

(** ** Frames of the game loop *)




(** ** Creator mode toggles *)

(** What happens to the creator-mode flag: a key goes down, or a PLAYING
    tick reaches the consumer of the flag; each with its clock reading. *)
Inductive CreatorEvent : Type :=
| CreatorKey (now : Q) (code : string)
| CreatorTick (now : Q).

Definition creatorTime (ev : CreatorEvent) : Q :=
  match ev with
  | CreatorKey now _ => now
  | CreatorTick now => now
  end.

Definition creatorStep (st : KeyboardMouseProvider.t * Game.t)
    (ev : CreatorEvent) : KeyboardMouseProvider.t * Game.t :=
  let '(kb, g) := st in
  match ev with
  | CreatorKey now code =>
      let '(kb', im') :=
        KeyboardMouseProvider.handleKeyDown now code kb
          (Game.inputManager g) in
      (kb', Game.set_inputManager im' g)
  | CreatorTick now => (kb, Game.handleCreatorModeToggle now g)
  end.

Definition creatorRun (evs : list CreatorEvent)
    (st : KeyboardMouseProvider.t * Game.t)
    : KeyboardMouseProvider.t * Game.t :=
  fold_left creatorStep evs st.

(** The creator-mode flag of the input, the time of its last clearing and
    its cooldown. *)
Definition creatorFlag (st : KeyboardMouseProvider.t * Game.t) : bool :=
  InputManager.getCreatorModeToggle (Game.inputManager (snd st)).

Definition creatorLast (st : KeyboardMouseProvider.t * Game.t) : Q :=
  lastCreatorModeToggleTime (InputManager.input (Game.inputManager (snd st))).

Definition creatorCooldown (st : KeyboardMouseProvider.t * Game.t) : Q :=
  creatorModeToggleCooldown (InputManager.input (Game.inputManager (snd st))).

(** The clock readings of the ticks that toggle creator mode. *)
Fixpoint creatorToggleTimes (evs : list CreatorEvent)
    (st : KeyboardMouseProvider.t * Game.t) : list Q :=
  match evs with
  | [] => []
  | ev :: rest =>
      (match ev with
       | CreatorTick now => if creatorFlag st then [now] else []
       | CreatorKey _ _ => []
       end ++ creatorToggleTimes rest (creatorStep st ev))%list
  end.

(** The readings do not go down, from [lo] on. *)
Fixpoint ascendingFrom (lo : Q) (ts : list Q) : Prop :=
  match ts with
  | [] => True
  | t :: rest => lo <= t /\ ascendingFrom t rest
  end.

(** Each reading is at least [gap] after the one before it, the first one
    after [last]. *)
Fixpoint spacedFrom (gap last : Q) (ts : list Q) : Prop :=
  match ts with
  | [] => True
  | t :: rest => gap <= t - last /\ spacedFrom gap t rest
  end.

(** G is pressed over and over, with ticks in between. *)
Definition hammeringG : list CreatorEvent :=
  [CreatorKey 1000 "KeyG"; CreatorTick 1000.01; CreatorKey 1000.05 "KeyG";
   CreatorTick 1000.06; CreatorKey 1000.3 "KeyG"; CreatorTick 1000.31].

(** ** The HUD *)

(** Every haste countdown of the list runs over a time that is not
    negative. *)
Definition forwardInTime (ops : list PistolOp) : Prop :=
  Forall (fun op => match op with
                    | HasteCountdown deltaTime => 0 <= deltaTime
                    | _ => True
                    end) ops.

(** While haste is active there is time left, ten seconds at most. *)
Definition hasteInRange (g : Game.t) : Prop :=
  Game.pistolHasteActive g = true ->
  0 < Game.pistolHasteRemaining g /\ Game.pistolHasteRemaining g <= 10.

(** A player with the given hp out of 3. *)
Definition sceneWithHp (hp : Q) : Game.t :=
  scene PLAYING KeyboardMouseProvider.new (playerAtCentre hp 0) [] [] [].

(** * Properties *)

(** ** Comparisons of numbers *)

Lemma Qltb_true (a b : Q) : Qltb a b = true <-> a < b.
Proof.
  unfold Qltb. rewrite negb_true_iff, <- not_true_iff_false, Qle_bool_iff.
  split; [apply Qnot_le_lt | apply Qlt_not_le].
Qed.

Lemma Qltb_false (a b : Q) : Qltb a b = false <-> b <= a.
Proof.
  unfold Qltb. rewrite negb_false_iff, Qle_bool_iff. reflexivity.
Qed.

Lemma Qle_bool_false (a b : Q) : Qle_bool a b = false <-> b < a.
Proof.
  rewrite <- not_true_iff_false, Qle_bool_iff.
  split; [apply Qnot_le_lt | apply Qlt_not_le].
Qed.

Lemma Math_max_le_l (a b : Q) : a <= Math_max a b.
Proof.
  unfold Math_max. destruct (Qle_bool a b) eqn:E.
  - apply Qle_bool_iff in E. exact E.
  - apply Qle_refl.
Qed.

Lemma Math_max_le_r (a b : Q) : b <= Math_max a b.
Proof.
  unfold Math_max. destruct (Qle_bool a b) eqn:E.
  - apply Qle_refl.
  - apply Qle_bool_false in E. apply Qlt_le_weak. exact E.
Qed.

Lemma Math_max_cases (a b : Q) :
  (a <= b /\ Math_max a b = b) \/ (b < a /\ Math_max a b = a).
Proof.
  unfold Math_max. destruct (Qle_bool a b) eqn:E.
  - left. apply Qle_bool_iff in E. auto.
  - right. apply Qle_bool_false in E. auto.
Qed.

Lemma Math_min_cases (a b : Q) :
  (a <= b /\ Math_min a b = a) \/ (b < a /\ Math_min a b = b).
Proof.
  unfold Math_min. destruct (Qle_bool a b) eqn:E.
  - left. apply Qle_bool_iff in E. auto.
  - right. apply Qle_bool_false in E. auto.
Qed.

(** [clamp] stays within its bounds and is the identity between them. *)
Lemma clamp_bounds (v lo hi : Q) :
  lo <= hi -> lo <= Utils.clamp v lo hi /\ Utils.clamp v lo hi <= hi.
Proof.
  intros Hb. unfold Utils.clamp.
  destruct (Math_max_cases v lo) as [[H1 ->] | [H1 ->]];
    destruct (Math_min_cases lo hi) as [[H2 E2] | [H2 E2]];
    destruct (Math_min_cases v hi) as [[H3 E3] | [H3 E3]];
    rewrite ?E2, ?E3; split; lra.
Qed.

Lemma clamp_inside (v lo hi : Q) :
  lo <= v -> v <= hi -> Utils.clamp v lo hi == v.
Proof.
  intros H1 H2. unfold Utils.clamp.
  destruct (Math_max_cases v lo) as [[H3 E] | [H3 E]]; rewrite E.
  - destruct (Math_min_cases lo hi) as [[H4 E'] | [H4 E']]; rewrite E'; lra.
  - destruct (Math_min_cases v hi) as [[H4 E'] | [H4 E']]; rewrite E'; lra.
Qed.

(** [Math.round] returns the integer within one half of its argument. *)
Lemma Math_round_near (a : Q) :
  a - (1 # 2) < inject_Z (Math_round a) /\ inject_Z (Math_round a) <= a + (1 # 2).
Proof.
  unfold Math_round. split.
  - pose proof (Qlt_floor (a + (1 # 2))) as H.
    rewrite inject_Z_plus in H. change (inject_Z 1) with 1 in H. lra.
  - apply Qfloor_le.
Qed.

(** ** Roots and real square roots

    The comparisons on [Root] are the comparisons of the real square roots:
    for a radicand that is not negative, as every sum of two squares is,
    each boolean test holds exactly when the inequality of real numbers
    does. *)

Section RealRoots.

Import Reals Qreals.
Local Open Scope R_scope.

Lemma root_lt_num_sound (r : Root) (t : Q) :
  (0 <= radicand r)%Q ->
  root_lt_num r t = true <-> valueOf r < Q2R t.
Proof.
  intros Hpos. apply Qle_Rle in Hpos. rewrite RMicromega.Q2R_0 in Hpos.
  unfold root_lt_num, valueOf.
  rewrite andb_true_iff, !Qltb_true. split.
  - intros [Ht Hlt]. apply Qlt_Rlt in Ht, Hlt.
    rewrite RMicromega.Q2R_0 in Ht. rewrite Q2R_mult in Hlt.
    rewrite <- (sqrt_square (Q2R t)) by Lra.lra.
    apply sqrt_lt_1_alt. split; assumption.
  - intros Hlt. pose proof (sqrt_pos (Q2R (radicand r))) as H0.
    assert (Ht : 0 < Q2R t) by Lra.lra. split.
    + apply Rlt_Qlt. rewrite RMicromega.Q2R_0. exact Ht.
    + apply Rlt_Qlt. rewrite Q2R_mult.
      rewrite <- (sqrt_sqrt (Q2R (radicand r))) by exact Hpos.
      apply Rmult_le_0_lt_compat; assumption.
Qed.

Lemma root_gt_num_sound (r : Root) (t : Q) :
  (0 <= radicand r)%Q ->
  root_gt_num r t = true <-> Q2R t < valueOf r.
Proof.
  intros Hpos. apply Qle_Rle in Hpos. rewrite RMicromega.Q2R_0 in Hpos.
  unfold root_gt_num, valueOf.
  pose proof (sqrt_pos (Q2R (radicand r))) as H0.
  rewrite orb_true_iff, !Qltb_true. split.
  - intros [Hneg | Hlt].
    + apply Qlt_Rlt in Hneg. rewrite RMicromega.Q2R_0 in Hneg. Lra.lra.
    + apply Qlt_Rlt in Hlt. rewrite Q2R_mult in Hlt.
      destruct (Rlt_le_dec (Q2R t) 0) as [Hneg | Hnn]; [Lra.lra |].
      rewrite <- (sqrt_square (Q2R t)) by exact Hnn.
      apply sqrt_lt_1_alt. split; [| exact Hlt].
      apply Rmult_le_pos; exact Hnn.
  - intros Hlt.
    destruct (Rlt_le_dec (Q2R t) 0) as [Hneg | Hnn].
    + left. apply Rlt_Qlt. rewrite RMicromega.Q2R_0. exact Hneg.
    + right. apply Rlt_Qlt. rewrite Q2R_mult.
      rewrite <- (sqrt_sqrt (Q2R (radicand r))) by exact Hpos.
      apply Rmult_le_0_lt_compat; assumption.
Qed.

Lemma root_lt_root_sound (r1 r2 : Root) :
  (0 <= radicand r1)%Q ->
  root_lt_root r1 r2 = true <-> valueOf r1 < valueOf r2.
Proof.
  intros Hpos. apply Qle_Rle in Hpos. rewrite RMicromega.Q2R_0 in Hpos.
  unfold root_lt_root, valueOf. rewrite Qltb_true. split.
  - intros Hlt. apply Qlt_Rlt in Hlt. apply sqrt_lt_1_alt. split; assumption.
  - intros Hlt. apply Rlt_Qlt. apply sqrt_lt_0_alt. exact Hlt.
Qed.

End RealRoots.

Lemma hypot_radicand_nonneg (a b : Q) : 0 <= radicand (Math_hypot a b).
Proof. cbn [radicand Math_hypot]. nra. Qed.

(** Property X3.  Two circles collide exactly when the real distance of
    their centres is below the sum of the radii and the epsilon. *)
Lemma checkCircleCollision_sound {A B : Type} `{Circle A} `{Circle B}
    (obj1 : A) (obj2 : B) :
  CollisionSystem.checkCircleCollision obj1 obj2 = true
  <-> Rdefinitions.Rlt
        (valueOf (Math_hypot (circle_x obj2 - circle_x obj1)
                             (circle_y obj2 - circle_y obj1)))
        (Rdefinitions.Q2R (circle_radius obj1 + circle_radius obj2
                     + COLLISION_EPSILON)).
Proof.
  unfold CollisionSystem.checkCircleCollision.
  apply (root_lt_num_sound (Math_hypot _ _)). apply hypot_radicand_nonneg.
Qed.

(** ** Pinch hysteresis *)

(** [onResults] judges each hand by [pinch] on the tips of that hand. *)
Lemma onResults_pinchActive (side : Side) (results : Results)
    (region : option (Vec2 -> option (Q * Q))) (this : GestureInputManager.t) :
  pinchActive side (GestureInputManager.onResults results region this)
  = GestureInputManager.pinch (pinchActive side this)
      (onThreshold side) (offThreshold side)
      (fst (tips side results)) (snd (tips side results)).
Proof.
  unfold GestureInputManager.onResults, tips.
  destruct region as [toArena |]; cbn [GestureInputManager.leftHandPresent].
  - destruct (GestureInputManager.leftSeen _).
    + destruct (GestureInputManager.leftFingerTip _) as [tip |] eqn:Etip.
      * destruct (toArena tip) as [[rawX rawY] |];
          destruct side; cbn; rewrite ?Etip; reflexivity.
      * destruct side; cbn; rewrite ?Etip; reflexivity.
    + destruct side; reflexivity.
  - destruct side; reflexivity.
Qed.

Lemma pinch_distance_step (side : Side) (results : Results) (d : Root)
    (active : bool) :
  pinchDistance side results = Some d ->
  GestureInputManager.pinch active (onThreshold side) (offThreshold side)
    (fst (tips side results)) (snd (tips side results))
  = if active
    then negb (root_gt_num d (offThreshold side))
    else root_lt_num d (onThreshold side).
Proof.
  unfold pinchDistance. destruct (tips side results) as [[finger |] [thumb |]];
    intros [= <-]; cbn [fst snd GestureInputManager.pinch].
  destruct active.
  - destruct (root_gt_num _ _); reflexivity.
  - destruct (root_lt_num _ _); reflexivity.
Qed.

Lemma feed_app (this : GestureInputManager.t) (xs ys : list Frame) :
  feed this (xs ++ ys) = feed (feed this xs) ys.
Proof. apply fold_left_app. Qed.

(** Once active, the pinch stays active over frames that hold the hand
    within the exit threshold. *)
Lemma pinch_stays_active (side : Side) (frames : list Frame) :
  forall this,
    pinchActive side this = true ->
    Forall (heldWithinExit side) frames ->
    pinchActive side (feed this frames) = true.
Proof.
  induction frames as [| f frames IH]; intros this Hact Hall.
  - exact Hact.
  - inversion Hall as [| ? ? [d [Hd Hoff]] Hrest]; subst.
    cbn [feed fold_left]. apply IH; [| exact Hrest].
    rewrite onResults_pinchActive, (pinch_distance_step _ _ d _ Hd), Hact, Hoff.
    reflexivity.
Qed.

(** Claim C4.  Take any sequence of frames in which the hand is present in
    every frame and its fingertip-thumb distance never rises above the exit
    threshold.  If in some frame the distance is below the enter threshold,
    the pinch of that hand is active after that frame and after every later
    frame of the sequence.  The enter threshold is below the exit threshold
    for both hands.  A pinch that is active turns inactive in a frame only
    if the distance is above the exit threshold or a landmark of the hand
    is absent.  This holds for the left and for the right hand. *)
Theorem pinch_hysteresis (side : Side) :
  onThreshold side < offThreshold side
  /\ (forall (this : GestureInputManager.t) (before later : list Frame)
             (f : Frame),
        Forall (heldWithinExit side) (before ++ f :: later) ->
        belowEnter side f ->
        pinchActive side (feed this (before ++ f :: later)) = true)
  /\ (forall (this : GestureInputManager.t) (f : Frame),
        pinchActive side this = true ->
        pinchActive side (feed this [f]) = false ->
        pinchDistance side (fst f) = None
        \/ exists d, pinchDistance side (fst f) = Some d
                     /\ root_gt_num d (offThreshold side) = true).
Proof.
  split; [destruct side; reflexivity |]. split.
  - intros this before later f Hall [d [Hd Hon]].
    apply Forall_app in Hall as [_ Hall].
    inversion Hall as [| ? ? [d' [Hd' Hoff]] Hlater]; subst.
    rewrite Hd in Hd'. injection Hd' as <-.
    rewrite feed_app. cbn [feed fold_left].
    apply pinch_stays_active; [| exact Hlater].
    rewrite onResults_pinchActive, (pinch_distance_step _ _ d _ Hd), Hon, Hoff.
    destruct (pinchActive side _); reflexivity.
  - intros this f Hact Hoff. cbn [feed fold_left] in Hoff.
    rewrite onResults_pinchActive in Hoff.
    destruct (pinchDistance side (fst f)) as [d |] eqn:Hd; [| left; reflexivity].
    right. exists d. split; [reflexivity |].
    rewrite (pinch_distance_step _ _ d _ Hd), Hact in Hoff.
    apply negb_false_iff in Hoff. exact Hoff.
Qed.

(** Distance 0.03 enters the pinch and distance 0.05 keeps it. *)
Lemma pinch_hysteresis_witness :
  pinchActive RightHand
    (feed GestureInputManager.new
       ([] ++ rightHandFrame 0.53 :: [rightHandFrame 0.55])) = true.
Proof.
  apply (proj1 (proj2 (pinch_hysteresis RightHand))).
  - repeat constructor;
      (eexists; split; [vm_compute; reflexivity | vm_compute; reflexivity]).
  - eexists; split; [vm_compute; reflexivity | vm_compute; reflexivity].
Defined.

(** ** Aim smoothing *)

(** A left fingertip is only ever taken from a hand labelled "Left". *)
Lemma scanHand_leftSeen (hands : list (list Vec2 * string)) :
  forall h : GestureInputManager.Hands,
    (GestureInputManager.leftFingerTip h <> None ->
     GestureInputManager.leftSeen h = true) ->
    GestureInputManager.leftFingerTip
      (fold_left GestureInputManager.scanHand hands h) <> None ->
    GestureInputManager.leftSeen
      (fold_left GestureInputManager.scanHand hands h) = true.
Proof.
  induction hands as [| [landmarks handedness] hands IH]; intros h Hh.
  - exact Hh.
  - cbn [fold_left]. apply IH. unfold GestureInputManager.scanHand.
    destruct (String.eqb handedness "Left"); [reflexivity |].
    destruct (String.eqb handedness "Right"); exact Hh.
Qed.

Lemma scanHands_leftSeen (results : Results) (tip : Vec2) :
  GestureInputManager.leftFingerTip (GestureInputManager.scanHands results)
  = Some tip ->
  GestureInputManager.leftSeen (GestureInputManager.scanHands results) = true.
Proof.
  intros Htip. unfold GestureInputManager.scanHands in *.
  destruct (multiHandLandmarks results) as [[| hand others] |];
    try discriminate Htip.
  apply scanHand_leftSeen.
  - intros H. contradict H. reflexivity.
  - rewrite Htip. discriminate.
Qed.

(** [onResults] runs the smoothing step when the overlay is there and the
    left index fingertip maps into the aiming region. *)
Lemma onResults_runs_smoothAim (results : Results)
    (toArena : Vec2 -> option (Q * Q)) (tip : Vec2) (rawX rawY : Q)
    (this : GestureInputManager.t) :
  GestureInputManager.leftFingerTip (GestureInputManager.scanHands results)
  = Some tip ->
  toArena tip = Some (rawX, rawY) ->
  exists this1 : GestureInputManager.t,
    GestureInputManager.gestureAimSmoothed this1
    = GestureInputManager.gestureAimSmoothed this
    /\ GestureInputManager.onResults results (Some toArena) this
       = GestureInputManager.smoothAim rawX rawY this1.
Proof.
  intros Htip Hraw. unfold GestureInputManager.onResults.
  cbn [GestureInputManager.leftHandPresent].
  rewrite (scanHands_leftSeen _ _ Htip), Htip, Hraw.
  eexists. split; [| reflexivity]. reflexivity.
Qed.

Lemma smoothAim_step (rawX rawY : Q) (prev : Vec2)
    (this : GestureInputManager.t) :
  GestureInputManager.gestureAimSmoothed this = Some prev ->
  smoothedFrom rawX rawY prev (GestureInputManager.smoothAim rawX rawY this).
Proof.
  intros Hprev. unfold smoothedFrom.
  split; [reflexivity |]. split; [reflexivity |].
  unfold GestureInputManager.smoothAim. rewrite Hprev.
  cbn [GestureInputManager.gestureAimSmoothed
       GestureInputManager.gestureAimTargetGame
       GestureInputManager.gestureShootingActive].
  set (dx := rawX - vx prev). set (dy := rawY - vy prev).
  eexists. split; [reflexivity |].
  assert (Hstep : - GestureInputManager.aimMaxStepPx
                  <= GestureInputManager.aimMaxStepPx)
    by (vm_compute; discriminate).
  destruct (root_lt_num (Math_hypot dx dy) GestureInputManager.aimDeadzonePx)
    eqn:Hdead.
  - split; [reflexivity |]. split; [discriminate |]. split; [| reflexivity].
    do 2 eexists. split; [reflexivity |].
    split; [reflexivity |]. split; [reflexivity |].
    split; apply Math_round_near.
  - split; [discriminate |]. split.
    + intros _. split; [reflexivity |].
      cbn [vx vy].
      split; [ring |]. split; [ring |].
      split; [apply clamp_bounds; exact Hstep |].
      split; [apply clamp_bounds; exact Hstep |].
      split; intros [? ?]; apply clamp_inside; assumption.
    + split; [| reflexivity].
      do 2 eexists. split; [reflexivity |].
      split; [reflexivity |]. split; [reflexivity |].
      split; apply Math_round_near.
Qed.

(** Claim C5.  [onResults] runs the smoothing step when the left index
    fingertip maps into the aiming region, to a raw aim point.  When the
    step runs and there is a last smoothed point [prev]:
    - if the distance of the raw point from [prev] is below the deadzone of
      6 pixels, the smoothed point stays [prev], unchanged;
    - otherwise each coordinate of the delta is clamped to the maximum step
      of 10000 pixels, added to [prev], and blended with [prev] by the
      moving average of weight alpha = 0.4, which lies strictly between 0
      and 1; the new point is [prev] moved by alpha times the clamped delta,
      and the clamped delta is the delta itself when that is within the
      maximum step;
    - in both cases the published aim target is the smoothed point with
      each coordinate rounded to the nearest integer, and gesture shooting
      is reported active. *)
Theorem aim_smoothing (results : Results)
    (toArena : Vec2 -> option (Q * Q)) (tip : Vec2) (rawX rawY : Q)
    (prev : Vec2) (this : GestureInputManager.t) :
  GestureInputManager.leftFingerTip (GestureInputManager.scanHands results)
  = Some tip ->
  toArena tip = Some (rawX, rawY) ->
  GestureInputManager.gestureAimSmoothed this = Some prev ->
  let this' := GestureInputManager.onResults results (Some toArena) this in
  let alpha := GestureInputManager.aimSmoothingAlpha in
  let maxStep := GestureInputManager.aimMaxStepPx in
  let dx := rawX - vx prev in
  let dy := rawY - vy prev in
  0 < alpha /\ alpha < 1
  /\ exists smoothed : Vec2,
       GestureInputManager.gestureAimSmoothed this' = Some smoothed
       /\ (root_lt_num (Math_hypot dx dy) GestureInputManager.aimDeadzonePx
           = true ->
           smoothed = prev)
       /\ (root_lt_num (Math_hypot dx dy) GestureInputManager.aimDeadzonePx
           = false ->
           let cx := Utils.clamp dx (- maxStep) maxStep in
           let cy := Utils.clamp dy (- maxStep) maxStep in
           smoothed = {| vx := vx prev * (1 - alpha) + (vx prev + cx) * alpha;
                         vy := vy prev * (1 - alpha) + (vy prev + cy) * alpha |}
           /\ vx smoothed == vx prev + alpha * cx
           /\ vy smoothed == vy prev + alpha * cy
           /\ - maxStep <= cx <= maxStep /\ - maxStep <= cy <= maxStep
           /\ (- maxStep <= dx <= maxStep -> cx == dx)
           /\ (- maxStep <= dy <= maxStep -> cy == dy))
       /\ (exists tx ty : Z,
             GestureInputManager.gestureAimTargetGame this' = Some (tx, ty)
             /\ tx = Math_round (vx smoothed) /\ ty = Math_round (vy smoothed)
             /\ vx smoothed - (1 # 2) < inject_Z tx <= vx smoothed + (1 # 2)
             /\ vy smoothed - (1 # 2) < inject_Z ty <= vy smoothed + (1 # 2))
       /\ GestureInputManager.gestureShootingActive this' = true.
Proof.
  intros Htip Hraw Hprev this'.
  destruct (onResults_runs_smoothAim results toArena tip rawX rawY this
              Htip Hraw) as [this1 [Hsame Hrun]].
  subst this'. rewrite Hrun. apply smoothAim_step. congruence.
Qed.

(** The fingertip moves from the centre to the raw point (300, 200), which
    is outside the deadzone. *)
Lemma aim_smoothing_witness :
  smoothedFrom ((1 - 0.75) * ARENA_WIDTH) (0.25 * ARENA_HEIGHT)
    {| vx := 600; vy := 400 |}
    (GestureInputManager.onResults (leftHandResults 0.75 0.25)
       (Some wholeImage) aimingAtCentre).
Proof.
  exact (aim_smoothing (leftHandResults 0.75 0.25) wholeImage
           {| vx := 0.75; vy := 0.25 |}
           ((1 - 0.75) * ARENA_WIDTH) (0.25 * ARENA_HEIGHT)
           {| vx := 600; vy := 400 |} aimingAtCentre
           eq_refl eq_refl eq_refl).
Defined.

(** There the smoothed point moves four tenths of the way, to (480, 320). *)
Example aim_smoothing_example :
  GestureInputManager.gestureAimTargetGame
    (GestureInputManager.onResults (leftHandResults 0.75 0.25)
       (Some wholeImage) aimingAtCentre)
  = Some (480%Z, 320%Z).
Proof. vm_compute. reflexivity. Qed.

(** ** Provider faults *)






(** ** Pistol haste *)

Lemma Qdiv_1_r_eq (a : Q) : a / 1 = a.
Proof.
  destruct a as [n d]. unfold Qdiv, Qmult, Qinv. cbn [Qnum Qden].
  rewrite Z.mul_1_r, Pos.mul_1_r. reflexivity.
Qed.







(** ** Collisions: projectiles and enemies *)

(** The inner loop tests every enemy against the projectile, whatever the
    projectile's alive flag is and has become. *)
Lemma projectileVsEnemies_enemies (es : list Enemy.t) :
  forall (p : Projectile.t) (kills : Z),
    snd (fst (Game.projectileVsEnemies p es kills)) = map (hitBy p) es.
Proof.
  induction es as [| e es IH]; intros p kills; [reflexivity |].
  cbn [Game.projectileVsEnemies map]. unfold hitBy at 1.
  destruct (CollisionSystem.checkCircleCollision p e).
  - specialize (IH (Projectile.kill p)
                   (if negb (Enemy.isAlive
                               (Enemy.takeDamage (Projectile.damage p) e))
                    then (kills + 1)%Z else kills)).
    destruct (Game.projectileVsEnemies (Projectile.kill p) es _)
      as [[p' rest'] k']. cbn [fst snd] in *. rewrite IH. reflexivity.
  - specialize (IH p kills).
    destruct (Game.projectileVsEnemies p es kills) as [[p' rest'] k'].
    cbn [fst snd] in *. rewrite IH. reflexivity.
Qed.

(** The projectile is spent as soon as it has hit one enemy. *)
Lemma projectileVsEnemies_spent (es : list Enemy.t) :
  forall (p : Projectile.t) (kills : Z),
    Exists (fun e => CollisionSystem.checkCircleCollision p e = true) es ->
    Projectile.alive (fst (fst (Game.projectileVsEnemies p es kills))) = false.
Proof.
  assert (Hdead : forall es p kills,
             Projectile.alive p = false ->
             Projectile.alive (fst (fst (Game.projectileVsEnemies p es kills)))
             = false).
  { clear es. induction es as [| e es IH]; intros p kills Hp; [exact Hp |].
    cbn [Game.projectileVsEnemies].
    destruct (CollisionSystem.checkCircleCollision p e).
    - specialize (IH (Projectile.kill p)
                     (if negb (Enemy.isAlive
                                 (Enemy.takeDamage (Projectile.damage p) e))
                      then (kills + 1)%Z else kills) eq_refl).
      destruct (Game.projectileVsEnemies (Projectile.kill p) es _)
        as [[p' rest'] k']. exact IH.
    - specialize (IH p kills Hp).
      destruct (Game.projectileVsEnemies p es kills) as [[p' rest'] k'].
      exact IH. }
  induction es as [| e es IH]; intros p kills Hex.
  - inversion Hex.
  - cbn [Game.projectileVsEnemies].
    destruct (CollisionSystem.checkCircleCollision p e) eqn:Hhit.
    + pose proof (Hdead es (Projectile.kill p)
                    (if negb (Enemy.isAlive
                                (Enemy.takeDamage (Projectile.damage p) e))
                     then (kills + 1)%Z else kills) eq_refl) as H.
      destruct (Game.projectileVsEnemies (Projectile.kill p) es _)
        as [[p' rest'] k']. exact H.
    + inversion Hex as [? ? Hhere | ? ? Hlater]; subst; [congruence |].
      specialize (IH p kills Hlater).
      destruct (Game.projectileVsEnemies p es kills) as [[p' rest'] k'].
      exact IH.
Qed.

(** The pickup pass touches neither enemies nor projectiles nor kills. *)
Lemma applyPickupEffect_frame (type : PickupType) (g : Game.t) :
  Game.enemies (Game.applyPickupEffect type g) = Game.enemies g
  /\ Game.projectiles (Game.applyPickupEffect type g) = Game.projectiles g
  /\ Game.killCount (Game.applyPickupEffect type g) = Game.killCount g
  /\ Game.pickups (Game.applyPickupEffect type g) = Game.pickups g
  /\ Game.inputManager (Game.applyPickupEffect type g) = Game.inputManager g
  /\ Game.gestureInput (Game.applyPickupEffect type g) = Game.gestureInput g
  /\ Game.stateMachine (Game.applyPickupEffect type g) = Game.stateMachine g.
Proof. destruct type; repeat split. Qed.

Lemma playerVsPickups_frame (g : Game.t) :
  Game.enemies (Game.playerVsPickups g) = Game.enemies g
  /\ Game.projectiles (Game.playerVsPickups g) = Game.projectiles g
  /\ Game.killCount (Game.playerVsPickups g) = Game.killCount g
  /\ Game.inputManager (Game.playerVsPickups g) = Game.inputManager g
  /\ Game.gestureInput (Game.playerVsPickups g) = Game.gestureInput g
  /\ Game.stateMachine (Game.playerVsPickups g) = Game.stateMachine g.
Proof.
  unfold Game.playerVsPickups.
  destruct (fst (Game.scanPickups _ _ _ _ _)) as [i |]; [| repeat split].
  destruct (Game.pickups _ !! i) as [c |]; [| repeat split].
  destruct (_ || _); [| repeat split].
  destruct (Pickup.type c); repeat split.
Qed.

(** With one player-owned projectile in the list, a collision pass damages
    every enemy the projectile overlaps. *)
Lemma handleCollisions_one_projectile (g : Game.t) (p : Projectile.t) :
  Game.projectiles g = [p] ->
  Projectile.ownedByPlayer p = true ->
  Game.enemies (Game.handleCollisions g) = map (hitBy p) (Game.enemies g).
Proof.
  intros Hps Hown. unfold Game.handleCollisions.
  destruct (playerVsPickups_frame (Game.resolveDamage g)) as [-> _].
  unfold Game.resolveDamage.
  cbn [Game.projectiles Game.enemies Game.killCount Game.set_player].
  rewrite Hps. cbn [Game.projectilesVsEnemies]. rewrite Hown.
  pose proof (projectileVsEnemies_enemies (Game.enemies g) p (Game.killCount g))
    as Hes.
  destruct (Game.projectileVsEnemies p (Game.enemies g) (Game.killCount g))
    as [[p' es'] k']. cbn [fst snd] in Hes. subst es'.
  cbn [Game.projectiles Game.player Game.set_killCount Game.set_enemies
       Game.set_projectiles].
  destruct (Game.projectilesVsPlayer _ _) as [ps' pl']. reflexivity.
Qed.

(** Claim C9.  Within one pass of a player-owned projectile over the
    enemies, every enemy is collision-tested, also after an earlier hit has
    set the projectile's alive flag to false: the enemies after the pass
    are the enemies before it, each one that the projectile overlaps having
    taken the projectile's damage, while the projectile itself ends the pass
    not alive as soon as it overlaps one enemy.  There is a configuration in
    which one projectile overlaps two living enemies and both have taken
    damage from it after one [handleCollisions]. *)
Theorem spent_projectile_still_hits :
  (forall (p : Projectile.t) (es : list Enemy.t) (kills : Z),
     snd (fst (Game.projectileVsEnemies p es kills)) = map (hitBy p) es
     /\ (Exists (fun e => CollisionSystem.checkCircleCollision p e = true) es ->
         Projectile.alive (fst (fst (Game.projectileVsEnemies p es kills)))
         = false))
  /\ (forall (g : Game.t) (p : Projectile.t),
        Game.projectiles g = [p] ->
        Projectile.ownedByPlayer p = true ->
        Game.enemies (Game.handleCollisions g)
        = map (hitBy p) (Game.enemies g))
  /\ exists (g : Game.t) (p : Projectile.t) (e1 e2 : Enemy.t),
       Game.projectiles g = [p]
       /\ Projectile.ownedByPlayer p = true
       /\ Projectile.alive p = true
       /\ Game.enemies g = [e1; e2]
       /\ Enemy.isAlive e1 = true /\ Enemy.isAlive e2 = true
       /\ CollisionSystem.checkCircleCollision p e1 = true
       /\ CollisionSystem.checkCircleCollision p e2 = true
       /\ Game.enemies (Game.handleCollisions g)
          = [Enemy.takeDamage (Projectile.damage p) e1;
             Enemy.takeDamage (Projectile.damage p) e2]
       /\ Game.projectiles (Game.handleCollisions g) = [Projectile.kill p].
Proof.
  split; [| split].
  - intros p es kills. split.
    + apply projectileVsEnemies_enemies.
    + apply projectileVsEnemies_spent.
  - apply handleCollisions_one_projectile.
  - exists bulletOverTwoEnemies, (playerBullet 105 100),
      (enemyAt 100 100 2), (enemyAt 110 100 2).
    repeat split; vm_compute; reflexivity.
Qed.

(** ** Collisions: the invulnerable player *)

Lemma playerVsEnemies_invulnerable (es : list Enemy.t) (p : Player.t) :
  Player.canTakeDamage p = false ->
  fold_left Game.playerVsEnemy es p = p.
Proof.
  intros Hinv. induction es as [| e es IH]; [reflexivity |].
  cbn [fold_left]. unfold Game.playerVsEnemy at 2. rewrite Hinv.
  destruct (CollisionSystem.checkCircleCollision p e); exact IH.
Qed.

Lemma projectilesVsPlayer_invulnerable (ps : list Projectile.t)
    (p : Player.t) :
  Player.canTakeDamage p = false ->
  Game.projectilesVsPlayer ps p = (ps, p).
Proof.
  intros Hinv. induction ps as [| q ps IH]; [reflexivity |].
  cbn [Game.projectilesVsPlayer]. rewrite Hinv, IH.
  destruct (Projectile.ownedByEnemy q); [| reflexivity].
  destruct (CollisionSystem.checkCircleCollision q p); reflexivity.
Qed.

(** The pass of the player's projectiles over the enemies leaves every
    other projectile as it is, at its place in the list. *)
Lemma projectilesVsEnemies_keeps_others (ps : list Projectile.t) :
  forall (es : list Enemy.t) (kills : Z) (i : nat) (q : Projectile.t),
    ps !! i = Some q ->
    Projectile.ownedByPlayer q = false ->
    fst (fst (Game.projectilesVsEnemies ps es kills)) !! i = Some q.
Proof.
  induction ps as [| p ps IH]; intros es kills i q Hi Hq; [discriminate Hi |].
  cbn [Game.projectilesVsEnemies].
  destruct (Projectile.ownedByPlayer p) eqn:Hown.
  - destruct (Game.projectileVsEnemies p es kills) as [[p' es1] k1].
    specialize (IH es1 k1).
    destruct (Game.projectilesVsEnemies ps es1 k1) as [[rest' es2] k2].
    destruct i as [| i]; cbn in *.
    + injection Hi as ->. congruence.
    + apply IH; assumption.
  - specialize (IH es kills).
    destruct (Game.projectilesVsEnemies ps es kills) as [[rest' es2] k2].
    destruct i as [| i]; cbn in *.
    + exact Hi.
    + apply IH; assumption.
Qed.

Lemma resolveDamage_invulnerable (g : Game.t) :
  Player.canTakeDamage (Game.player g) = false ->
  Game.player (Game.resolveDamage g) = Game.player g
  /\ Game.projectiles (Game.resolveDamage g)
     = fst (fst (Game.projectilesVsEnemies (Game.projectiles g)
                   (Game.enemies g) (Game.killCount g)))
  /\ Game.pickups (Game.resolveDamage g) = Game.pickups g
  /\ Game.inputManager (Game.resolveDamage g) = Game.inputManager g
  /\ Game.gestureInput (Game.resolveDamage g) = Game.gestureInput g.
Proof.
  intros Hinv. unfold Game.resolveDamage.
  rewrite (playerVsEnemies_invulnerable _ _ Hinv).
  cbn [Game.projectiles Game.enemies Game.killCount Game.set_player].
  destruct (Game.projectilesVsEnemies _ _ _) as [[ps es] kills].
  cbn [Game.projectiles Game.player Game.set_killCount Game.set_enemies
       Game.set_projectiles Game.set_player].
  rewrite (projectilesVsPlayer_invulnerable _ _ Hinv).
  repeat split.
Qed.

(** Without a confirmation the pickup pass leaves the player as it is. *)
Lemma playerVsPickups_unconfirmed (g : Game.t) :
  InputManager.isPickingUp (Game.inputManager g) = false ->
  GestureInputManager.isRightPinchActive (Game.gestureInput g) = false ->
  Game.player (Game.playerVsPickups g) = Game.player g
  /\ Game.pickups (Game.playerVsPickups g) = Game.pickups g
  /\ Game.weapons (Game.playerVsPickups g) = Game.weapons g.
Proof.
  intros Hkey Hpinch. unfold Game.playerVsPickups.
  destruct (fst (Game.scanPickups _ _ _ _ _)) as [i |]; [| repeat split].
  destruct (Game.pickups _ !! i) as [c |]; [| repeat split].
  cbn [Game.inputManager Game.gestureInput Game.set_pickupCandidate].
  rewrite Hkey, Hpinch. repeat split.
Qed.

(** Claim C10.  While the player cannot take damage, the pass of the enemy
    projectiles over the player changes nothing: every projectile keeps its
    alive flag, also one that overlaps the player, and the player keeps its
    hp.  The same holds of the three damage passes of [handleCollisions]
    together, for the player and for every projectile that is not the
    player's own; and of the whole of [handleCollisions] for these
    projectiles, and for the player when no pickup is confirmed. *)
Theorem invulnerable_player_stops_no_projectile (g : Game.t) :
  Player.canTakeDamage (Game.player g) = false ->
  (forall ps : list Projectile.t,
     Game.projectilesVsPlayer ps (Game.player g) = (ps, Game.player g))
  /\ Game.player (Game.resolveDamage g) = Game.player g
  /\ (forall (i : nat) (q : Projectile.t),
        Game.projectiles g !! i = Some q ->
        Projectile.ownedByPlayer q = false ->
        Game.projectiles (Game.resolveDamage g) !! i = Some q
        /\ Game.projectiles (Game.handleCollisions g) !! i = Some q)
  /\ (InputManager.isPickingUp (Game.inputManager g) = false ->
      GestureInputManager.isRightPinchActive (Game.gestureInput g) = false ->
      Game.player (Game.handleCollisions g) = Game.player g).
Proof.
  intros Hinv.
  destruct (resolveDamage_invulnerable g Hinv)
    as (Hplayer & Hps & Hpickups & Him & Hgi).
  split; [| split; [| split]].
  - intros ps. apply projectilesVsPlayer_invulnerable. exact Hinv.
  - exact Hplayer.
  - intros i q Hi Hq.
    assert (Hkept : Game.projectiles (Game.resolveDamage g) !! i = Some q).
    { rewrite Hps. apply projectilesVsEnemies_keeps_others; assumption. }
    split; [exact Hkept |]. unfold Game.handleCollisions.
    destruct (playerVsPickups_frame (Game.resolveDamage g)) as (_ & -> & _).
    exact Hkept.
  - intros Hkey Hpinch. unfold Game.handleCollisions.
    destruct (playerVsPickups_unconfirmed (Game.resolveDamage g))
      as (-> & _); [congruence | congruence | exact Hplayer].
Qed.

(** An enemy bullet on a player whose invulnerability window is open. *)
Lemma invulnerable_player_stops_no_projectile_witness :
  let g := scene PLAYING KeyboardMouseProvider.new
             (playerAtCentre 2 (1 # 2)) [] [enemyBullet 600 400] [] in
  CollisionSystem.checkCircleCollision (enemyBullet 600 400) (Game.player g)
  = true
  /\ Game.projectiles (Game.handleCollisions g) !! 0%nat
     = Some (enemyBullet 600 400)
  /\ Game.player (Game.handleCollisions g) = Game.player g.
Proof.
  intros g.
  destruct (invulnerable_player_stops_no_projectile g eq_refl)
    as (_ & _ & Hkeep & Hplayer).
  split; [reflexivity |]. split.
  - apply (Hkeep 0%nat (enemyBullet 600 400)); reflexivity.
  - apply Hplayer; reflexivity.
Defined.

(** ** Collisions: the kill counter *)

(** Property X2.  One pass of one projectile over enemies that are all
    alive raises the kill counter by the number of enemies that are dead
    after the pass, however far the damage exceeds an enemy's hp. *)
Theorem single_projectile_counts_each_death_once (es : list Enemy.t) :
  forall (p : Projectile.t) (kills : Z),
    Forall (fun e => Enemy.isAlive e = true) es ->
    snd (Game.projectileVsEnemies p es kills)
    = (kills + deadAmong (map (hitBy p) es))%Z.
Proof.
  induction es as [| e es IH]; intros p kills Halive.
  - cbn. unfold deadAmong. cbn. lia.
  - inversion Halive as [| ? ? He Hes]; subst.
    cbn [Game.projectileVsEnemies map]. unfold hitBy at 1.
    destruct (CollisionSystem.checkCircleCollision p e).
    + specialize (IH (Projectile.kill p)
                     (if negb (Enemy.isAlive
                                 (Enemy.takeDamage (Projectile.damage p) e))
                      then (kills + 1)%Z else kills) Hes).
      destruct (Game.projectileVsEnemies (Projectile.kill p) es _)
        as [[p' rest'] k']. cbn [fst snd] in *. rewrite IH.
      change (map (hitBy (Projectile.kill p)) es) with (map (hitBy p) es).
      unfold deadAmong. cbn [List.filter].
      destruct (Enemy.isAlive (Enemy.takeDamage (Projectile.damage p) e));
        cbn [negb length]; lia.
    + specialize (IH p kills Hes).
      destruct (Game.projectileVsEnemies p es kills) as [[p' rest'] k'].
      cbn [fst snd] in *. rewrite IH.
      unfold deadAmong. cbn [List.filter]. rewrite He. cbn [negb]. lia.
Qed.

(** A bullet of damage 5 on an enemy with 1 hp, a second enemy out of
    reach: one death, one kill. *)
Lemma single_projectile_counts_each_death_once_witness :
  snd (Game.projectileVsEnemies
         {| Projectile.x := 100; Projectile.y := 100; Projectile.radius := 4;
            Projectile.damage := 5; Projectile.owner := Some "player";
            Projectile.alive := true |}
         [enemyAt 100 100 1; enemyAt 300 300 1] 0)
  = 1%Z.
Proof.
  rewrite single_projectile_counts_each_death_once.
  - vm_compute. reflexivity.
  - repeat constructor.
Defined.

(** Claim C1, as the code has it.  Two bullets of the player overlap one
    living enemy in the same tick.  The first kills it and the kill counter
    goes from 0 to 1; the second hits the dead enemy, which is still in the
    list, and the counter goes to 2: one death, two kills counted.  The
    removal of the dead that ends the tick's resolution leaves the counter
    at 2. *)
Theorem one_death_counted_twice :
  let g := twoBulletsOnOneEnemy in
  Game.killCount g = 0%Z
  /\ Game.enemies g = [enemyAt 100 100 1]
  /\ Enemy.isAlive (enemyAt 100 100 1) = true
  /\ Forall (fun p => Projectile.ownedByPlayer p = true
                      /\ CollisionSystem.checkCircleCollision
                           p (enemyAt 100 100 1) = true)
            (Game.projectiles g)
  /\ Game.killCount (Game.handleCollisions g) = 2%Z
  /\ Game.enemies (Game.handleCollisions g) = [enemyAt 100 100 (-1)]
  /\ Game.killCount (Game.resolvePlaying g) = 2%Z
  /\ Game.enemies (Game.resolvePlaying g) = [].
Proof.
  cbv zeta. split; [reflexivity |]. split; [reflexivity |].
  split; [reflexivity |]. split.
  - repeat constructor.
  - repeat split; vm_compute; reflexivity.
Qed.

(** ** Collisions: pickups *)

Ltac roots :=
  repeat match goal with
         | m : Extended |- _ => destruct m
         end;
  unfold nearer, root_lt_ext, root_lt_root in *;
  repeat match goal with
         | H : Qltb _ _ = true |- _ => apply Qltb_true in H
         | H : Qltb _ _ = false |- _ => apply Qltb_false in H
         | H : true = false |- _ => discriminate H
         | H : false = true |- _ => discriminate H
         end;
  try reflexivity;
  try (apply Qltb_true; lra);
  try (apply Qltb_false; lra).

Lemma scanPickups_spec (pl : Player.t) (pks : list Pickup.t) :
  forall (i : nat) (best : option nat) (dist : Extended),
    let r := fst (Game.scanPickups pl pks i best dist) in
    let rd := snd (Game.scanPickups pl pks i best dist) in
    (forall (k : nat) (c : Pickup.t),
       pks !! k = Some c ->
       CollisionSystem.checkCircleCollision pl c = true ->
       root_lt_ext (pickupDistance pl c) rd = false)
    /\ (forall a : Root,
          root_lt_ext a dist = false -> root_lt_ext a rd = false)
    /\ ((r = best /\ rd = dist)
        \/ exists (k : nat) (c : Pickup.t),
             r = Some (i + k)%nat
             /\ pks !! k = Some c
             /\ CollisionSystem.checkCircleCollision pl c = true
             /\ rd = Finite (pickupDistance pl c)
             /\ root_lt_ext (pickupDistance pl c) dist = true
             /\ (forall (k' : nat) (c' : Pickup.t),
                   (k' < k)%nat ->
                   pks !! k' = Some c' ->
                   CollisionSystem.checkCircleCollision pl c' = true ->
                   nearer pl c c' = true)).
Proof.
  induction pks as [| e pks IH]; intros i best dist r rd.
  - subst r rd. cbn. split; [intros k c H; discriminate H |].
    split; [auto |]. left. auto.
  - subst r rd. cbn [Game.scanPickups].
    fold (pickupDistance pl e).
    destruct (CollisionSystem.checkCircleCollision pl e) eqn:Hhit.
    + destruct (root_lt_ext (pickupDistance pl e) dist) eqn:Hnear.
      * (* the head becomes the candidate *)
        destruct (IH (S i) (Some i) (Finite (pickupDistance pl e)))
          as (HB & HA & HC).
        split; [| split].
        -- intros [| k] c Hk Hc; cbn in Hk.
           ++ injection Hk as <-. apply HA. roots.
           ++ eapply HB; eassumption.
        -- intros a Ha. apply HA. clear - Ha Hnear. roots.
        -- right. destruct HC as [[Hr Hrd] | (k & c & Hr & Hk & Hc & Hrd & Hlt & Hties)].
           ++ exists 0%nat, e. rewrite Hr, Hrd, Nat.add_0_r.
              repeat split; try assumption. intros k' c' Hk'. lia.
           ++ exists (S k), c. rewrite Hr, Hrd.
              replace (i + S k)%nat with (S i + k)%nat by lia.
              repeat split; try assumption.
              ** clear - Hlt Hnear. roots.
              ** intros [| k'] c' Hk' Hc' Hhit'; cbn in Hc'.
                 --- injection Hc' as <-. clear - Hlt. roots.
                 --- eapply Hties; [| eassumption | assumption]. lia.
      * (* the head overlaps but is not nearer *)
        destruct (IH (S i) best dist) as (HB & HA & HC).
        split; [| split].
        -- intros [| k] c Hk Hc; cbn in Hk.
           ++ injection Hk as <-. apply HA. exact Hnear.
           ++ eapply HB; eassumption.
        -- exact HA.
        -- destruct HC as [[Hr Hrd] | (k & c & Hr & Hk & Hc & Hrd & Hlt & Hties)].
           ++ left. auto.
           ++ right. exists (S k), c. rewrite Hr, Hrd.
              replace (i + S k)%nat with (S i + k)%nat by lia.
              repeat split; try assumption.
              intros [| k'] c' Hk' Hc' Hhit'; cbn in Hc'.
              ** injection Hc' as <-. clear - Hlt Hnear. roots.
              ** eapply Hties; [| eassumption | assumption]. lia.
    + (* the head does not overlap *)
      destruct (IH (S i) best dist) as (HB & HA & HC).
      split; [| split].
      * intros [| k] c Hk Hc; cbn in Hk.
        -- injection Hk as <-. congruence.
        -- eapply HB; eassumption.
      * exact HA.
      * destruct HC as [[Hr Hrd] | (k & c & Hr & Hk & Hc & Hrd & Hlt & Hties)].
        -- left. auto.
        -- right. exists (S k), c. rewrite Hr, Hrd.
           replace (i + S k)%nat with (S i + k)%nat by lia.
           repeat split; try assumption.
           intros [| k'] c' Hk' Hc' Hhit'; cbn in Hc'.
           ++ injection Hc' as <-. congruence.
           ++ eapply Hties; [| eassumption | assumption]. lia.
Qed.

(** The two outcomes of a pickup pass. *)
Lemma playerVsPickups_cases (g : Game.t) :
  let pl := Game.player g in
  ((forall (k : nat) (c : Pickup.t),
      Game.pickups g !! k = Some c ->
      CollisionSystem.checkCircleCollision pl c = false)
   /\ Game.playerVsPickups g = Game.set_pickupCandidate None g)
  \/ exists (i : nat) (c : Pickup.t),
       nearestOverlapping pl (Game.pickups g) i c
       /\ (pickupConfirmed g = false ->
           Game.playerVsPickups g = Game.set_pickupCandidate (Some c) g)
       /\ (pickupConfirmed g = true ->
           Game.playerVsPickups g
           = Game.set_pickupCandidate None
               (Game.set_pickups (delete i (Game.pickups g))
                  (Game.applyPickupEffect (Pickup.type c) g))).
Proof.
  intros pl. unfold Game.playerVsPickups.
  cbn [Game.player Game.pickups Game.set_pickupCandidate].
  fold pl.
  destruct (scanPickups_spec pl (Game.pickups g) 0 None Infinity)
    as (HB & _ & HC).
  destruct HC as [[Hr Hrd] | (k & c & Hr & Hk & Hc & Hrd & _ & Hties)].
  - left. rewrite Hr. split; [| reflexivity].
    intros k c Hk.
    destruct (CollisionSystem.checkCircleCollision pl c) eqn:Hc;
      [| reflexivity].
    specialize (HB k c Hk Hc). rewrite Hrd in HB. discriminate HB.
  - right. exists k, c. rewrite Hr. cbn [Nat.add]. rewrite Hk.
    split; [| split].
    + split; [exact Hk |]. split; [exact Hc |]. split; [| exact Hties].
      intros k' c' Hk' Hc'. specialize (HB k' c' Hk' Hc').
      rewrite Hrd in HB. exact HB.
    + unfold pickupConfirmed. intros Hconf.
      cbn [Game.inputManager Game.gestureInput Game.set_pickupCandidate].
      rewrite Hconf. reflexivity.
    + unfold pickupConfirmed. intros Hconf.
      cbn [Game.inputManager Game.gestureInput Game.set_pickupCandidate].
      rewrite Hconf. destruct (Pickup.type c); reflexivity.
Qed.

(** A pickup pass takes at most one pickup out of the list. *)
Lemma pickup_pass_takes_at_most_one (g : Game.t) :
  (length (Game.pickups g) <= S (length (Game.pickups (Game.playerVsPickups g))))%nat.
Proof.
  destruct (playerVsPickups_cases g)
    as [[_ ->] | (i & c & (Hi & _) & Hno & Hyes)].
  - cbn. lia.
  - destruct (pickupConfirmed g).
    + rewrite (Hyes eq_refl). cbn [Game.pickups Game.set_pickupCandidate
                                   Game.set_pickups].
      rewrite length_delete by (rewrite Hi; eauto). lia.
    + rewrite (Hno eq_refl). cbn. lia.
Qed.


(** ** The tick *)

(** In state PLAYING a tick runs [handleCollisions] twice: in
    [updatePlaying] and again in [update]. *)
Lemma update_PLAYING (gp : Game.Gameplay) (now deltaTime : Q) (g : Game.t)
    (im : InputManager.t) :
  GameStateMachine.getState (Game.stateMachine g) = PLAYING ->
  InputManager.update deltaTime (Game.inputManager g) = Normal im ->
  Game.update gp now deltaTime g
  = Normal (Game.finishUpdate
              (Game.resolvePlaying
                 (Game.advancePlaying gp now deltaTime
                    (Game.set_inputManager im g)))).
Proof.
  intros Hstate Him. unfold Game.update. rewrite Him.
  cbn [Game.stateMachine Game.set_inputManager]. rewrite Hstate.
  reflexivity.
Qed.

(** In every other state a tick calls nothing of the gameplay, but it runs
    [handleCollisions] all the same. *)
Lemma update_not_PLAYING (gp : Game.Gameplay) (now deltaTime : Q)
    (g : Game.t) (im : InputManager.t) :
  GameStateMachine.getState (Game.stateMachine g) <> PLAYING ->
  InputManager.update deltaTime (Game.inputManager g) = Normal im ->
  Game.update gp now deltaTime g
  = Normal (Game.handleCollisions (Game.set_inputManager im g)).
Proof.
  intros Hstate Him. unfold Game.update. rewrite Him.
  cbn [Game.stateMachine Game.set_inputManager].
  assert (Hfinish : Game.finishUpdate (Game.set_inputManager im g)
                    = Game.handleCollisions (Game.set_inputManager im g)).
  { unfold Game.finishUpdate, Game.handleCollisions.
    destruct (playerVsPickups_frame
                (Game.resolveDamage (Game.set_inputManager im g)))
      as (_ & _ & _ & _ & _ & ->).
    assert (Hsm : Game.stateMachine
                    (Game.resolveDamage (Game.set_inputManager im g))
                  = Game.stateMachine g).
    { unfold Game.resolveDamage.
      destruct (Game.projectilesVsEnemies _ _ _) as [[ps es] k].
      destruct (Game.projectilesVsPlayer _ _) as [ps' p']. reflexivity. }
    rewrite Hsm.
    destruct (GameStateMachine.getState (Game.stateMachine g)) eqn:E;
      try contradiction;
      cbn [GAME_STATES_eqb]; rewrite andb_false_r; reflexivity. }
  destruct (GameStateMachine.getState (Game.stateMachine g)) eqn:E;
    try contradiction; unfold Game.updateGameOver; rewrite Hfinish;
    reflexivity.
Qed.

(** Claim C2, as the code has it.  [twoPickupsUnderfoot] is the game at the
    point of a PLAYING tick at which [updatePlaying] calls
    [handleCollisions].  That call takes the nearest pickup and leaves the
    other overlapping one; the call of [handleCollisions] that [update]
    makes after [updatePlaying], in the same tick, takes that one too.  Both
    effects are applied, and the tick ends with two pickups fewer. *)
Theorem two_pickups_collected_in_one_tick :
  let g1 := twoPickupsUnderfoot in
  pickupConfirmed g1 = true
  /\ Forall (fun c => CollisionSystem.checkCircleCollision (Game.player g1) c
                      = true)
            [pickupAt 610 400 MG_AMMO; pickupAt 590 410 GRENADE]
  /\ Game.pickups (Game.handleCollisions g1)
     = [pickupAt 590 410 GRENADE; pickupAt 900 100 HEAL]
  /\ Game.pickups (Game.finishUpdate (Game.resolvePlaying g1))
     = [pickupAt 900 100 HEAL]
  /\ Game.weapons (Game.finishUpdate (Game.resolvePlaying g1))
     = {| pistol_fireRate := 0.3;
          machine_gun_currentAmmo := 20;
          grenade_currentAmmo := 5 |}
  /\ (forall (gp : Game.Gameplay) (now deltaTime : Q) (g : Game.t)
             (im : InputManager.t),
        GameStateMachine.getState (Game.stateMachine g) = PLAYING ->
        InputManager.update deltaTime (Game.inputManager g) = Normal im ->
        Game.advancePlaying gp now deltaTime (Game.set_inputManager im g)
        = g1 ->
        exists g' : Game.t,
          Game.update gp now deltaTime g = Normal g'
          /\ Game.pickups g' = [pickupAt 900 100 HEAL]).
Proof.
  cbv zeta. split; [reflexivity |]. split; [repeat constructor |].
  split; [vm_compute; reflexivity |]. split; [vm_compute; reflexivity |].
  split; [vm_compute; reflexivity |].
  intros gp now deltaTime g im Hstate Him Hadvance.
  eexists. split.
  - rewrite (update_PLAYING gp now deltaTime g im Hstate Him), Hadvance.
    reflexivity.
  - vm_compute. reflexivity.
Qed.

(** Claim C3, as the code has it.  [update] calls nothing of the gameplay
    update outside PLAYING, but it calls [handleCollisions] in every state.
    In state GAME_OVER, with no restart, a tick takes the heal pickup out of
    the pickup list and raises the hp of the fallen player from 0 to 1. *)
Theorem game_over_tick_changes_entities :
  (forall (gp : Game.Gameplay) (now deltaTime : Q) (g : Game.t)
          (im : InputManager.t),
     GameStateMachine.getState (Game.stateMachine g) <> PLAYING ->
     InputManager.update deltaTime (Game.inputManager g) = Normal im ->
     Game.update gp now deltaTime g
     = Normal (Game.handleCollisions (Game.set_inputManager im g)))
  /\ forall (gp : Game.Gameplay) (now deltaTime : Q),
       let g := fallenPlayerOnHealPickup in
       exists g' : Game.t,
         Game.update gp now deltaTime g = Normal g'
         /\ GameStateMachine.getState (Game.stateMachine g) = GAME_OVER
         /\ GameStateMachine.getState (Game.stateMachine g') = GAME_OVER
         /\ Game.pickups g = [pickupAt 610 400 HEAL]
         /\ Game.pickups g' = []
         /\ Player.hp (Game.player g) = 0
         /\ Player.hp (Game.player g') = 1.
Proof.
  split; [exact update_not_PLAYING |].
  intros gp now deltaTime g. eexists. split.
  - subst g.
    rewrite (update_not_PLAYING gp now deltaTime fallenPlayerOnHealPickup
               (Game.inputManager fallenPlayerOnHealPickup)).
    + reflexivity.
    + discriminate.
    + vm_compute. reflexivity.
  - repeat split; vm_compute; reflexivity.
Qed.

(** ** Weapon switch *)

(** What each event does to the flag and to the time of the last clear. *)
Lemma switchStep_effect (ev : SwitchEvent) (st : SwitchState) :
  cooldownOf (switchStep ev st) = cooldownOf st
  /\ match ev with
     | KeyDown now code =>
         flagOf (switchStep ev st)
         = flagOf st || (raisedBy ev st && cooledDown now st)
         /\ lastClearOf (switchStep ev st) = lastClearOf st
     | HandsSeen _ =>
         flagOf (switchStep ev st) = flagOf st
         /\ lastClearOf (switchStep ev st) = lastClearOf st
     | WeaponTick now =>
         toggledBy ev st = flagOf st || (raisedBy ev st && cooledDown now st)
         /\ flagOf (switchStep ev st) = false
         /\ lastClearOf (switchStep ev st)
            = if toggledBy ev st then now else lastClearOf st
     end.
Proof.
  destruct st as [kb g]. destruct ev as [now code | frame | now].
  - unfold switchStep, KeyboardMouseProvider.handleKeyDown, raisedBy,
      cooledDown, flagOf, lastClearOf, cooldownOf,
      InputManager.getWeaponSwitch, InputManager.canSwitchWeapon,
      InputManager.canToggleCreatorMode.
    cbn [snd].
    destruct (KeyboardMouseProvider.keyMap !! code) as [action |];
      [| rewrite orb_false_r; auto].
    destruct (switchWeapon (InputManager.input (Game.inputManager g)))
      eqn:Ef;
      destruct (Qle_bool
                  (weaponSwitchCooldown
                     (InputManager.input (Game.inputManager g)))
                  (now - lastWeaponSwitchTime
                           (InputManager.input (Game.inputManager g))))
        eqn:Ec;
      destruct (String.eqb action "switchWeapon");
      destruct (String.eqb action "creatorMode");
      destruct (String.eqb action "pickup");
      cbn [negb andb orb snd];
      try destruct (_ && _);
      cbn -[Qle_bool Qminus]; rewrite ?Ef; auto.
  - cbn. auto.
  - unfold switchStep, toggledBy, raisedBy, cooledDown, flagOf, lastClearOf,
      cooldownOf, Game.handleWeaponSwitch, Game.handleLeftPinch,
      InputManager.getWeaponSwitch, InputManager.canSwitchWeapon.
    cbn [snd].
    destruct (switchWeapon (InputManager.input (Game.inputManager g)))
      eqn:Ef;
      destruct (Qle_bool
                  (weaponSwitchCooldown
                     (InputManager.input (Game.inputManager g)))
                  (now - lastWeaponSwitchTime
                           (InputManager.input (Game.inputManager g))))
        eqn:Ec;
      destruct (GestureInputManager.isLeftPinchActive (Game.gestureInput g));
      destruct (Game.prevLeftPinchActive g);
      cbn -[Qle_bool Qminus]; rewrite ?Ef; cbn -[Qle_bool Qminus];
      rewrite ?Ef; auto.
Qed.

Lemma withinWindow_head (t0 cooldown : Q) (ev : SwitchEvent)
    (evs : list SwitchEvent) (now : Q) :
  withinWindow t0 cooldown (ev :: evs) ->
  eventTime ev = Some now ->
  t0 <= now /\ now < t0 + cooldown.
Proof. intros H. inversion H; subst; auto. Qed.

Lemma withinWindow_tail (t0 cooldown : Q) (ev : SwitchEvent)
    (evs : list SwitchEvent) :
  withinWindow t0 cooldown (ev :: evs) -> withinWindow t0 cooldown evs.
Proof. intros H. inversion H; subst; auto. Qed.

(** Within the window of a clear, no signal raises the flag again. *)
Lemma no_toggle_after_clear (t0 cooldown : Q) (evs : list SwitchEvent) :
  forall st : SwitchState,
    cooldownOf st = cooldown ->
    withinWindow t0 cooldown evs ->
    flagOf st = false ->
    t0 <= lastClearOf st ->
    toggles evs st = 0%nat /\ flagOf (switchRun evs st) = false.
Proof.
  induction evs as [| ev evs IH]; intros st Hcd Hwin Hflag Hlast.
  - cbn. auto.
  - pose proof (withinWindow_tail _ _ _ _ Hwin) as Hrest.
    destruct (switchStep_effect ev st) as [Hcd' Heff].
    assert (Hcold : forall now, eventTime ev = Some now ->
                                cooledDown now st = false).
    { intros now Hnow.
      destruct (withinWindow_head _ _ _ _ now Hwin Hnow) as [H1 H2].
      unfold cooledDown. apply Qle_bool_false. rewrite Hcd. lra. }
    cbn [toggles switchRun fold_left].
    change (fold_left (fun s e => switchStep e s) evs (switchStep ev st))
      with (switchRun evs (switchStep ev st)).
    destruct ev as [now code | frame | now].
    + destruct Heff as [Hf Hl]. cbn [toggledBy].
      rewrite Hflag, (Hcold now eq_refl), andb_false_r in Hf.
      apply IH; [congruence | exact Hrest | exact Hf | rewrite Hl; exact Hlast].
    + destruct Heff as [Hf Hl]. cbn [toggledBy].
      apply IH; [congruence | exact Hrest | congruence | rewrite Hl; exact Hlast].
    + destruct Heff as (Ht & Hf & Hl).
      rewrite Hflag, (Hcold now eq_refl), andb_false_r in Ht.
      cbn [orb] in Ht. rewrite Ht in *.
      apply IH; [congruence | exact Hrest | exact Hf | rewrite Hl; exact Hlast].
Qed.

(** A raised flag is consumed once, by the next tick, or is still raised. *)
Lemma one_toggle_when_raised (t0 cooldown : Q) (evs : list SwitchEvent) :
  forall st : SwitchState,
    cooldownOf st = cooldown ->
    withinWindow t0 cooldown evs ->
    flagOf st = true ->
    (toggles evs st + pending (switchRun evs st) = 1)%nat.
Proof.
  induction evs as [| ev evs IH]; intros st Hcd Hwin Hflag.
  - cbn. unfold pending. rewrite Hflag. reflexivity.
  - pose proof (withinWindow_tail _ _ _ _ Hwin) as Hrest.
    destruct (switchStep_effect ev st) as [Hcd' Heff].
    cbn [toggles switchRun fold_left].
    change (fold_left (fun s e => switchStep e s) evs (switchStep ev st))
      with (switchRun evs (switchStep ev st)).
    destruct ev as [now code | frame | now].
    + destruct Heff as [Hf Hl]. cbn [toggledBy]. rewrite Hflag in Hf.
      apply IH; [congruence | exact Hrest | exact Hf].
    + destruct Heff as [Hf Hl]. cbn [toggledBy].
      apply IH; [congruence | exact Hrest | congruence].
    + destruct Heff as (Ht & Hf & Hl). rewrite Hflag in Ht. cbn [orb] in Ht.
      rewrite Ht in *.
      destruct (withinWindow_head _ _ _ _ now Hwin eq_refl) as [H1 H2].
      destruct (no_toggle_after_clear t0 cooldown evs (switchStep (WeaponTick now) st))
        as [Hnone Hdown]; [congruence | exact Hrest | exact Hf | rewrite Hl; exact H1 |].
      unfold pending. rewrite Hnone, Hdown. reflexivity.
Qed.

(** From a lowered flag whose cooldown has elapsed, the first raise signal
    of the window is taken, and it is the only one. *)
Lemma one_toggle_when_signalled (t0 cooldown : Q) (evs : list SwitchEvent) :
  forall st : SwitchState,
    cooldownOf st = cooldown ->
    withinWindow t0 cooldown evs ->
    flagOf st = false ->
    cooldown <= t0 - lastClearOf st ->
    (1 <= signals evs st)%nat ->
    (toggles evs st + pending (switchRun evs st) = 1)%nat.
Proof.
  induction evs as [| ev evs IH]; intros st Hcd Hwin Hflag Hready Hsig.
  - cbn in Hsig. lia.
  - pose proof (withinWindow_tail _ _ _ _ Hwin) as Hrest.
    destruct (switchStep_effect ev st) as [Hcd' Heff].
    assert (Hwarm : forall now, eventTime ev = Some now ->
                                cooledDown now st = true).
    { intros now Hnow.
      destruct (withinWindow_head _ _ _ _ now Hwin Hnow) as [H1 H2].
      unfold cooledDown. apply Qle_bool_iff. rewrite Hcd. lra. }
    cbn [toggles signals switchRun fold_left] in *.
    change (fold_left (fun s e => switchStep e s) evs (switchStep ev st))
      with (switchRun evs (switchStep ev st)).
    destruct ev as [now code | frame | now].
    + destruct Heff as [Hf Hl]. cbn [toggledBy].
      rewrite Hflag, (Hwarm now eq_refl), andb_true_r in Hf. cbn [orb] in Hf.
      destruct (raisedBy (KeyDown now code) st).
      * apply (one_toggle_when_raised t0 cooldown);
          [congruence | exact Hrest | exact Hf].
      * apply IH; [congruence | exact Hrest | exact Hf
                   | rewrite Hl; exact Hready | cbn in Hsig; exact Hsig].
    + destruct Heff as [Hf Hl]. cbn [toggledBy raisedBy] in *.
      apply IH; [congruence | exact Hrest | congruence
                 | rewrite Hl; exact Hready | exact Hsig].
    + destruct Heff as (Ht & Hf & Hl).
      rewrite Hflag, (Hwarm now eq_refl), andb_true_r in Ht. cbn [orb] in Ht.
      rewrite Ht in *.
      destruct (raisedBy (WeaponTick now) st).
      * destruct (withinWindow_head _ _ _ _ now Hwin eq_refl) as [H1 H2].
        destruct (no_toggle_after_clear t0 cooldown evs
                    (switchStep (WeaponTick now) st))
          as [Hnone Hdown];
          [congruence | exact Hrest | exact Hf | rewrite Hl; exact H1 |].
        unfold pending. rewrite Hnone, Hdown. reflexivity.
      * apply IH; [congruence | exact Hrest | exact Hf
                   | rewrite Hl; exact Hready | cbn in Hsig; exact Hsig].
Qed.

(** No window shorter than the cooldown holds two toggles. *)
Lemma at_most_one_toggle (t0 cooldown : Q) (evs : list SwitchEvent) :
  forall st : SwitchState,
    cooldownOf st = cooldown ->
    withinWindow t0 cooldown evs ->
    (toggles evs st <= 1)%nat.
Proof.
  induction evs as [| ev evs IH]; intros st Hcd Hwin.
  - cbn. lia.
  - pose proof (withinWindow_tail _ _ _ _ Hwin) as Hrest.
    destruct (switchStep_effect ev st) as [Hcd' Heff].
    cbn [toggles].
    destruct (toggledBy ev st) eqn:Htoggled.
    + destruct ev as [now code | frame | now]; try discriminate Htoggled.
      destruct Heff as (Ht & Hf & Hl).
      destruct (withinWindow_head _ _ _ _ now Hwin eq_refl) as [H1 H2].
      destruct (no_toggle_after_clear t0 cooldown evs
                  (switchStep (WeaponTick now) st))
        as [Hnone _];
        [congruence | exact Hrest | exact Hf | rewrite Hl; exact H1 |].
      rewrite Hnone. lia.
    + specialize (IH (switchStep ev st) ltac:(congruence) Hrest). lia.
Qed.

(** The edge test of the left pinch leaves the weapon as it is. *)
Lemma handleLeftPinch_weapon (now : Q) (g : Game.t) :
  Game.currentWeaponKey (Game.handleLeftPinch now g)
  = Game.currentWeaponKey g.
Proof.
  unfold Game.handleLeftPinch.
  destruct (_ && _); [destruct (InputManager.canSwitchWeapon _ _) |];
    reflexivity.
Qed.

(** Claim C6.  The weapon-switch flag under key presses, hand frames and
    ticks:
    - a raised flag stays raised under every event but the consumer of a
      tick, which applies one weapon toggle, lowers the flag and records
      the time of the clear; a tick that finds the flag lowered toggles
      nothing;
    - a lowered flag is raised only by a raise signal (the R key going down
      or the rising edge of the left pinch) at a time at which the cooldown
      has elapsed since the last clear;
    - in a window shorter than the cooldown at most one toggle is applied,
      whatever the state at its start and however many raise signals
      arrive; and if the window starts with the flag lowered and the
      cooldown elapsed, then as soon as one raise signal has arrived exactly
      one toggle is applied or waits, raised, for the next tick. *)
Theorem weapon_switch_debounced :
  (forall (ev : SwitchEvent) (st : SwitchState),
     flagOf st = true ->
     flagOf (switchStep ev st) = false ->
     toggledBy ev st = true)
  /\ (forall (now : Q) (st : SwitchState),
        Game.currentWeaponKey (snd (switchStep (WeaponTick now) st))
        = Game.currentWeaponKey
            (if toggledBy (WeaponTick now) st
             then Game.toggleWeapon (snd st) else snd st)
        /\ flagOf (switchStep (WeaponTick now) st) = false
        /\ lastClearOf (switchStep (WeaponTick now) st)
           = if toggledBy (WeaponTick now) st then now else lastClearOf st)
  /\ (forall (ev : SwitchEvent) (st : SwitchState),
        flagOf st = false ->
        flagOf (switchStep ev st) = true \/ toggledBy ev st = true ->
        exists now : Q,
          eventTime ev = Some now
          /\ raisedBy ev st = true
          /\ cooldownOf st <= now - lastClearOf st)
  /\ (forall (t0 : Q) (evs : list SwitchEvent) (st : SwitchState),
        withinWindow t0 (cooldownOf st) evs ->
        (toggles evs st <= 1)%nat
        /\ (flagOf st = false ->
            cooldownOf st <= t0 - lastClearOf st ->
            (1 <= signals evs st)%nat ->
            (toggles evs st + pending (switchRun evs st) = 1)%nat)).
Proof.
  split; [| split; [| split]].
  - intros ev st Hup Hdown.
    destruct (switchStep_effect ev st) as [_ Heff].
    destruct ev as [now code | frame | now].
    + destruct Heff as [Hf _]. rewrite Hup in Hf. cbn [orb] in Hf. congruence.
    + destruct Heff as [Hf _]. congruence.
    + destruct Heff as (Ht & _). rewrite Hup in Ht. exact Ht.
  - intros now st.
    destruct (switchStep_effect (WeaponTick now) st) as [_ (Ht & Hf & Hl)].
    split; [| split; assumption].
    destruct st as [kb g].
    unfold switchStep, toggledBy, Game.handleWeaponSwitch. cbn [snd].
    destruct (InputManager.getWeaponSwitch
                (Game.inputManager (Game.handleLeftPinch now g))).
    + cbn [Game.currentWeaponKey Game.set_inputManager Game.toggleWeapon
           Game.set_currentWeaponKey].
      rewrite handleLeftPinch_weapon. reflexivity.
    + apply handleLeftPinch_weapon.
  - intros ev st Hdown Hraised.
    destruct (switchStep_effect ev st) as [_ Heff].
    destruct ev as [now code | frame | now].
    + destruct Heff as [Hf _]. rewrite Hdown in Hf. cbn [orb] in Hf.
      destruct Hraised as [Hup | Ht]; [| discriminate Ht].
      rewrite Hup in Hf. symmetry in Hf. apply andb_true_iff in Hf as [Hr Hc].
      exists now. split; [reflexivity |]. split; [exact Hr |].
      apply Qle_bool_iff. exact Hc.
    + destruct Heff as [Hf _].
      destruct Hraised as [Hup | Ht]; [congruence | discriminate Ht].
    + destruct Heff as (Ht & Hf & _). rewrite Hdown in Ht. cbn [orb] in Ht.
      destruct Hraised as [Hup | Htoggled]; [congruence |].
      rewrite Htoggled in Ht. symmetry in Ht.
      apply andb_true_iff in Ht as [Hr Hc].
      exists now. split; [reflexivity |]. split; [exact Hr |].
      apply Qle_bool_iff. exact Hc.
  - intros t0 evs st Hwin. split.
    + apply (at_most_one_toggle t0 (cooldownOf st)); [reflexivity | exact Hwin].
    + intros Hdown Hready Hsig.
      apply (one_toggle_when_signalled t0 (cooldownOf st)); auto.
Qed.

Lemma weapon_switch_debounced_witness :
  (toggles threeQuickPresses switchStart
   + pending (switchRun threeQuickPresses switchStart) = 1)%nat.
Proof.
  refine (proj2 (proj2 (proj2 (proj2 weapon_switch_debounced))
                   1000 threeQuickPresses switchStart _) _ _ _).
  - unfold withinWindow, threeQuickPresses.
    repeat (apply List.Forall_cons;
            [intros now [= <-]; split; vm_compute; congruence |]).
    apply List.Forall_nil.
  - reflexivity.
  - vm_compute. discriminate.
  - vm_compute. lia.
Defined.

Example three_quick_presses_switch_once :
  signals threeQuickPresses switchStart = 3%nat
  /\ toggles threeQuickPresses switchStart = 1%nat
  /\ Game.currentWeaponKey (snd (switchRun threeQuickPresses switchStart))
     = machine_gun.
Proof. repeat split; vm_compute; reflexivity. Qed.

(** ** Utils *)

Lemma clamp_is_an_argument (v lo hi : Q) :
  Utils.clamp v lo hi = v \/ Utils.clamp v lo hi = lo
  \/ Utils.clamp v lo hi = hi.
Proof.
  unfold Utils.clamp, Math_min, Math_max.
  destruct (Qle_bool v lo); destruct (Qle_bool _ hi); auto.
Qed.

(** Property X4.  [clamp] returns one of its three arguments.  With
    [min <= max] the result lies within the bounds: it is the value itself
    when that is within them, [min] for a value below and [max] for a value
    above, and clamping twice is clamping once.  With [max < min] the
    result is [max], whatever the value. *)
Theorem clamp_cases (v lo hi : Q) :
  (Utils.clamp v lo hi = v \/ Utils.clamp v lo hi = lo
   \/ Utils.clamp v lo hi = hi)
  /\ (lo <= hi ->
      lo <= Utils.clamp v lo hi <= hi
      /\ (lo <= v <= hi -> Utils.clamp v lo hi == v)
      /\ (v < lo -> Utils.clamp v lo hi == lo)
      /\ (hi < v -> Utils.clamp v lo hi == hi)
      /\ Utils.clamp (Utils.clamp v lo hi) lo hi == Utils.clamp v lo hi)
  /\ (hi < lo -> Utils.clamp v lo hi == hi).
Proof.
  split; [apply clamp_is_an_argument |]. split.
  - intros Hb. pose proof (clamp_bounds v lo hi Hb) as Hin.
    split; [exact Hin |]. split; [| split; [| split]].
    + intros [H1 H2]. apply clamp_inside; assumption.
    + intros Hlt. unfold Utils.clamp.
      destruct (Math_max_cases v lo) as [[H1 ->] | [H1 ->]]; [| lra].
      destruct (Math_min_cases lo hi) as [[H2 ->] | [H2 ->]]; lra.
    + intros Hgt. unfold Utils.clamp.
      destruct (Math_max_cases v lo) as [[H1 ->] | [H1 ->]]; [lra |].
      destruct (Math_min_cases v hi) as [[H2 ->] | [H2 ->]]; lra.
    + apply clamp_inside; apply Hin.
  - intros Hlt. unfold Utils.clamp.
    destruct (Math_max_cases v lo) as [[H1 ->] | [H1 ->]].
    + destruct (Math_min_cases lo hi) as [[H2 ->] | [H2 ->]]; lra.
    + destruct (Math_min_cases v hi) as [[H2 ->] | [H2 ->]]; lra.
Qed.

Lemma clamp_cases_witness :
  0 <= Utils.clamp 7 0 5 <= 5.
Proof.
  apply (proj1 (proj2 (clamp_cases 7 0 5))). discriminate.
Defined.

Lemma Qfloor_nonneg (x : Q) : 0 <= x -> (0 <= Qfloor x)%Z.
Proof.
  intros H. apply Qfloor_resp_le in H. exact H.
Qed.

Lemma Qfloor_below (x : Q) (n : Z) : x < inject_Z n -> (Qfloor x < n)%Z.
Proof.
  intros H. rewrite Zlt_Qlt.
  apply Qle_lt_trans with (y := x); [apply Qfloor_le | exact H].
Qed.

Lemma randomInt_range (random : Q) (lo hi : Z) :
  0 <= random -> random < 1 -> (lo <= hi)%Z ->
  (lo <= Utils.randomInt random lo hi <= hi)%Z.
Proof.
  intros H0 H1 Hle. unfold Utils.randomInt.
  assert (Hn : 1 <= inject_Z (hi - lo + 1)).
  { change 1 with (inject_Z 1). rewrite <- Zle_Qle. lia. }
  assert (Hlow : (0 <= Qfloor (random * inject_Z (hi - lo + 1)))%Z).
  { apply Qfloor_nonneg. nra. }
  assert (Hhigh : (Qfloor (random * inject_Z (hi - lo + 1)) < hi - lo + 1)%Z).
  { apply Qfloor_below. nra. }
  lia.
Qed.

(** Property X5.  For a draw of [Math.random()], which lies in [0, 1):
    [randomInt(min, max)] with integers [min <= max] is an integer from
    [min] to [max], both included, and every such integer is the result for
    some draw; [randomRange(min, max)] with [min <= max] is not below [min]
    and not above [max].  That it stays below [max] is not stated: the
    rounding of the program's numbers can bring it to [max]. *)
Theorem random_results_in_range (random : Q) :
  0 <= random -> random < 1 ->
  (forall lo hi : Z,
     (lo <= hi)%Z ->
     (lo <= Utils.randomInt random lo hi <= hi)%Z)
  /\ (forall lo hi k : Z,
        (lo <= k <= hi)%Z ->
        exists r : Q, 0 <= r /\ r < 1 /\ Utils.randomInt r lo hi = k)
  /\ (forall lo hi : Q,
        lo <= hi ->
        lo <= Utils.randomRange random lo hi
        /\ Utils.randomRange random lo hi <= hi).
Proof.
  intros H0 H1. split; [| split].
  - intros lo hi Hle. apply randomInt_range; assumption.
  - intros lo hi k [Hlo Hhi].
    assert (Hn : 0 < inject_Z (hi - lo + 1)).
    { change 0 with (inject_Z 0). rewrite <- Zlt_Qlt. lia. }
    assert (Hk0 : 0 <= inject_Z (k - lo)).
    { change 0 with (inject_Z 0). rewrite <- Zle_Qle. lia. }
    assert (Hk1 : inject_Z (k - lo) < inject_Z (hi - lo + 1)).
    { rewrite <- Zlt_Qlt. lia. }
    exists ((inject_Z (k - lo) + (1 # 2)) / inject_Z (hi - lo + 1)).
    split; [| split].
    + apply Qle_shift_div_l; [exact Hn | lra].
    + apply Qlt_shift_div_r; [exact Hn |].
      assert (Hk2 : inject_Z (k - lo) + 1 <= inject_Z (hi - lo + 1)).
      { change 1 with (inject_Z 1) at 1. rewrite <- inject_Z_plus.
        rewrite <- Zle_Qle. lia. }
      lra.
    + unfold Utils.randomInt.
      assert (E : (inject_Z (k - lo) + (1 # 2)) / inject_Z (hi - lo + 1)
                  * inject_Z (hi - lo + 1) == inject_Z (k - lo) + (1 # 2)).
      { field. lra. }
      rewrite (Qfloor_comp _ _ E).
      assert (Hfloor : Qfloor (inject_Z (k - lo) + (1 # 2)) = (k - lo)%Z).
      { assert (Hlow : (k - lo <= Qfloor (inject_Z (k - lo) + (1 # 2)))%Z).
        { rewrite <- (Qfloor_Z (k - lo)) at 1. apply Qfloor_resp_le. lra. }
        assert (Hhigh : (Qfloor (inject_Z (k - lo) + (1 # 2)) < k - lo + 1)%Z).
        { apply Qfloor_below. rewrite inject_Z_plus.
          change (inject_Z 1) with 1. lra. }
        lia. }
      rewrite Hfloor. lia.
  - intros lo hi Hle. unfold Utils.randomRange. split; nra.
Qed.

Lemma random_results_in_range_witness :
  (0 <= Utils.randomInt (7 # 10) 0 3 <= 3)%Z.
Proof.
  apply (proj1 (random_results_in_range (7 # 10)
                  ltac:(discriminate) ltac:(reflexivity))).
  discriminate.
Defined.

(** ** EventBus *)

Lemma emit_on_same {Data : Type} (event : string)
    (callback : EventBus.Callback) (data : Data) (bus : EventBus.t) :
  EventBus.emit event data (EventBus.on event callback bus)
  = (EventBus.emit event data bus ++ [(callback, data)])%list.
Proof.
  unfold EventBus.emit, EventBus.on.
  destruct (EventBus.listeners bus !! event) as [callbacks |];
    cbn [EventBus.listeners]; rewrite lookup_insert_eq.
  - apply map_app.
  - reflexivity.
Qed.

Lemma emit_on_other {Data : Type} (event other : string)
    (callback : EventBus.Callback) (data : Data) (bus : EventBus.t) :
  other <> event ->
  EventBus.emit other data (EventBus.on event callback bus)
  = EventBus.emit other data bus.
Proof.
  intros Hne. unfold EventBus.emit, EventBus.on.
  destruct (EventBus.listeners bus !! event) as [callbacks |];
    cbn [EventBus.listeners]; rewrite lookup_insert_ne by congruence;
    reflexivity.
Qed.

(** Property X6.  [emit] calls the listeners of the event in the order in
    which [on] registered them, once for every registration, each with the
    data of the event; the listeners of another event are not called. *)
Theorem emit_calls_in_registration_order {Data : Type} (event : string)
    (callbacks : list EventBus.Callback) (data : Data) :
  forall bus : EventBus.t,
    EventBus.emit event data (subscribe event callbacks bus)
    = (EventBus.emit event data bus ++ callsOf data callbacks)%list
    /\ (forall other : string,
          other <> event ->
          EventBus.emit other data (subscribe event callbacks bus)
          = EventBus.emit other data bus).
Proof.
  induction callbacks as [| callback callbacks IH]; intros bus.
  - cbn. rewrite app_nil_r. auto.
  - cbn [subscribe fold_left callsOf map].
    destruct (IH (EventBus.on event callback bus)) as [Hsame Hother].
    unfold subscribe in Hsame, Hother. split.
    + rewrite Hsame, emit_on_same, <- app_assoc. reflexivity.
    + intros other Hne. rewrite (Hother other Hne).
      apply emit_on_other. exact Hne.
Qed.

Lemma indexOf_first (callback : EventBus.Callback)
    (before after : list EventBus.Callback) :
  ~ In callback before ->
  EventBus.indexOf callback (before ++ callback :: after)%list
  = Some (length before).
Proof.
  induction before as [| c before IH]; intros Hnot.
  - cbn. rewrite Nat.eqb_refl. reflexivity.
  - cbn [app EventBus.indexOf length].
    destruct (Nat.eqb c callback) eqn:E.
    + apply Nat.eqb_eq in E. exfalso. apply Hnot. left. exact E.
    + rewrite IH; [reflexivity |]. intros Hin. apply Hnot. right. exact Hin.
Qed.

Lemma indexOf_absent (callback : EventBus.Callback)
    (callbacks : list EventBus.Callback) :
  ~ In callback callbacks -> EventBus.indexOf callback callbacks = None.
Proof.
  induction callbacks as [| c callbacks IH]; intros Hnot; [reflexivity |].
  cbn [EventBus.indexOf]. destruct (Nat.eqb c callback) eqn:E.
  - apply Nat.eqb_eq in E. exfalso. apply Hnot. left. exact E.
  - rewrite IH; [reflexivity |]. intros Hin. apply Hnot. right. exact Hin.
Qed.

Lemma delete_middle_length {A : Type} (before after : list A) (x : A) :
  delete (length before) (before ++ x :: after)%list = (before ++ after)%list.
Proof.
  induction before as [| b before IH]; [reflexivity |].
  cbn. f_equal. exact IH.
Qed.

(** Property X7.  [off] takes out the earliest registration of the callback
    for the event and no other: the callbacks registered before it and
    after it are still called, in their order, and a callback that is
    registered twice is still called once.  The listeners of other events
    stay.  When the callback is not registered for the event, or nothing is
    registered for the event, [off] changes nothing.  After [clear] no
    listener of any event is called. *)
Theorem off_removes_earliest_registration {Data : Type} (event : string)
    (callback : EventBus.Callback) (bus : EventBus.t) :
  (forall (before after : list EventBus.Callback) (data : Data),
     EventBus.listeners bus !! event = Some (before ++ callback :: after)%list ->
     ~ In callback before ->
     EventBus.emit event data (EventBus.off event callback bus)
     = callsOf data (before ++ after)%list
     /\ (forall other : string,
           other <> event ->
           EventBus.emit other data (EventBus.off event callback bus)
           = EventBus.emit other data bus))
  /\ (~ registered event callback bus ->
      EventBus.off event callback bus = bus)
  /\ (forall (other : string) (data : Data),
        EventBus.emit other data (EventBus.clear bus) = []).
Proof.
  split; [| split].
  - intros before after data Hl Hnot. unfold EventBus.off, EventBus.emit.
    rewrite Hl, (indexOf_first _ _ _ Hnot), delete_middle_length.
    cbn [EventBus.listeners]. split.
    + rewrite lookup_insert_eq. reflexivity.
    + intros other Hne. rewrite lookup_insert_ne by congruence. reflexivity.
  - intros Hnot. unfold EventBus.off.
    destruct (EventBus.listeners bus !! event) as [callbacks |] eqn:Hl;
      [| reflexivity].
    rewrite indexOf_absent; [reflexivity |].
    intros Hin. apply Hnot. exists callbacks. auto.
  - intros other data. unfold EventBus.emit, EventBus.clear.
    cbn [EventBus.listeners]. rewrite lookup_empty. reflexivity.
Qed.

Lemma off_removes_earliest_registration_witness :
  EventBus.emit "hit" 5%nat
    (EventBus.off "hit" 2%nat (subscribe "hit" [1; 2; 3; 2]%nat EventBus.new))
  = [(1, 5); (3, 5); (2, 5)]%nat.
Proof.
  apply (proj1 (off_removes_earliest_registration (Data := nat) "hit" 2%nat
                  (subscribe "hit" [1; 2; 3; 2]%nat EventBus.new))
           [1%nat] [3; 2]%nat 5%nat).
  - reflexivity.
  - intros [H | []]. discriminate H.
Defined.

(** Property X8.  Registering a callback that is not yet registered for the
    event and taking it off again leaves every [emit] as it was.  For a
    callback that is registered already this fails: [on] adds at the end
    and [off] removes the earliest registration, so the order of the calls
    changes. *)
Theorem on_then_off_restores_emit (event : string)
    (callback : EventBus.Callback) (bus : EventBus.t) :
  (~ registered event callback bus ->
   forall (Data : Type) (other : string) (data : Data),
     EventBus.emit other data
       (EventBus.off event callback (EventBus.on event callback bus))
     = EventBus.emit other data bus)
  /\ exists (bus' : EventBus.t) (cb : EventBus.Callback),
       registered "e" cb bus'
       /\ EventBus.emit "e" tt (EventBus.off "e" cb (EventBus.on "e" cb bus'))
          <> EventBus.emit "e" tt bus'.
Proof.
  split.
  - intros Hnot Data other data.
    unfold EventBus.on.
    destruct (EventBus.listeners bus !! event) as [callbacks |] eqn:Hl.
    + assert (Hout : ~ In callback callbacks).
      { intros Hin. apply Hnot. exists callbacks. auto. }
      unfold EventBus.off, EventBus.emit. cbn [EventBus.listeners].
      rewrite lookup_insert_eq, (indexOf_first _ _ [] Hout),
        delete_middle_length, app_nil_r.
      cbn [EventBus.listeners].
      destruct (decide (other = event)) as [-> | Hne].
      * rewrite lookup_insert_eq, Hl. reflexivity.
      * rewrite !lookup_insert_ne by congruence. reflexivity.
    + unfold EventBus.off, EventBus.emit. cbn [EventBus.listeners].
      rewrite lookup_insert_eq. cbn [EventBus.indexOf].
      rewrite Nat.eqb_refl. cbn [EventBus.listeners].
      destruct (decide (other = event)) as [-> | Hne].
      * rewrite lookup_insert_eq, Hl. reflexivity.
      * rewrite !lookup_insert_ne by congruence. reflexivity.
  - exists (subscribe "e" [1; 2]%nat EventBus.new), 1%nat. split.
    + exists [1; 2]%nat. split; [reflexivity | left; reflexivity].
    + vm_compute. discriminate.
Qed.

Lemma on_then_off_restores_emit_witness :
  EventBus.emit "hit" tt
    (EventBus.off "hit" 9%nat
       (EventBus.on "hit" 9%nat (subscribe "hit" [1; 2]%nat EventBus.new)))
  = EventBus.emit "hit" tt (subscribe "hit" [1; 2]%nat EventBus.new).
Proof.
  apply (proj1 (on_then_off_restores_emit "hit" 9%nat
                  (subscribe "hit" [1; 2]%nat EventBus.new))).
  intros [callbacks [Hl Hin]]. vm_compute in Hl. injection Hl as <-.
  destruct Hin as [H | [H | []]]; discriminate H.
Defined.

(** ** The state machine *)

Lemma GAME_STATES_eqb_eq (a b : GAME_STATES) :
  GAME_STATES_eqb a b = true <-> a = b.
Proof. destruct a, b; cbn; split; intros H; congruence. Qed.

Lemma setState_current (s : GAME_STATES) (m : GameStateMachine.t) :
  GameStateMachine.currentState (GameStateMachine.setState s m) = s.
Proof.
  unfold GameStateMachine.setState.
  destruct (GAME_STATES_eqb (GameStateMachine.currentState m) s) eqn:E;
    [apply GAME_STATES_eqb_eq in E; exact E | reflexivity].
Qed.

Lemma setState_previous_differs (s : GAME_STATES) (m : GameStateMachine.t) :
  GameStateMachine.previousState m <> Some (GameStateMachine.currentState m) ->
  GameStateMachine.previousState (GameStateMachine.setState s m)
  <> Some (GameStateMachine.currentState (GameStateMachine.setState s m)).
Proof.
  intros Hinv. unfold GameStateMachine.setState.
  destruct (GAME_STATES_eqb (GameStateMachine.currentState m) s) eqn:E;
    [exact Hinv |].
  cbn. intros [= H]. apply GAME_STATES_eqb_eq in H. congruence.
Qed.

(** Property X9.  Over any list of [setState] requests, on a machine whose
    previous state is not its current state (as on a new machine): the
    previous state is never the current state; after a list that is not
    empty the current state is the last state requested; and a subscriber
    of ['stateChanged'] is called once for every change of state, in order,
    with the state left and the state entered, and not at all for a request
    of the state the machine is in. *)
Theorem state_changes_are_announced_once (requests : list GAME_STATES) :
  forall m : GameStateMachine.t,
    GameStateMachine.previousState m
    <> Some (GameStateMachine.currentState m) ->
    GameStateMachine.previousState (requestAll requests m)
    <> Some (GameStateMachine.currentState (requestAll requests m))
    /\ (requests <> [] ->
        last requests
        = Some (GameStateMachine.currentState (requestAll requests m)))
    /\ (forall subscriber : EventBus.Callback,
          announced requests m
            (EventBus.on "stateChanged" subscriber EventBus.new)
          = callsOfEach subscriber
              (changes requests (GameStateMachine.currentState m)))
    /\ Forall (fun change => fst change <> Some (snd change))
              (changes requests (GameStateMachine.currentState m)).
Proof.
  induction requests as [| s requests IH]; intros m Hinv.
  - cbn. split; [exact Hinv |]. split; [congruence |].
    split; [reflexivity | constructor].
  - destruct (IH (GameStateMachine.setState s m)
                (setState_previous_differs s m Hinv))
      as (IH1 & IH2 & IH3 & IH4).
    rewrite setState_current in IH3, IH4.
    split; [exact IH1 |]. split; [| split].
    + intros _. destruct requests as [| s' requests'].
      * cbn. rewrite setState_current. reflexivity.
      * specialize (IH2 ltac:(discriminate)). exact IH2.
    + intros subscriber. cbn [announced changes]. rewrite IH3.
      unfold GameStateMachine.setState_emit, GameStateMachine.setState.
      destruct (GAME_STATES_eqb (GameStateMachine.currentState m) s) eqn:E.
      * apply GAME_STATES_eqb_eq in E. subst s. reflexivity.
      * reflexivity.
    + cbn [changes].
      destruct (GAME_STATES_eqb (GameStateMachine.currentState m) s) eqn:E.
      * apply GAME_STATES_eqb_eq in E. subst s. exact IH4.
      * constructor; [| exact IH4]. cbn. intros [= H].
        apply GAME_STATES_eqb_eq in H. congruence.
Qed.

Lemma state_changes_are_announced_once_witness :
  announced [PLAYING; PLAYING; GAME_OVER; PLAYING] GameStateMachine.new
    (EventBus.on "stateChanged" 1%nat EventBus.new)
  = callsOfEach 1%nat
      [(Some BOOT, PLAYING); (Some PLAYING, GAME_OVER);
       (Some GAME_OVER, PLAYING)].
Proof.
  apply (proj1 (proj2 (proj2 (state_changes_are_announced_once
                                [PLAYING; PLAYING; GAME_OVER; PLAYING]
                                GameStateMachine.new
                                ltac:(discriminate))))).
Defined.

(** ** Move vectors *)

Section MoveVectors.

Import Reals Qreals.
Local Open Scope R_scope.

Lemma ratioValue_neg (v : Ratio) :
  ratioValue (ratio_neg v) = - ratioValue v.
Proof.
  destruct v as [q | q r]; cbn [ratioValue ratio_neg]; rewrite Q2R_opp;
    [reflexivity |].
  unfold Rdiv. ring.
Qed.

Lemma squaredLength_flip (v : Ratio * Ratio) :
  squaredLength (fst v, ratio_neg (snd v)) = squaredLength v.
Proof.
  unfold squaredLength. cbn [fst snd]. rewrite ratioValue_neg. ring.
Qed.

Lemma squaredLength_zero :
  squaredLength (Plain 0%Q, Plain 0%Q) = 0.
Proof.
  unfold squaredLength. cbn [fst snd ratioValue].
  rewrite RMicromega.Q2R_0. ring.
Qed.

Lemma squaredLength_over (x y d : Q) :
  (0 < d)%Q -> (d == x * x + y * y)%Q ->
  squaredLength (Over x (SquareRoot d), Over y (SquareRoot d)) = 1.
Proof.
  intros Hd Hsum. apply Qlt_Rlt in Hd. rewrite RMicromega.Q2R_0 in Hd.
  apply Qeq_eqR in Hsum. rewrite Q2R_plus, !Q2R_mult in Hsum.
  unfold squaredLength. cbn [fst snd ratioValue].
  unfold valueOf. cbn [radicand]. set (s := sqrt (Q2R d)).
  assert (Hss : s * s = Q2R d) by (apply sqrt_sqrt; Lra.lra).
  assert (Hs : s <> 0).
  { intros E. rewrite E in Hss. Lra.lra. }
  replace (Q2R x / s * (Q2R x / s) + Q2R y / s * (Q2R y / s))
    with ((Q2R x * Q2R x + Q2R y * Q2R y) / (s * s)) by (field; exact Hs).
  rewrite Hss, <- Hsum. field. Lra.lra.
Qed.

Lemma radicand_zero (x y : Q) :
  (x * x + y * y == 0)%Q <-> (x == 0)%Q /\ (y == 0)%Q.
Proof.
  split.
  - intros H. split; nra.
  - intros [Hx Hy]. rewrite Hx, Hy. reflexivity.
Qed.

(** Property X10.  [normalize(x, y)] is the zero vector for the zero
    vector, and otherwise a vector of length one in the direction of
    [(x, y)]: both components are those of [(x, y)] divided by one positive
    length. *)
Theorem normalize_gives_a_unit_vector (x y : Q) :
  ((x == 0)%Q /\ (y == 0)%Q ->
   Utils.normalize x y = (Plain 0%Q, Plain 0%Q))
  /\ (~ ((x == 0)%Q /\ (y == 0)%Q) ->
      squaredLength (Utils.normalize x y) = 1
      /\ exists length : R,
           0 < length
           /\ ratioValue (fst (Utils.normalize x y)) = Q2R x / length
           /\ ratioValue (snd (Utils.normalize x y)) = Q2R y / length).
Proof.
  unfold Utils.normalize, Math_sqrt. cbn [radicand]. split.
  - intros H. apply radicand_zero in H. apply Qeq_bool_iff in H.
    rewrite H. reflexivity.
  - intros H. rewrite <- radicand_zero in H.
    destruct (Qeq_bool (x * x + y * y) 0) eqn:E;
      [apply Qeq_bool_iff in E; contradiction |].
    assert (Hpos : (0 < x * x + y * y)%Q).
    { assert (0 <= x * x + y * y)%Q by nra.
      destruct (Qlt_le_dec 0 (x * x + y * y)) as [Hlt | Hle]; [exact Hlt |].
      exfalso. apply H. lra. }
    split.
    + apply squaredLength_over; [exact Hpos | reflexivity].
    + exists (valueOf (SquareRoot (x * x + y * y))). split.
      * unfold valueOf. cbn [radicand]. apply sqrt_lt_R0.
        apply Qlt_Rlt in Hpos. rewrite RMicromega.Q2R_0 in Hpos. exact Hpos.
      * split; reflexivity.
Qed.

Lemma normalize_gives_a_unit_vector_witness :
  squaredLength (Utils.normalize 3 4) = 1.
Proof.
  apply (proj2 (normalize_gives_a_unit_vector 3 4)).
  intros [H _]. discriminate H.
Defined.

Lemma squaredLength_plain (x y : Q) :
  squaredLength (Plain x, Plain y) = Q2R (x * x + y * y).
Proof.
  unfold squaredLength. cbn [fst snd ratioValue].
  rewrite Q2R_plus, !Q2R_mult. reflexivity.
Qed.

Lemma keyboard_vector_cases (this : KeyboardMouseProvider.t) :
  (balanced this
   /\ KeyboardMouseProvider.moveVector this = (Plain 0%Q, Plain 0%Q))
  \/ (~ balanced this
      /\ squaredLength (KeyboardMouseProvider.moveVector this) = 1
      /\ (ratio_abs_gt_num (fst (KeyboardMouseProvider.moveVector this)) 0.01
          || ratio_abs_gt_num (snd (KeyboardMouseProvider.moveVector this))
               0.01)%bool = true).
Proof.
  remember (KeyboardMouseProvider.moveVector this) as v eqn:Hv.
  unfold KeyboardMouseProvider.moveVector in Hv. unfold balanced.
  destruct (bool_decide ("left" ∈ KeyboardMouseProvider.keys this)) eqn:El;
    [apply bool_decide_eq_true in El | apply bool_decide_eq_false in El];
  (destruct (bool_decide ("right" ∈ KeyboardMouseProvider.keys this)) eqn:Er;
    [apply bool_decide_eq_true in Er | apply bool_decide_eq_false in Er]);
  (destruct (bool_decide ("up" ∈ KeyboardMouseProvider.keys this)) eqn:Eu;
    [apply bool_decide_eq_true in Eu | apply bool_decide_eq_false in Eu]);
  (destruct (bool_decide ("down" ∈ KeyboardMouseProvider.keys this)) eqn:Ed;
    [apply bool_decide_eq_true in Ed | apply bool_decide_eq_false in Ed]);
  vm_compute in Hv; subst v;
  first
    [ left; split; [tauto | reflexivity]
    | right; split; [tauto |]; split; [| reflexivity];
      first
        [ rewrite squaredLength_plain; rewrite <- RMicromega.Q2R_1;
          apply Qeq_eqR; reflexivity
        | apply squaredLength_over; reflexivity ] ].
Qed.

Lemma gesture_vector_cases (results : Results) :
  squaredLength (GestureInputManager.moveVector results) = 1
  \/ GestureInputManager.moveVector results = (Plain 0%Q, Plain 0%Q).
Proof.
  unfold GestureInputManager.moveVector.
  destruct (GestureInputManager.rightFingerTip _) as [tip |]; [| right; reflexivity].
  cbv zeta.
  destruct (root_gt_num _ 0.05) eqn:E; [| right; reflexivity].
  left. unfold root_gt_num, Math_sqrt in E. cbn [radicand] in E.
  apply orb_true_iff in E. destruct E as [E | E]; [discriminate E |].
  apply Qltb_true in E.
  apply squaredLength_over; [| reflexivity].
  eapply Qlt_trans; [| exact E]. reflexivity.
Qed.

Lemma final_vector_cases (this : KeyboardMouseProvider.t)
    (results : Results) (g : Game.t) :
  let keyboardVector := KeyboardMouseProvider.moveVector this in
  let gestureMove := GestureInputManager.moveVector results in
  let final := Game.finalVector keyboardVector gestureMove g in
  (squaredLength final = 1 \/ squaredLength final = 0)
  /\ (balanced this <-> keyboardVector = (Plain 0%Q, Plain 0%Q))
  /\ (~ balanced this ->
      squaredLength keyboardVector = 1 /\ final = keyboardVector)
  /\ (balanced this ->
      final
      = if GestureInputManager.initialized (Game.gestureInput g)
        then GestureInputManager.getMoveVector gestureMove
        else (Plain 0%Q, Plain 0%Q)).
Proof.
  intros keyboardVector gestureMove final.
  assert (Hg : squaredLength (GestureInputManager.getMoveVector gestureMove) = 1
               \/ squaredLength (GestureInputManager.getMoveVector gestureMove)
                  = 0).
  { unfold GestureInputManager.getMoveVector.
    rewrite squaredLength_flip.
    destruct (gesture_vector_cases results) as [H | H]; [left; exact H |].
    right. unfold gestureMove. rewrite H. apply squaredLength_zero. }
  destruct (keyboard_vector_cases this) as [[Hb Hk] | [Hb [Hk Ha]]].
  - assert (Hfinal : final
                     = if GestureInputManager.initialized (Game.gestureInput g)
                       then GestureInputManager.getMoveVector gestureMove
                       else (Plain 0%Q, Plain 0%Q)).
    { unfold final, Game.finalVector, keyboardVector. rewrite Hk.
      reflexivity. }
    split; [| split; [| split]].
    + rewrite Hfinal.
      destruct (GestureInputManager.initialized (Game.gestureInput g));
        [exact Hg | right; apply squaredLength_zero].
    + split; intros _; assumption.
    + intros Hn. contradiction.
    + intros _. exact Hfinal.
  - assert (Hfinal : final = keyboardVector).
    { unfold final, Game.finalVector. fold keyboardVector in Ha.
      rewrite Ha. reflexivity. }
    split; [| split; [| split]].
    + left. rewrite Hfinal. exact Hk.
    + split; [intros H; contradiction |].
      intros H. unfold keyboardVector in H. rewrite H in Hk.
      rewrite squaredLength_zero in Hk. Lra.lra.
    + intros _. split; assumption.
    + intros H. contradiction.
Qed.

Lemma gesture_vector_threshold (results : Results) (tip : Vec2) :
  GestureInputManager.rightFingerTip (GestureInputManager.scanHands results)
  = Some tip ->
  let dx := (- (vx tip - vx GestureInputManager.center))%Q in
  let dy := (- (vy tip - vy GestureInputManager.center))%Q in
  let magnitude := Math_sqrt (dx * dx + dy * dy) in
  (Q2R 0.05%Q < valueOf magnitude ->
   GestureInputManager.moveVector results
   = (Over dx magnitude, Over dy magnitude)
   /\ squaredLength (GestureInputManager.moveVector results) = 1)
  /\ (valueOf magnitude <= Q2R 0.05%Q ->
      GestureInputManager.moveVector results = (Plain 0%Q, Plain 0%Q)).
Proof.
  intros Htip dx dy magnitude.
  assert (Hnn : (0 <= radicand magnitude)%Q)
    by exact (hypot_radicand_nonneg dx dy).
  pose proof (root_gt_num_sound magnitude 0.05%Q Hnn) as Hsound.
  assert (Hmove : GestureInputManager.moveVector results
                  = if root_gt_num magnitude 0.05%Q
                    then (Over dx magnitude, Over dy magnitude)
                    else (Plain 0%Q, Plain 0%Q)).
  { unfold GestureInputManager.moveVector. rewrite Htip. reflexivity. }
  split.
  - intros Hfar. apply Hsound in Hfar. rewrite Hmove, Hfar.
    split; [reflexivity |].
    unfold root_gt_num, Math_sqrt in Hfar.
    apply orb_true_iff in Hfar. destruct Hfar as [E | E]; [discriminate E |].
    apply Qltb_true in E.
    apply squaredLength_over; [| reflexivity].
    eapply Qlt_trans; [| exact E]. reflexivity.
  - intros Hnear. rewrite Hmove.
    destruct (root_gt_num magnitude 0.05%Q) eqn:E; [| reflexivity].
    pose proof (proj1 Hsound eq_refl) as Hfar. Lra.lra.
Qed.

(** Property X11.  The vector that moves the player has length one or is
    zero.  The keyboard's vector is zero exactly when the direction keys
    held are balanced (left with right, up with down) and has length one
    otherwise, a diagonal too; then it is the vector used, whatever the
    gesture.  With balanced keys the gesture's vector is used, with its
    second component negated, when the gesture input is initialised, and
    the zero vector otherwise.  The gesture's vector is zero when no right
    index fingertip is seen, and when the fingertip is no farther than 0.05
    from the reference point; when it is farther, the vector is the
    mirrored offset of the fingertip from the reference point divided by
    its length, of length one. *)
Theorem move_vector_is_unit_or_zero (this : KeyboardMouseProvider.t)
    (results : Results) (g : Game.t) :
  let keyboardVector := KeyboardMouseProvider.moveVector this in
  let gestureMove := GestureInputManager.moveVector results in
  let final := Game.finalVector keyboardVector gestureMove g in
  (squaredLength final = 1 \/ squaredLength final = 0)
  /\ (balanced this <-> keyboardVector = (Plain 0%Q, Plain 0%Q))
  /\ (~ balanced this ->
      squaredLength keyboardVector = 1 /\ final = keyboardVector)
  /\ (balanced this ->
      final
      = if GestureInputManager.initialized (Game.gestureInput g)
        then GestureInputManager.getMoveVector gestureMove
        else (Plain 0%Q, Plain 0%Q))
  /\ (GestureInputManager.rightFingerTip
        (GestureInputManager.scanHands results) = None ->
      gestureMove = (Plain 0%Q, Plain 0%Q))
  /\ (forall tip : Vec2,
        GestureInputManager.rightFingerTip
          (GestureInputManager.scanHands results) = Some tip ->
        let dx := (- (vx tip - vx GestureInputManager.center))%Q in
        let dy := (- (vy tip - vy GestureInputManager.center))%Q in
        let magnitude := Math_sqrt (dx * dx + dy * dy) in
        (Q2R 0.05%Q < valueOf magnitude ->
         gestureMove = (Over dx magnitude, Over dy magnitude)
         /\ squaredLength gestureMove = 1
         /\ squaredLength (GestureInputManager.getMoveVector gestureMove)
            = 1)
        /\ (valueOf magnitude <= Q2R 0.05%Q ->
            gestureMove = (Plain 0%Q, Plain 0%Q))).
Proof.
  intros keyboardVector gestureMove final.
  destruct (final_vector_cases this results g) as (H1 & H2 & H3 & H4).
  split; [exact H1 |]. split; [exact H2 |]. split; [exact H3 |].
  split; [exact H4 |]. split.
  - intros Hnone. unfold gestureMove, GestureInputManager.moveVector.
    rewrite Hnone. reflexivity.
  - intros tip Htip dx dy magnitude.
    destruct (gesture_vector_threshold results tip Htip) as [Hfar Hnear].
    split; [| exact Hnear].
    intros Hgt. destruct (Hfar Hgt) as [Hv Hunit].
    split; [exact Hv |]. split; [exact Hunit |].
    unfold GestureInputManager.getMoveVector.
    rewrite squaredLength_flip. exact Hunit.
Qed.

(** A diagonal of the keyboard, and a right hand held to the upper left of
    the reference point with no key down. *)
Lemma move_vector_is_unit_or_zero_witness :
  squaredLength (KeyboardMouseProvider.moveVector (holding ["up"; "right"]))
  = 1
  /\ Game.finalVector
       (KeyboardMouseProvider.moveVector KeyboardMouseProvider.new)
       (GestureInputManager.moveVector
          (handAt "Right" {| vx := 0.5; vy := 0.5 |}))
       gestureGame
     = GestureInputManager.getMoveVector
         (GestureInputManager.moveVector
            (handAt "Right" {| vx := 0.5; vy := 0.5 |}))
  /\ squaredLength
       (GestureInputManager.getMoveVector
          (GestureInputManager.moveVector
             (handAt "Right" {| vx := 0.5; vy := 0.5 |})))
     = 1.
Proof.
  split; [| split].
  - apply (proj1 (proj2 (proj2 (move_vector_is_unit_or_zero
                                  (holding ["up"; "right"])
                                  (handAt "Right" {| vx := 0.5; vy := 0.5 |})
                                  gestureGame)))).
    intros [H _].
    assert (Hr : "right"
                 ∈ KeyboardMouseProvider.keys (holding ["up"; "right"])).
    { apply (proj1 (bool_decide_eq_true _)). vm_compute. reflexivity. }
    apply H in Hr. revert Hr.
    apply (proj1 (bool_decide_eq_false _)). vm_compute. reflexivity.
  - apply (proj1 (proj2 (proj2 (proj2 (move_vector_is_unit_or_zero
                                         KeyboardMouseProvider.new
                                         (handAt "Right"
                                            {| vx := 0.5; vy := 0.5 |})
                                         gestureGame))))).
    split; split; intros Hin; exfalso; revert Hin;
      apply (proj1 (bool_decide_eq_false _)); vm_compute; reflexivity.
  - refine (proj2 (proj2 (proj1
             (proj2 (proj2 (proj2 (proj2 (proj2
                (move_vector_is_unit_or_zero KeyboardMouseProvider.new
                   (handAt "Right" {| vx := 0.5; vy := 0.5 |})
                   gestureGame)))))
                {| vx := 0.5; vy := 0.5 |} eq_refl) _))).
    apply root_gt_num_sound; [apply hypot_radicand_nonneg | reflexivity].
Defined.

End MoveVectors.

(** ** The provider registry *)

Lemma setActiveProvider_known (name : string) (p : Provider.t)
    (im : InputManager.t) :
  InputManager.providers im !! name = Some p ->
  InputManager.setActiveProvider name im
  = {| InputManager.providers := InputManager.providers im;
       InputManager.activeProvider := Some p;
       InputManager.fallbackProvider := InputManager.fallbackProvider im;
       InputManager.input := InputManager.input im;
       InputManager.console := InputManager.console im;
       InputManager.hooks :=
         (activation p ++ deactivation (InputManager.activeProvider im)
          ++ InputManager.hooks im)%list |}.
Proof.
  intros Hp. unfold InputManager.setActiveProvider, activation, deactivation.
  rewrite Hp.
  destruct (InputManager.activeProvider im) as [old |];
    [destruct (Provider.has_deactivate old) |];
    destruct (Provider.has_activate p); reflexivity.
Qed.

Lemma register_when_active (r : Registration) (im : InputManager.t)
    (p : Provider.t) :
  InputManager.activeProvider im = Some p ->
  InputManager.activeProvider (register im r) = Some p
  /\ InputManager.hooks (register im r) = InputManager.hooks im
  /\ InputManager.fallbackProvider (register im r)
     = (if regIsFallback r then Some (regProvider r)
        else InputManager.fallbackProvider im)
  /\ InputManager.providers (register im r)
     = <[regName r := regProvider r]> (InputManager.providers im)
  /\ InputManager.input (register im r) = InputManager.input im.
Proof.
  intros Ha. unfold register, InputManager.registerProvider.
  cbn [InputManager.activeProvider]. rewrite Ha. cbn. auto.
Qed.

Lemma registerAll_when_active (rs : list Registration) :
  forall (im : InputManager.t) (p : Provider.t),
    InputManager.activeProvider im = Some p ->
    InputManager.activeProvider (registerAll rs im) = Some p
    /\ InputManager.hooks (registerAll rs im) = InputManager.hooks im
    /\ InputManager.fallbackProvider (registerAll rs im)
       = lastFallback rs (InputManager.fallbackProvider im)
    /\ (forall name : string,
          InputManager.providers (registerAll rs im) !! name
          = lastUnder name rs (InputManager.providers im !! name)).
Proof.
  induction rs as [| r rs IH]; intros im p Ha.
  - cbn. auto.
  - destruct (register_when_active r im p Ha) as (H1 & H2 & H3 & H4 & _).
    destruct (IH (register im r) p H1) as (I1 & I2 & I3 & I4).
    unfold registerAll, lastFallback, lastUnder in *. cbn [fold_left].
    split; [exact I1 |]. split; [rewrite I2; exact H2 |]. split.
    + rewrite I3, H3. reflexivity.
    + intros name. rewrite I4, H4.
      destruct (String.eqb (regName r) name) eqn:E.
      * apply String.eqb_eq in E. subst name. rewrite lookup_insert_eq.
        reflexivity.
      * apply String.eqb_neq in E. rewrite lookup_insert_ne by exact E.
        reflexivity.
Qed.

(** Property X12.  The provider registered first on a new manager becomes
    the active one, with its [activate] hook called once, and stays active
    through every later registration: no later registration calls a hook,
    also not one under the name of the active provider, which replaces the
    entry of the name and leaves the replaced object active.  The fallback
    is the provider of the last registration that asked for it, and a name
    gives the provider registered under it last.  [setActiveProvider] with
    a name that is not registered changes nothing; with a registered name
    it deactivates the active provider, then activates the named one. *)
Theorem first_registered_provider_stays_active (first : Registration)
    (later : list Registration) :
  let im := registerAll (first :: later) InputManager.new in
  InputManager.activeProvider im = Some (regProvider first)
  /\ InputManager.hooks im = activation (regProvider first)
  /\ InputManager.fallbackProvider im = lastFallback (first :: later) None
  /\ (forall name : string,
        InputManager.providers im !! name
        = lastUnder name (first :: later) None)
  /\ (forall name : string,
        InputManager.providers im !! name = None ->
        InputManager.setActiveProvider name im = im)
  /\ (forall (name : string) (p : Provider.t),
        InputManager.providers im !! name = Some p ->
        InputManager.activeProvider (InputManager.setActiveProvider name im)
        = Some p
        /\ InputManager.hooks (InputManager.setActiveProvider name im)
           = (activation p ++ deactivation (Some (regProvider first))
              ++ activation (regProvider first))%list).
Proof.
  intros im.
  assert (Hfirst : register InputManager.new first
                   = {| InputManager.providers :=
                          <[regName first := regProvider first]> ∅;
                        InputManager.activeProvider :=
                          Some (regProvider first);
                        InputManager.fallbackProvider :=
                          if regIsFallback first
                          then Some (regProvider first) else None;
                        InputManager.input := initialInputState;
                        InputManager.console := [];
                        InputManager.hooks := activation (regProvider first)
                     |}).
  { unfold register, InputManager.registerProvider.
    cbn [InputManager.activeProvider InputManager.new].
    rewrite (setActiveProvider_known (regName first) (regProvider first))
      by (cbn; apply lookup_insert_eq).
    cbn. rewrite app_nil_r. reflexivity. }
  destruct (registerAll_when_active later (register InputManager.new first)
              (regProvider first))
    as (H1 & H2 & H3 & H4).
  { rewrite Hfirst. reflexivity. }
  assert (Eh : InputManager.hooks (register InputManager.new first)
               = activation (regProvider first))
    by (rewrite Hfirst; reflexivity).
  assert (Ef : InputManager.fallbackProvider (register InputManager.new first)
               = lastFallback [first] None)
    by (rewrite Hfirst; reflexivity).
  assert (Ep : InputManager.providers (register InputManager.new first)
               = <[regName first := regProvider first]> ∅)
    by (rewrite Hfirst; reflexivity).
  rewrite Eh in H2. rewrite Ef in H3.
  change (registerAll later (register InputManager.new first)) with im
    in H1, H2, H3, H4.
  split; [exact H1 |]. split; [exact H2 |]. split; [exact H3 |]. split.
  - intros name. rewrite H4, Ep. unfold lastUnder. cbn [fold_left].
    destruct (String.eqb (regName first) name) eqn:E.
    + apply String.eqb_eq in E. subst name. rewrite lookup_insert_eq.
      reflexivity.
    + apply String.eqb_neq in E. rewrite lookup_insert_ne by exact E.
      reflexivity.
  - split.
    + intros name Hnone. unfold InputManager.setActiveProvider.
      rewrite Hnone. reflexivity.
    + intros name p Hp. rewrite (setActiveProvider_known name p im Hp).
      cbn [InputManager.activeProvider InputManager.hooks].
      rewrite H1, H2. split; reflexivity.
Qed.

(** ** Key events *)

Lemma keyMap_actions (code action : string) :
  KeyboardMouseProvider.keyMap !! code = Some action ->
  action = "switchWeapon" \/ action = "creatorMode" \/ In action heldActions.
Proof.
  intros H. apply elem_of_list_to_map_2 in H.
  repeat (apply elem_of_cons in H; destruct H as [H | H];
          [injection H as _ ->; cbn; tauto |]).
  apply elem_of_nil in H. contradiction.
Qed.

Lemma elem_of_added (a b : string) (X : gset string) :
  a ∈ ({[b]} ∪ X : gset string) <-> a = b \/ a ∈ X.
Proof. rewrite elem_of_union, elem_of_singleton. reflexivity. Qed.

Lemma elem_of_removed (a b : string) (X : gset string) :
  a ∈ (X ∖ {[b]} : gset string) <-> a ∈ X /\ a <> b.
Proof. rewrite elem_of_difference, not_elem_of_singleton. reflexivity. Qed.

Lemma keyStep_keys (action : string) (e : KeyEvent)
    (kb : KeyboardMouseProvider.t) (im : InputManager.t) :
  In action heldActions ->
  bool_decide (action ∈ KeyboardMouseProvider.keys (fst (keyStep (kb, im) e)))
  = lastWasDown action [e]
      (bool_decide (action ∈ KeyboardMouseProvider.keys kb)).
Proof.
  intros Hin.
  assert (Hsw : action <> "switchWeapon")
    by (intros ->; cbn in Hin; intuition discriminate).
  assert (Hcm : action <> "creatorMode")
    by (intros ->; cbn in Hin; intuition discriminate).
  destruct e as [now code | code | button | button | deltaTime];
    cbn [keyStep lastWasDown]; try reflexivity.
  - unfold KeyboardMouseProvider.handleKeyDown.
    destruct (KeyboardMouseProvider.keyMap !! code) as [a |] eqn:Ek.
    + destruct (String.eqb a "switchWeapon") eqn:E1.
      { apply String.eqb_eq in E1. subst a.
        rewrite (bool_decide_eq_false_2 (_ = _)) by congruence.
        destruct (_ && _); reflexivity. }
      destruct (String.eqb a "creatorMode") eqn:E2.
      { apply String.eqb_eq in E2. subst a.
        rewrite (bool_decide_eq_false_2 (_ = _)) by congruence.
        destruct (_ && _); reflexivity. }
      cbn [fst KeyboardMouseProvider.keys].
      destruct (decide (a = action)) as [-> | Hne].
      * rewrite (bool_decide_eq_true_2 (_ = _)) by reflexivity.
        apply bool_decide_eq_true_2. apply elem_of_added. left. reflexivity.
      * rewrite (bool_decide_eq_false_2 (_ = _)) by congruence.
        apply bool_decide_ext. rewrite elem_of_added. clear Hin.
        intuition congruence.
    + rewrite (bool_decide_eq_false_2 (_ = _)) by congruence. reflexivity.
  - unfold KeyboardMouseProvider.handleKeyUp.
    destruct (KeyboardMouseProvider.keyMap !! code) as [a |] eqn:Ek.
    + destruct (String.eqb a "switchWeapon") eqn:E1.
      { apply String.eqb_eq in E1. subst a.
        rewrite (bool_decide_eq_false_2 (_ = _)) by congruence. reflexivity. }
      destruct (String.eqb a "creatorMode") eqn:E2.
      { apply String.eqb_eq in E2. subst a.
        rewrite (bool_decide_eq_false_2 (_ = _)) by congruence. reflexivity. }
      cbn [negb andb fst KeyboardMouseProvider.keys].
      destruct (decide (a = action)) as [-> | Hne].
      * rewrite (bool_decide_eq_true_2 (_ = _)) by reflexivity.
        apply bool_decide_eq_false_2. rewrite elem_of_removed. tauto.
      * rewrite (bool_decide_eq_false_2 (_ = _)) by congruence.
        apply bool_decide_ext. rewrite elem_of_removed. clear Hin.
        intuition congruence.
    + rewrite (bool_decide_eq_false_2 (_ = _)) by congruence. reflexivity.
Qed.

Lemma keyStep_pickup (e : KeyEvent) (kb : KeyboardMouseProvider.t)
    (im : InputManager.t) :
  pickup (InputManager.input im)
  = bool_decide ("pickup" ∈ KeyboardMouseProvider.keys kb) ->
  pickup (InputManager.input (snd (keyStep (kb, im) e)))
  = bool_decide ("pickup" ∈ KeyboardMouseProvider.keys
                               (fst (keyStep (kb, im) e))).
Proof.
  intros Hinv.
  destruct e as [now code | code | button | button | deltaTime];
    cbn [keyStep]; try exact Hinv; try reflexivity.
  - unfold KeyboardMouseProvider.handleKeyDown.
    destruct (KeyboardMouseProvider.keyMap !! code) as [a |] eqn:Ek;
      [| exact Hinv].
    destruct (String.eqb a "switchWeapon") eqn:E1.
    { destruct (_ && _); [| exact Hinv]. exact Hinv. }
    destruct (String.eqb a "creatorMode") eqn:E2.
    { destruct (_ && _); [| exact Hinv]. exact Hinv. }
    cbn [fst snd KeyboardMouseProvider.keys].
    destruct (String.eqb a "pickup") eqn:E3.
    + apply String.eqb_eq in E3. subst a. cbn.
      symmetry. apply bool_decide_eq_true_2. apply elem_of_added. left.
      reflexivity.
    + apply String.eqb_neq in E3. rewrite Hinv.
      apply bool_decide_ext. rewrite elem_of_added. intuition congruence.
  - unfold KeyboardMouseProvider.handleKeyUp.
    destruct (KeyboardMouseProvider.keyMap !! code) as [a |] eqn:Ek;
      [| exact Hinv].
    destruct (negb (String.eqb a "switchWeapon")
              && negb (String.eqb a "creatorMode")); [| exact Hinv].
    cbn [fst snd KeyboardMouseProvider.keys].
    destruct (String.eqb a "pickup") eqn:E3.
    + apply String.eqb_eq in E3. subst a. cbn.
      symmetry. apply bool_decide_eq_false_2. rewrite elem_of_removed. tauto.
    + apply String.eqb_neq in E3. rewrite Hinv.
      apply bool_decide_ext. rewrite elem_of_removed. intuition congruence.
Qed.

(** Property X13.  Over any list of key events, mouse events and provider
    updates: an action of movement or pickup is held afterwards exactly when
    the last event of a key bound to it was a key-down, so with two keys
    bound to one action (W and the up arrow) the release of either one ends
    the action while the other is still down; and when the pickup flag of
    the manager agrees with the F key before, it agrees after every
    event, without waiting for the next update. *)
Theorem held_actions_follow_the_last_key_event (es : list KeyEvent) :
  forall (kb : KeyboardMouseProvider.t) (im : InputManager.t),
    (forall action : string,
       In action heldActions ->
       bool_decide
         (action ∈ KeyboardMouseProvider.keys (fst (keyRun es (kb, im))))
       = lastWasDown action es
           (bool_decide (action ∈ KeyboardMouseProvider.keys kb)))
    /\ (pickup (InputManager.input im)
        = bool_decide ("pickup" ∈ KeyboardMouseProvider.keys kb) ->
        pickup (InputManager.input (snd (keyRun es (kb, im))))
        = lastWasDown "pickup" es
            (bool_decide ("pickup" ∈ KeyboardMouseProvider.keys kb))).
Proof.
  induction es as [| e es IH]; intros kb im.
  - cbn. auto.
  - cbn [keyRun fold_left].
    destruct (keyStep (kb, im) e) as [kb1 im1] eqn:Estep.
    destruct (IH kb1 im1) as [IHk IHp].
    assert (Hone : forall action : string,
               In action heldActions ->
               lastWasDown action (e :: es)
                 (bool_decide (action ∈ KeyboardMouseProvider.keys kb))
               = lastWasDown action es
                   (bool_decide (action ∈ KeyboardMouseProvider.keys kb1))).
    { intros action Hin.
      pose proof (keyStep_keys action e kb im Hin) as Hs.
      rewrite Estep in Hs. cbn [fst] in Hs. rewrite Hs.
      destruct e; reflexivity. }
    split.
    + intros action Hin. rewrite (Hone action Hin). apply IHk. exact Hin.
    + intros Hinv.
      rewrite (Hone "pickup") by (cbn; tauto).
      apply IHp. pose proof (keyStep_pickup e kb im Hinv) as Hs.
      rewrite Estep in Hs. exact Hs.
Qed.

Lemma held_actions_follow_the_last_key_event_witness :
  pickup (InputManager.input
            (snd (keyRun [KeyPressed 1 "KeyF"; KeyPressed 2 "KeyW"; KeyReleased "KeyF"]
                    (KeyboardMouseProvider.new, InputManager.new))))
  = false.
Proof.
  apply (proj2 (held_actions_follow_the_last_key_event
                  [KeyPressed 1 "KeyF"; KeyPressed 2 "KeyW"; KeyReleased "KeyF"]
                  KeyboardMouseProvider.new InputManager.new)).
  reflexivity.
Defined.

(** ** Hand frames *)

Lemma onResults_aim (results : Results)
    (region : option (Vec2 -> option (Q * Q)))
    (this : GestureInputManager.t) :
  aimConsistent (GestureInputManager.onResults results region this)
  /\ (GestureInputManager.gestureAimSmoothed this <> None ->
      GestureInputManager.gestureAimSmoothed
        (GestureInputManager.onResults results region this) <> None).
Proof.
  unfold GestureInputManager.onResults, aimConsistent.
  destruct region as [toArena |]; cbn [GestureInputManager.leftHandPresent].
  - destruct (GestureInputManager.leftSeen _).
    + destruct (GestureInputManager.leftFingerTip _) as [tip |].
      * destruct (toArena tip) as [[rawX rawY] |].
        -- unfold GestureInputManager.smoothAim.
           cbn [GestureInputManager.gestureShootingActive
                GestureInputManager.gestureAimSmoothed
                GestureInputManager.gestureAimTargetGame].
           split; [| discriminate]. intros _. eexists. split; reflexivity.
        -- cbn. split; [discriminate | auto].
      * cbn. split; [discriminate | auto].
    + cbn. split; [discriminate | auto].
  - cbn. split; [discriminate | auto].
Qed.

Lemma handRun_aim (frames : list HandFrame) :
  forall this : GestureInputManager.t,
    aimConsistent this ->
    aimConsistent (handRun frames this)
    /\ (GestureInputManager.gestureAimSmoothed this <> None ->
        GestureInputManager.gestureAimSmoothed (handRun frames this)
        <> None).
Proof.
  induction frames as [| frame frames IH]; intros this Hinv.
  - cbn. auto.
  - cbn [handRun fold_left].
    destruct (onResults_aim (fst frame) (snd frame) this) as [H1 H2].
    destruct (IH _ H1) as [I1 I2]. split; [exact I1 |].
    intros Hs. apply I2, H2, Hs.
Qed.

(** Property X14.  After any list of hand frames on a new gesture input:
    whenever gesture shooting is active the aim target is the smoothed
    point with both coordinates rounded; then the firing step of a PLAYING
    tick fires at that target, the mouse button being held or not, and
    puts the target in the mouse coordinates.  The smoothed point, once
    there, is never cleared by a later frame; a frame without hands ends
    both pinches and gesture shooting and keeps the smoothed point. *)
Theorem gesture_aim_is_the_rounded_smoothed_point (frames : list HandFrame) :
  let gi := handRun frames GestureInputManager.new in
  aimConsistent gi
  /\ (forall (gp : Game.Gameplay) (g : Game.t),
        Game.gestureInput g = gi ->
        GestureInputManager.gestureShootingActive gi = true ->
        exists p : Vec2,
          GestureInputManager.gestureAimSmoothed gi = Some p
          /\ let aimX := inject_Z (Math_round (vx p)) in
             let aimY := inject_Z (Math_round (vy p)) in
             Game.handleFiring gp g
             = Game.player_fire gp aimX aimY
                 (Game.set_inputManager
                    (InputManager.set_input
                       (set_mouse aimX aimY
                          (InputManager.input (Game.inputManager g)))
                       (Game.inputManager g)) g))
  /\ (forall more : list HandFrame,
        GestureInputManager.gestureAimSmoothed gi <> None ->
        GestureInputManager.gestureAimSmoothed (handRun more gi) <> None)
  /\ (forall region : option (Vec2 -> option (Q * Q)),
        let gi' := GestureInputManager.onResults emptyFrame region gi in
        GestureInputManager.gestureShootingActive gi' = false
        /\ GestureInputManager.rightPinchActive gi' = false
        /\ GestureInputManager.leftPinchActive gi' = false
        /\ GestureInputManager.leftHandPresent gi' = false
        /\ GestureInputManager.gestureAimSmoothed gi'
           = GestureInputManager.gestureAimSmoothed gi).
Proof.
  intros gi.
  assert (Hnew : aimConsistent GestureInputManager.new)
    by (unfold aimConsistent; cbn; discriminate).
  destruct (handRun_aim frames GestureInputManager.new Hnew) as [Hc _].
  fold gi in Hc.
  split; [exact Hc |]. split; [| split].
  - intros gp g Hg Hactive. destruct (Hc Hactive) as [p [Hs Ht]].
    exists p. split; [exact Hs |].
    unfold Game.handleFiring, GestureInputManager.isGestureShootingActive,
      GestureInputManager.getGestureAimTargetGame.
    rewrite Hg, Hactive, Ht. reflexivity.
  - intros more Hs. apply (proj2 (handRun_aim more gi Hc)). exact Hs.
  - intros region gi'. unfold gi', GestureInputManager.onResults.
    destruct region as [toArena |]; cbn; auto.
Qed.

(** ** The pistol's interval between shots *)

Lemma pistolConsistent_state (o : Q) (g g' : Game.t) :
  pistolState g' = pistolState g ->
  pistolConsistent o g -> pistolConsistent o g'.
Proof.
  unfold pistolState, pistolConsistent. intros [= Hr Hb Ho Hh Hc].
  rewrite Hr, Hb, Ho, Hh. auto.
Qed.

Lemma creatorModeInForce_state (o : Q) (g g' : Game.t) :
  pistolState g' = pistolState g ->
  creatorModeInForce o g -> creatorModeInForce o g'.
Proof.
  unfold pistolState, creatorModeInForce. intros [= Hr Hb Ho Hh Hc].
  rewrite Hb, Hc. auto.
Qed.

Lemma truthy_nonzero (o : Q) : ~ o == 0 -> Game.truthy (Some o) = true.
Proof.
  intros Hne. cbn. destruct (Qeq_bool o 0) eqn:E; [| reflexivity].
  apply Qeq_bool_iff in E. contradiction.
Qed.

Lemma toggleCreatorMode_pistol (o : Q) (g : Game.t) :
  ~ o == 0 ->
  pistolConsistent o g ->
  pistolConsistent o (Game.toggleCreatorMode g)
  /\ creatorModeInForce o (Game.toggleCreatorMode g)
  /\ Game.creatorMode (Game.toggleCreatorMode g) = negb (Game.creatorMode g)
  /\ Game.pistolHasteActive (Game.toggleCreatorMode g)
     = Game.pistolHasteActive g.
Proof.
  intros Hne (Ho & _ & _). apply truthy_nonzero in Hne.
  unfold Game.toggleCreatorMode, pistolConsistent, creatorModeInForce.
  cbn [Game.creatorMode Game.set_creatorMode].
  destruct (Game.creatorMode g); cbn [negb].
  - unfold Game.revertCreatorModeModifications.
    cbn [Game.originalPistolFireRate Game.set_creatorMode].
    rewrite Ho, Hne. cbn. rewrite Ho. eauto 10.
  - unfold Game.applyCreatorModeModifications.
    cbn [Game.originalPistolFireRate Game.set_creatorMode].
    rewrite Ho, Hne. cbn. rewrite ?Ho. cbn. rewrite ?Ho. eauto 10.
Qed.

Lemma applyPickupEffect_pistol (o : Q) (type : PickupType) (g : Game.t) :
  pistolConsistent o g ->
  pistolConsistent o (Game.applyPickupEffect type g)
  /\ Game.pistolBaseFireRate (Game.applyPickupEffect type g)
     = Game.pistolBaseFireRate g
  /\ Game.creatorMode (Game.applyPickupEffect type g) = Game.creatorMode g.
Proof.
  intros (Ho & Hb & base & Hbase & Hrate).
  destruct type;
    try (split; [| split; reflexivity];
         apply (pistolConsistent_state o g); [reflexivity |];
         unfold pistolConsistent; eauto).
  split; [| split; reflexivity].
  unfold pistolConsistent, Game.applyPickupEffect,
    Game.recomputePistolFireRate. cbn. rewrite Hbase.
  split; [exact Ho |]. split; [rewrite <- Hbase; exact Hb |]. eauto.
Qed.

Lemma updatePistolHaste_pistol (o deltaTime : Q) (g : Game.t) :
  pistolConsistent o g ->
  pistolConsistent o (Game.updatePistolHaste deltaTime g)
  /\ Game.pistolBaseFireRate (Game.updatePistolHaste deltaTime g)
     = Game.pistolBaseFireRate g
  /\ Game.creatorMode (Game.updatePistolHaste deltaTime g)
     = Game.creatorMode g.
Proof.
  intros (Ho & Hb & base & Hbase & Hrate).
  unfold Game.updatePistolHaste.
  destruct (Game.pistolHasteActive g) eqn:Ha.
  - cbn [Game.pistolHasteRemaining Game.set_pistolHasteRemaining].
    destruct (Qle_bool _ 0).
    + split; [| split; reflexivity].
      unfold pistolConsistent, Game.recomputePistolFireRate. cbn.
      rewrite Hbase. split; [exact Ho |].
      split; [rewrite <- Hbase; exact Hb |]. eauto.
    + split; [| split; reflexivity].
      apply (pistolConsistent_state o g); [reflexivity |].
      unfold pistolConsistent. rewrite Ha. eauto.
  - split; [| split; reflexivity].
    unfold pistolConsistent. rewrite Ha. eauto.
Qed.

Lemma resolveDamage_pistol (g : Game.t) :
  pistolState (Game.resolveDamage g) = pistolState g.
Proof.
  unfold Game.resolveDamage.
  cbn [Game.projectiles Game.enemies Game.killCount Game.set_player].
  destruct (Game.projectilesVsEnemies _ _ _) as [[ps es] kills].
  cbn [Game.projectiles Game.player Game.set_killCount Game.set_enemies
       Game.set_projectiles Game.set_player].
  destruct (Game.projectilesVsPlayer _ _) as [ps' p']. reflexivity.
Qed.

Lemma playerVsPickups_pistol (o : Q) (g : Game.t) :
  pistolConsistent o g ->
  pistolConsistent o (Game.playerVsPickups g)
  /\ Game.pistolBaseFireRate (Game.playerVsPickups g)
     = Game.pistolBaseFireRate g
  /\ Game.creatorMode (Game.playerVsPickups g) = Game.creatorMode g.
Proof.
  intros Hc.
  destruct (playerVsPickups_cases g)
    as [[_ ->] | (i & c & _ & Hno & Hyes)].
  - split; [| split; reflexivity].
    apply (pistolConsistent_state o g); [reflexivity | exact Hc].
  - destruct (pickupConfirmed g).
    + rewrite (Hyes eq_refl).
      destruct (applyPickupEffect_pistol o (Pickup.type c) g Hc)
        as (H1 & H2 & H3).
      split; [| split; [exact H2 | exact H3]].
      apply (pistolConsistent_state o
               (Game.applyPickupEffect (Pickup.type c) g));
        [reflexivity | exact H1].
    + rewrite (Hno eq_refl). split; [| split; reflexivity].
      apply (pistolConsistent_state o g); [reflexivity | exact Hc].
Qed.

Lemma handleCollisions_pistol (o : Q) (g : Game.t) :
  pistolConsistent o g ->
  pistolConsistent o (Game.handleCollisions g)
  /\ Game.pistolBaseFireRate (Game.handleCollisions g)
     = Game.pistolBaseFireRate g
  /\ Game.creatorMode (Game.handleCollisions g) = Game.creatorMode g.
Proof.
  intros Hc. unfold Game.handleCollisions.
  pose proof (resolveDamage_pistol g) as Hs.
  apply (pistolConsistent_state o g _ Hs) in Hc.
  injection Hs as _ Hb _ _ Hcm. rewrite <- Hb, <- Hcm.
  apply playerVsPickups_pistol. exact Hc.
Qed.

Lemma restart_pistol (gp : Game.Gameplay) (g : Game.t) :
  pistolConsistent (pistol_fireRate (Game.newWeapons gp)) (Game.restart gp g)
  /\ Game.pistolBaseFireRate (Game.restart gp g)
     = Some (pistol_fireRate (Game.newWeapons gp))
  /\ pistol_fireRate (Game.weapons (Game.restart gp g))
     = pistol_fireRate (Game.newWeapons gp)
  /\ Game.creatorMode (Game.restart gp g) = Game.creatorMode g.
Proof.
  unfold pistolConsistent, Game.restart, Game.initGameObjects,
    Game.recomputePistolFireRate. cbn. rewrite Qdiv_1_r_eq.
  split; [| auto]. split; [reflexivity |]. split; [auto |].
  eexists. split; [reflexivity |]. rewrite Qdiv_1_r_eq. reflexivity.
Qed.

Lemma pistolStep_consistent (gp : Game.Gameplay) (op : PistolOp)
    (g : Game.t) :
  let o := pistol_fireRate (Game.newWeapons gp) in
  ~ o == 0 ->
  pistolConsistent o g ->
  pistolConsistent o (pistolStep gp g op)
  /\ (op <> Restart -> creatorModeInForce o g ->
      creatorModeInForce o (pistolStep gp g op)).
Proof.
  intros o Hne Hc. destruct op as [| type | deltaTime | |]; cbn [pistolStep].
  - destruct (toggleCreatorMode_pistol o g Hne Hc) as (H1 & H2 & _).
    split; [exact H1 | intros _ _; exact H2].
  - destruct (applyPickupEffect_pistol o type g Hc) as (H1 & H2 & H3).
    split; [exact H1 |]. intros _. unfold creatorModeInForce.
    rewrite H2, H3. auto.
  - destruct (updatePistolHaste_pistol o deltaTime g Hc) as (H1 & H2 & H3).
    split; [exact H1 |]. intros _. unfold creatorModeInForce.
    rewrite H2, H3. auto.
  - destruct (handleCollisions_pistol o g Hc) as (H1 & H2 & H3).
    split; [exact H1 |]. intros _. unfold creatorModeInForce.
    rewrite H2, H3. auto.
  - split; [apply restart_pistol | intros H; contradiction].
Qed.

(** Property X15.  For a pistol whose own interval [o] between shots is not
    zero, after [initGameObjects] and any list of creator-mode toggles,
    pickup effects, haste countdowns, collision passes and restarts: the
    pistol's interval is the base interval, divided by three while haste is
    active; the base is [o] or [o / 5]; the interval stored for creator
    mode stays [o].  As long as the game starts out of creator mode and is
    not restarted, the base is [o / 5] exactly when creator mode is on.  A
    restart in creator mode breaks that: the flag stays on and the base is
    [o] again. *)
Theorem pistol_interval_is_base_over_haste (gp : Game.Gameplay)
    (ops : list PistolOp) (g : Game.t) :
  let o := pistol_fireRate (Game.newWeapons gp) in
  ~ o == 0 ->
  let g' := pistolRun gp ops (Game.initGameObjects gp g) in
  pistolConsistent o g'
  /\ (Game.creatorMode g = false ->
      Forall (fun op => op <> Restart) ops ->
      creatorModeInForce o g')
  /\ (Game.creatorMode g' = true ->
      Game.creatorMode (Game.restart gp g') = true
      /\ Game.pistolBaseFireRate (Game.restart gp g') = Some o
      /\ pistol_fireRate (Game.weapons (Game.restart gp g')) = o).
Proof.
  intros o Hne g'.
  assert (Hinit : pistolConsistent o (Game.initGameObjects gp g)).
  { unfold pistolConsistent, Game.initGameObjects,
      Game.recomputePistolFireRate. cbn. rewrite Qdiv_1_r_eq.
    split; [reflexivity |]. split; [auto |].
    eexists. split; [reflexivity |]. rewrite Qdiv_1_r_eq. reflexivity. }
  assert (Hforce : Game.creatorMode g = false ->
                   creatorModeInForce o (Game.initGameObjects gp g)).
  { intros Hoff. unfold creatorModeInForce, Game.initGameObjects,
      Game.recomputePistolFireRate. cbn. rewrite Hoff. reflexivity. }
  unfold g'. clear g'.
  generalize dependent (Game.initGameObjects gp g). intros g0 Hinit Hforce.
  split; [| split].
  - clear Hforce. revert g0 Hinit.
    induction ops as [| op ops IH]; intros g0 Hinit; [exact Hinit |].
    cbn [pistolRun fold_left]. apply IH.
    apply (pistolStep_consistent gp op g0 Hne Hinit).
  - intros Hoff Hops. specialize (Hforce Hoff). clear Hoff.
    revert g0 Hinit Hforce.
    induction Hops as [| op ops Hop Hops IH]; intros g0 Hinit Hforce;
      [exact Hforce |].
    cbn [pistolRun fold_left].
    destruct (pistolStep_consistent gp op g0 Hne Hinit) as [H1 H2].
    apply IH; [exact H1 | apply H2; assumption].
  - intros Hon. destruct (restart_pistol gp (pistolRun gp ops g0))
      as (_ & H2 & H3 & H4).
    rewrite H4. auto.
Qed.

Lemma pistol_interval_is_base_over_haste_witness :
  pistolConsistent 0.3
    (pistolRun sampleGameplay
       [ToggleCreatorMode; PickUp PISTOL_HASTE; HasteCountdown 4; Restart;
        Collisions]
       (Game.initGameObjects sampleGameplay
          (scene PLAYING KeyboardMouseProvider.new (playerAtCentre 3 0)
             [] [] []))).
Proof.
  apply (pistol_interval_is_base_over_haste sampleGameplay
           [ToggleCreatorMode; PickUp PISTOL_HASTE; HasteCountdown 4; Restart;
            Collisions]
           (scene PLAYING KeyboardMouseProvider.new (playerAtCentre 3 0)
              [] [] [])).
  discriminate.
Defined.

(** ** Damage in one collision pass *)

Lemma takeDamage_closes_the_gate (d : Q) (p : Player.t) :
  0 < Player.invulnerabilityDuration p ->
  Player.canTakeDamage (Player.takeDamage d p) = false.
Proof.
  intros Hdur. unfold Player.canTakeDamage, Player.takeDamage.
  cbn [Player.invulnerabilityTime]. apply Qle_bool_false. exact Hdur.
Qed.

Lemma playerVsEnemies_once (es : list Enemy.t) (p : Player.t) :
  0 < Player.invulnerabilityDuration p ->
  fold_left Game.playerVsEnemy es p = p
  \/ exists e : Enemy.t,
       In e es
       /\ CollisionSystem.checkCircleCollision p e = true
       /\ fold_left Game.playerVsEnemy es p
          = Player.takeDamage (Enemy.damage e) p.
Proof.
  intros Hdur. induction es as [| e es IH]; [left; reflexivity |].
  cbn [fold_left]. unfold Game.playerVsEnemy at 2 4.
  destruct (CollisionSystem.checkCircleCollision p e) eqn:Hc.
  - destruct (Player.canTakeDamage p) eqn:Hcan.
    + right. exists e. split; [left; reflexivity |]. split; [exact Hc |].
      apply playerVsEnemies_invulnerable.
      apply takeDamage_closes_the_gate. exact Hdur.
    + left. apply playerVsEnemies_invulnerable. exact Hcan.
  - destruct IH as [IH | (e' & Hin & Hc' & IH)]; [left; exact IH |].
    right. exists e'. split; [right; exact Hin |]. split; assumption.
Qed.

Lemma projectilesVsPlayer_once (ps : list Projectile.t) (p : Player.t) :
  0 < Player.invulnerabilityDuration p ->
  snd (Game.projectilesVsPlayer ps p) = p
  \/ exists q : Projectile.t,
       In q ps
       /\ Projectile.ownedByEnemy q = true
       /\ CollisionSystem.checkCircleCollision q p = true
       /\ snd (Game.projectilesVsPlayer ps p)
          = Player.takeDamage (Projectile.damage q) p.
Proof.
  intros Hdur. induction ps as [| q ps IH]; [left; reflexivity |].
  cbn [Game.projectilesVsPlayer].
  assert (Hrest : forall (head : Projectile.t),
             snd (let '(rest', p'') := Game.projectilesVsPlayer ps p in
                  (head :: rest', p''))
             = snd (Game.projectilesVsPlayer ps p)).
  { intros head. destruct (Game.projectilesVsPlayer ps p). reflexivity. }
  assert (Hskip : snd (Game.projectilesVsPlayer ps p) = p
                  \/ exists q0 : Projectile.t,
                       In q0 (q :: ps)
                       /\ Projectile.ownedByEnemy q0 = true
                       /\ CollisionSystem.checkCircleCollision q0 p = true
                       /\ snd (Game.projectilesVsPlayer ps p)
                          = Player.takeDamage (Projectile.damage q0) p).
  { destruct IH as [IH | (q0 & Hin & H1 & H2 & H3)]; [left; exact IH |].
    right. exists q0. split; [right; exact Hin | auto]. }
  destruct (Projectile.ownedByEnemy q) eqn:Hown;
    [| rewrite Hrest; exact Hskip].
  destruct (CollisionSystem.checkCircleCollision q p) eqn:Hc;
    [| rewrite Hrest; exact Hskip].
  destruct (Player.canTakeDamage p) eqn:Hcan;
    [| rewrite Hrest; exact Hskip].
  right. exists q. split; [left; reflexivity |].
  split; [exact Hown |]. split; [exact Hc |].
  rewrite (projectilesVsPlayer_invulnerable ps
             (Player.takeDamage (Projectile.damage q) p))
    by (apply takeDamage_closes_the_gate; exact Hdur).
  reflexivity.
Qed.

Lemma projectileVsEnemies_projectile (es : list Enemy.t) :
  forall (p : Projectile.t) (kills : Z),
    sameOrSpent p (fst (fst (Game.projectileVsEnemies p es kills)))
    /\ (kills <= snd (Game.projectileVsEnemies p es kills))%Z.
Proof.
  induction es as [| e es IH]; intros p kills.
  - cbn. split; [left; reflexivity | lia].
  - cbn [Game.projectileVsEnemies].
    destruct (CollisionSystem.checkCircleCollision p e).
    + specialize (IH (Projectile.kill p)
                     (if negb (Enemy.isAlive
                                 (Enemy.takeDamage (Projectile.damage p) e))
                      then (kills + 1)%Z else kills)).
      destruct (Game.projectileVsEnemies (Projectile.kill p) es _)
        as [[p' rest'] k']. cbn [fst snd] in *. destruct IH as [Hp Hk].
      split.
      * right. destruct Hp as [-> | ->]; reflexivity.
      * destruct (negb _); lia.
    + specialize (IH p kills).
      destruct (Game.projectileVsEnemies p es kills) as [[p' rest'] k'].
      exact IH.
Qed.

Lemma projectilesVsEnemies_projectiles (ps : list Projectile.t) :
  forall (es : list Enemy.t) (kills : Z),
    Forall2 (fun q q' => q' = q
                         \/ (Projectile.ownedByPlayer q = true
                             /\ q' = Projectile.kill q))
            ps (fst (fst (Game.projectilesVsEnemies ps es kills)))
    /\ (kills <= snd (Game.projectilesVsEnemies ps es kills))%Z.
Proof.
  induction ps as [| p ps IH]; intros es kills.
  - cbn. split; [constructor | lia].
  - cbn [Game.projectilesVsEnemies].
    destruct (Projectile.ownedByPlayer p) eqn:Hown.
    + pose proof (projectileVsEnemies_projectile es p kills) as [Hp Hk].
      destruct (Game.projectileVsEnemies p es kills) as [[p' es1] k1].
      specialize (IH es1 k1).
      destruct (Game.projectilesVsEnemies ps es1 k1) as [[rest' es2] k2].
      cbn [fst snd] in *. destruct IH as [IH1 IH2]. split; [| lia].
      constructor; [| exact IH1].
      destruct Hp as [-> | ->]; [left; reflexivity | right; auto].
    + specialize (IH es kills).
      destruct (Game.projectilesVsEnemies ps es kills) as [[rest' es2] k2].
      cbn [fst snd] in *. destruct IH as [IH1 IH2]. split; [| exact IH2].
      constructor; [left; reflexivity | exact IH1].
Qed.

Lemma projectilesVsPlayer_projectiles (ps : list Projectile.t)
    (p : Player.t) :
  Forall2 sameOrSpent ps (fst (Game.projectilesVsPlayer ps p)).
Proof.
  revert p. induction ps as [| q ps IH]; intros p; [constructor |].
  cbn [Game.projectilesVsPlayer].
  assert (Hkeep : forall (p0 : Player.t) (head : Projectile.t),
             sameOrSpent q head ->
             Forall2 sameOrSpent (q :: ps)
               (fst (let '(rest', p'') := Game.projectilesVsPlayer ps p0 in
                     (head :: rest', p'')))).
  { intros p0 head Hhead. specialize (IH p0).
    destruct (Game.projectilesVsPlayer ps p0). constructor; assumption. }
  destruct (Projectile.ownedByEnemy q);
    [| apply Hkeep; left; reflexivity].
  destruct (CollisionSystem.checkCircleCollision q p);
    [| apply Hkeep; left; reflexivity].
  destruct (Player.canTakeDamage p);
    [apply Hkeep; right; reflexivity | apply Hkeep; left; reflexivity].
Qed.

Lemma In_Forall2_owned (ps ps' : list Projectile.t) (q : Projectile.t) :
  Forall2 (fun q q' => q' = q
                       \/ (Projectile.ownedByPlayer q = true
                           /\ q' = Projectile.kill q)) ps ps' ->
  In q ps' ->
  Projectile.ownedByEnemy q = true ->
  In q ps.
Proof.
  intros HF. induction HF as [| a a' ps ps' Ha HF IH]; intros Hin Hown;
    [contradiction |].
  destruct Hin as [<- | Hin]; [| right; apply IH; assumption].
  destruct Ha as [-> | [Hpl ->]]; [left; reflexivity |].
  exfalso. unfold Projectile.ownedByEnemy, Projectile.ownedByPlayer in *.
  cbn [Projectile.kill Projectile.owner] in Hown.
  destruct (Projectile.owner a); [| discriminate].
  rewrite Hpl in Hown. discriminate.
Qed.

(** Property X16.  One pass of the damage part of [handleCollisions]
    damages the player at most once, for a player whose invulnerability
    window has a length above zero: the player is as before, or has taken
    the damage of one enemy that overlaps it, or, when no enemy struck, of
    one enemy projectile that overlaps it; however many enemies and
    projectiles overlap the player, the others do not count. *)
Theorem player_is_damaged_once_per_pass (g : Game.t) :
  0 < Player.invulnerabilityDuration (Game.player g) ->
  Game.player (Game.resolveDamage g) = Game.player g
  \/ (exists e : Enemy.t,
        In e (Game.enemies g)
        /\ CollisionSystem.checkCircleCollision (Game.player g) e = true
        /\ Game.player (Game.resolveDamage g)
           = Player.takeDamage (Enemy.damage e) (Game.player g))
  \/ (exists q : Projectile.t,
        In q (Game.projectiles g)
        /\ Projectile.ownedByEnemy q = true
        /\ CollisionSystem.checkCircleCollision q (Game.player g) = true
        /\ Game.player (Game.resolveDamage g)
           = Player.takeDamage (Projectile.damage q) (Game.player g)).
Proof.
  intros Hdur. unfold Game.resolveDamage.
  cbn [Game.projectiles Game.enemies Game.killCount Game.set_player].
  pose proof (projectilesVsEnemies_projectiles (Game.projectiles g)
                (Game.enemies g) (Game.killCount g)) as [Hps _].
  destruct (Game.projectilesVsEnemies _ _ _) as [[ps es] kills].
  cbn [fst] in Hps.
  cbn [Game.projectiles Game.player Game.set_killCount Game.set_enemies
       Game.set_projectiles Game.set_player].
  destruct (playerVsEnemies_once (Game.enemies g) (Game.player g) Hdur)
    as [Hsame | (e & Hin & Hc & Hhit)].
  - rewrite Hsame.
    destruct (projectilesVsPlayer_once ps (Game.player g) Hdur)
      as [Hsame' | (q & Hin & Hown & Hc & Hhit)].
    + left. destruct (Game.projectilesVsPlayer ps (Game.player g)).
      exact Hsame'.
    + right. right. exists q.
      split; [apply (In_Forall2_owned _ _ _ Hps Hin Hown) |].
      split; [exact Hown |]. split; [exact Hc |].
      destruct (Game.projectilesVsPlayer ps (Game.player g)). exact Hhit.
  - right. left. exists e. split; [exact Hin |]. split; [exact Hc |].
    rewrite Hhit.
    rewrite (projectilesVsPlayer_invulnerable ps
               (Player.takeDamage (Enemy.damage e) (Game.player g)))
      by (apply takeDamage_closes_the_gate; exact Hdur).
    reflexivity.
Qed.

Lemma player_is_damaged_once_per_pass_witness :
  Game.player (Game.resolveDamage playerBeset) = Game.player playerBeset
  \/ (exists e : Enemy.t,
        In e (Game.enemies playerBeset)
        /\ CollisionSystem.checkCircleCollision (Game.player playerBeset) e
           = true
        /\ Game.player (Game.resolveDamage playerBeset)
           = Player.takeDamage (Enemy.damage e) (Game.player playerBeset))
  \/ (exists q : Projectile.t,
        In q (Game.projectiles playerBeset)
        /\ Projectile.ownedByEnemy q = true
        /\ CollisionSystem.checkCircleCollision q (Game.player playerBeset)
           = true
        /\ Game.player (Game.resolveDamage playerBeset)
           = Player.takeDamage (Projectile.damage q)
               (Game.player playerBeset)).
Proof.
  apply (player_is_damaged_once_per_pass playerBeset). reflexivity.
Defined.

Lemma checkCircleCollision_enemy (p : Projectile.t) (e e' : Enemy.t) :
  Enemy.x e' = Enemy.x e -> Enemy.y e' = Enemy.y e ->
  Enemy.radius e' = Enemy.radius e ->
  CollisionSystem.checkCircleCollision p e'
  = CollisionSystem.checkCircleCollision p e.
Proof.
  intros Hx Hy Hr. unfold CollisionSystem.checkCircleCollision.
  cbn [circle_x circle_y circle_radius Enemy_Circle].
  rewrite Hx, Hy, Hr. reflexivity.
Qed.

Lemma damagedBy_nil (e : Enemy.t) : damagedBy [] e e.
Proof. unfold damagedBy, damageTaken. cbn. repeat split; lra. Qed.

Lemma projectilesVsEnemies_enemies (ps : list Projectile.t) :
  forall (es0 es : list Enemy.t) (done : list Projectile.t) (kills : Z),
    Forall2 (damagedBy done) es0 es ->
    Forall2 (damagedBy (done ++ ps)%list) es0
            (snd (fst (Game.projectilesVsEnemies ps es kills))).
Proof.
  induction ps as [| p ps IH]; intros es0 es done kills Hdone.
  - cbn. rewrite app_nil_r. exact Hdone.
  - cbn [Game.projectilesVsEnemies].
    assert (Hstep : Forall2 (damagedBy (done ++ [p])%list) es0
                      (if Projectile.ownedByPlayer p
                       then map (hitBy p) es else es)).
    { clear IH. induction Hdone as [| e0 e es0 es He Hdone IHd].
      - destruct (Projectile.ownedByPlayer p); constructor.
      - assert (Hone : damagedBy (done ++ [p])%list e0
                         (if Projectile.ownedByPlayer p
                          then hitBy p e else e)).
        { destruct He as (Hx & Hy & Hr & Hd & Hhp).
          assert (Hsum : damageTaken e0 (done ++ [p])%list
                         == damageTaken e0 done
                            + (if Projectile.ownedByPlayer p
                                  && CollisionSystem.checkCircleCollision p e0
                               then Projectile.damage p else 0)).
          { clear. induction done as [| d done IHdone].
            - cbn. lra.
            - cbn [app damageTaken fold_right] in *.
              unfold damageTaken in IHdone. rewrite IHdone. lra. }
          unfold damagedBy. rewrite Hsum.
          unfold hitBy.
          rewrite (checkCircleCollision_enemy p e0 e Hx Hy Hr).
          destruct (Projectile.ownedByPlayer p); cbn [andb];
            [| repeat split; try assumption; lra].
          destruct (CollisionSystem.checkCircleCollision p e0);
            cbn [Enemy.takeDamage Enemy.x Enemy.y Enemy.radius Enemy.damage
                 Enemy.hp];
            repeat split; try assumption; lra. }
        destruct (Projectile.ownedByPlayer p); cbn [map];
          constructor; assumption. }
    destruct (Projectile.ownedByPlayer p) eqn:Hown.
    + pose proof (projectileVsEnemies_enemies es p kills) as Hes.
      destruct (Game.projectileVsEnemies p es kills) as [[p' es1] k1].
      cbn [fst snd] in Hes. subst es1.
      specialize (IH es0 (map (hitBy p) es) (done ++ [p])%list k1 Hstep).
      rewrite <- app_assoc in IH. cbn [app] in IH.
      destruct (Game.projectilesVsEnemies ps (map (hitBy p) es) k1)
        as [[rest' es2] k2]. exact IH.
    + specialize (IH es0 es (done ++ [p])%list kills Hstep).
      rewrite <- app_assoc in IH. cbn [app] in IH.
      destruct (Game.projectilesVsEnemies ps es kills)
        as [[rest' es2] k2]. exact IH.
Qed.

Lemma Forall2_sameOrSpent_trans (ps ps' ps'' : list Projectile.t) :
  Forall2 (fun q q' => q' = q
                       \/ (Projectile.ownedByPlayer q = true
                           /\ q' = Projectile.kill q)) ps ps' ->
  Forall2 sameOrSpent ps' ps'' ->
  Forall2 sameOrSpent ps ps''.
Proof.
  intros H. revert ps''.
  induction H as [| a a' ps ps' Ha H IH]; intros ps'' H';
    inversion H' as [| b b' l l' Hb Hl]; subst; constructor.
  - unfold sameOrSpent in *.
    destruct Ha as [-> | [_ ->]]; [exact Hb |].
    right. destruct Hb as [-> | ->]; reflexivity.
  - apply IH. exact Hl.
Qed.

(** Property X17.  A collision pass moves nothing and adds nothing.  Every
    enemy is where it was, and its hp is the hp before less the damage of
    every projectile of the player that overlaps it: a projectile that has
    hit already, and an enemy that is dead already, count like the others.
    Every projectile is the same or destroyed, none is revived.  The kill
    counter does not go down, and the pass ends with at most one pickup
    fewer. *)
Theorem collision_pass_accounts_for_every_hit (g : Game.t) :
  let g' := Game.handleCollisions g in
  Forall2 (damagedBy (Game.projectiles g)) (Game.enemies g) (Game.enemies g')
  /\ Forall2 sameOrSpent (Game.projectiles g) (Game.projectiles g')
  /\ (Game.killCount g <= Game.killCount g')%Z
  /\ (length (Game.pickups g) <= S (length (Game.pickups g')))%nat.
Proof.
  intros g'. unfold g', Game.handleCollisions.
  destruct (playerVsPickups_frame (Game.resolveDamage g))
    as (He & Hp & Hk & _).
  rewrite He, Hp, Hk.
  pose proof (pickup_pass_takes_at_most_one (Game.resolveDamage g)) as Hpk.
  assert (Hpks : Game.pickups (Game.resolveDamage g) = Game.pickups g).
  { unfold Game.resolveDamage.
    cbn [Game.projectiles Game.enemies Game.killCount Game.set_player].
    destruct (Game.projectilesVsEnemies _ _ _) as [[ps es] kills].
    cbn [Game.projectiles Game.player Game.set_killCount Game.set_enemies
         Game.set_projectiles Game.set_player].
    destruct (Game.projectilesVsPlayer _ _). reflexivity. }
  rewrite Hpks in Hpk.
  split; [| split; [| split; [| exact Hpk]]];
    unfold Game.resolveDamage;
    cbn [Game.projectiles Game.enemies Game.killCount Game.set_player].
  - pose proof (projectilesVsEnemies_enemies (Game.projectiles g)
                  (Game.enemies g) (Game.enemies g) [] (Game.killCount g))
      as Hes.
    cbn [app] in Hes.
    destruct (Game.projectilesVsEnemies _ _ _) as [[ps es] kills].
    cbn [Game.projectiles Game.player Game.set_killCount Game.set_enemies
         Game.set_projectiles Game.set_player].
    destruct (Game.projectilesVsPlayer _ _). cbn. apply Hes.
    clear. induction (Game.enemies g); constructor;
      [apply damagedBy_nil | assumption].
  - pose proof (projectilesVsEnemies_projectiles (Game.projectiles g)
                  (Game.enemies g) (Game.killCount g)) as [Hps _].
    destruct (Game.projectilesVsEnemies _ _ _) as [[ps es] kills].
    cbn [Game.projectiles Game.player Game.set_killCount Game.set_enemies
         Game.set_projectiles Game.set_player].
    pose proof (projectilesVsPlayer_projectiles ps
                  (fold_left Game.playerVsEnemy (Game.enemies g)
                     (Game.player g))) as Hps'.
    destruct (Game.projectilesVsPlayer _ _). cbn in *.
    apply (Forall2_sameOrSpent_trans _ _ _ Hps Hps').
  - pose proof (projectilesVsEnemies_projectiles (Game.projectiles g)
                  (Game.enemies g) (Game.killCount g)) as [_ Hkills].
    destruct (Game.projectilesVsEnemies _ _ _) as [[ps es] kills].
    cbn [Game.projectiles Game.player Game.set_killCount Game.set_enemies
         Game.set_projectiles Game.set_player].
    destruct (Game.projectilesVsPlayer _ _). cbn in *. exact Hkills.
Qed.

(** ** Spawning *)

Lemma randomRange_bounds (random lo hi : Q) :
  0 <= random -> random < 1 -> lo < hi ->
  lo <= Utils.randomRange random lo hi /\ Utils.randomRange random lo hi < hi.
Proof. intros H0 H1 Hlt. unfold Utils.randomRange. split; nra. Qed.

Lemma root_ge_num_negb (r : Root) (t : Q) :
  root_ge_num r t = negb (root_lt_num r t).
Proof.
  unfold root_ge_num, root_lt_num, Qltb.
  rewrite negb_andb, !negb_involutive. reflexivity.
Qed.

Lemma closerThan_spec (x y : Q) (player : Player.t) :
  GameSpawn.closerThan SPAWN_SAFETY_DISTANCE (Some x, Some y) player = true
  <-> (Player.x player - x) * (Player.x player - x)
      + (Player.y player - y) * (Player.y player - y) < 22500.
Proof.
  unfold GameSpawn.closerThan, root_lt_num, Utils.distance, Math_sqrt,
    SPAWN_SAFETY_DISTANCE.
  cbn [radicand]. rewrite andb_true_iff, !Qltb_true. split.
  - intros [_ H]. lra.
  - intros H. split; [reflexivity | lra].
Qed.

Lemma closerThan_false (x y : Q) (player : Player.t) :
  22500 <= (Player.x player - x) * (Player.x player - x)
           + (Player.y player - y) * (Player.y player - y) ->
  GameSpawn.closerThan SPAWN_SAFETY_DISTANCE (Some x, Some y) player = false.
Proof.
  intros H. apply not_true_iff_false. rewrite closerThan_spec. lra.
Qed.

Lemma halves_fair : fairDraws halves.
Proof. intros k. split; [discriminate | reflexivity]. Qed.

Lemma opposite_edge_is_far (u v p a b : Q) :
  u * u + (p - a) * (p - a) < 22500 ->
  300 <= b - a \/ 300 <= a - b ->
  22500 <= v * v + (p - b) * (p - b).
Proof.
  intros H Hab.
  assert (Hu : 0 <= u * u) by nra. assert (Hv : 0 <= v * v) by nra.
  assert (H1 : p - a < 150) by nra. assert (H2 : -150 < p - a) by nra.
  destruct Hab; nra.
Qed.

Lemma opposite_side_is_far (u v p a b : Q) :
  (p - a) * (p - a) + u * u < 22500 ->
  300 <= b - a \/ 300 <= a - b ->
  22500 <= (p - b) * (p - b) + v * v.
Proof.
  intros H Hab. rewrite Qplus_comm. apply (opposite_edge_is_far u v p a b);
    [rewrite Qplus_comm; exact H | exact Hab].
Qed.

(** Property X18.  With draws in [[0, 1)], [spawnEnemy] builds the enemy at
    a point on the frame 50 outside the arena, and never nearer than
    [SPAWN_SAFETY_DISTANCE] to the player, wherever the player is: a first
    point that is too near is replaced by a point on the opposite edge,
    which then is far enough.  The type drawn is one of the three types,
    and with a registry that knows them exactly one enemy is added, at the
    end of the list. *)
Theorem enemy_spawns_away_from_the_player (random : nat -> Q)
    (player : Player.t) :
  fairDraws random ->
  (exists x y : Q,
      GameSpawn.enemySpawnPoint random player = (Some x, Some y)
      /\ GameSpawn.closerThan SPAWN_SAFETY_DISTANCE (Some x, Some y) player
         = false
      /\ onSpawnFrame x y)
  /\ (forall (registry : option string
                         -> option (option Q -> option Q -> Enemy.t))
             (g : Game.t),
        (forall type : string,
           In type GameSpawn.enemyTypes -> registry (Some type) <> None) ->
        exists (EnemyClass : option Q -> option Q -> Enemy.t),
          Game.enemies (GameSpawn.spawnEnemy registry random g)
          = (Game.enemies g
             ++ [EnemyClass (fst (GameSpawn.enemySpawnPoint random
                                    (Game.player g)))
                            (snd (GameSpawn.enemySpawnPoint random
                                    (Game.player g)))])%list).
Proof.
  intros Hfair. split.
  - unfold GameSpawn.enemySpawnPoint.
    destruct (Hfair 1%nat) as [H10 H11].
    pose proof (randomInt_range (random 1%nat) 0 3 H10 H11 ltac:(lia))
      as Hedge.
    destruct (Hfair 2%nat) as [H20 H21]. destruct (Hfair 3%nat) as [H30 H31].
    assert (Hw : GameSpawn.margin < ARENA_WIDTH - GameSpawn.margin)
      by reflexivity.
    assert (Hh : GameSpawn.margin < ARENA_HEIGHT - GameSpawn.margin)
      by reflexivity.
    pose proof (randomRange_bounds (random 2%nat) _ _ H20 H21 Hw) as Hx2.
    pose proof (randomRange_bounds (random 3%nat) _ _ H30 H31 Hw) as Hx3.
    pose proof (randomRange_bounds (random 2%nat) _ _ H20 H21 Hh) as Hy2.
    pose proof (randomRange_bounds (random 3%nat) _ _ H30 H31 Hh) as Hy3.
    set (x2 := Utils.randomRange (random 2%nat) GameSpawn.margin
                 (ARENA_WIDTH - GameSpawn.margin)) in *.
    set (x3 := Utils.randomRange (random 3%nat) GameSpawn.margin
                 (ARENA_WIDTH - GameSpawn.margin)) in *.
    set (y2 := Utils.randomRange (random 2%nat) GameSpawn.margin
                 (ARENA_HEIGHT - GameSpawn.margin)) in *.
    set (y3 := Utils.randomRange (random 3%nat) GameSpawn.margin
                 (ARENA_HEIGHT - GameSpawn.margin)) in *.
    set (px := Player.x player). set (py := Player.y player).
    unfold onSpawnFrame.
    unfold GameSpawn.margin, ARENA_WIDTH, ARENA_HEIGHT in Hx2, Hx3, Hy2, Hy3.
    assert (Hcases : Utils.randomInt (random 1%nat) 0 3 = 0%Z
                     \/ Utils.randomInt (random 1%nat) 0 3 = 1%Z
                     \/ Utils.randomInt (random 1%nat) 0 3 = 2%Z
                     \/ Utils.randomInt (random 1%nat) 0 3 = 3%Z) by lia.
    destruct Hcases as [-> | [-> | [-> | ->]]];
      cbn [GameSpawn.edgePoint Z.add Z.rem Z.quotrem fst snd];
      change (Z.rem 2 4) with 2%Z; change (Z.rem 3 4) with 3%Z;
      change (Z.rem 4 4) with 0%Z; change (Z.rem 5 4) with 1%Z;
      cbn [GameSpawn.edgePoint]; fold x2 x3 y2 y3.
    + destruct (GameSpawn.closerThan _ (Some x2, Some (- GameSpawn.margin))
                  player) eqn:E.
      * apply closerThan_spec in E. fold px py in E.
        unfold GameSpawn.margin in E.
        exists x3, (ARENA_HEIGHT + GameSpawn.margin).
        split; [reflexivity |]. split.
        -- apply closerThan_false. fold px py.
           unfold ARENA_HEIGHT, GameSpawn.margin.
           apply (opposite_edge_is_far _ _ _ _ _ E). left. lra.
        -- left. unfold GameSpawn.margin, ARENA_WIDTH, ARENA_HEIGHT.
           split; [right; reflexivity | lra].
      * exists x2, (- GameSpawn.margin). split; [reflexivity |].
        split; [exact E |]. left.
        unfold GameSpawn.margin, ARENA_WIDTH, ARENA_HEIGHT.
        split; [left; reflexivity | lra].
    + destruct (GameSpawn.closerThan _
                  (Some (ARENA_WIDTH + GameSpawn.margin), Some y2) player)
        eqn:E.
      * apply closerThan_spec in E. fold px py in E.
        unfold GameSpawn.margin, ARENA_WIDTH in E.
        exists (- GameSpawn.margin), y3.
        split; [reflexivity |]. split.
        -- apply closerThan_false. fold px py.
           unfold GameSpawn.margin.
           apply (opposite_side_is_far _ _ _ _ _ E). right. lra.
        -- right. unfold GameSpawn.margin, ARENA_WIDTH, ARENA_HEIGHT.
           split; [left; reflexivity | lra].
      * exists (ARENA_WIDTH + GameSpawn.margin), y2. split; [reflexivity |].
        split; [exact E |]. right.
        unfold GameSpawn.margin, ARENA_WIDTH, ARENA_HEIGHT.
        split; [right; reflexivity | lra].
    + destruct (GameSpawn.closerThan _
                  (Some x2, Some (ARENA_HEIGHT + GameSpawn.margin)) player)
        eqn:E.
      * apply closerThan_spec in E. fold px py in E.
        unfold GameSpawn.margin, ARENA_HEIGHT in E.
        exists x3, (- GameSpawn.margin).
        split; [reflexivity |]. split.
        -- apply closerThan_false. fold px py.
           unfold GameSpawn.margin.
           apply (opposite_edge_is_far _ _ _ _ _ E). right. lra.
        -- left. unfold GameSpawn.margin, ARENA_WIDTH, ARENA_HEIGHT.
           split; [left; reflexivity | lra].
      * exists x2, (ARENA_HEIGHT + GameSpawn.margin). split; [reflexivity |].
        split; [exact E |]. left.
        unfold GameSpawn.margin, ARENA_WIDTH, ARENA_HEIGHT.
        split; [right; reflexivity | lra].
    + destruct (GameSpawn.closerThan _ (Some (- GameSpawn.margin), Some y2)
                  player) eqn:E.
      * apply closerThan_spec in E. fold px py in E.
        unfold GameSpawn.margin in E.
        exists (ARENA_WIDTH + GameSpawn.margin), y3.
        split; [reflexivity |]. split.
        -- apply closerThan_false. fold px py.
           unfold ARENA_WIDTH, GameSpawn.margin.
           apply (opposite_side_is_far _ _ _ _ _ E). left. lra.
        -- right. unfold GameSpawn.margin, ARENA_WIDTH, ARENA_HEIGHT.
           split; [right; reflexivity | lra].
      * exists (- GameSpawn.margin), y2. split; [reflexivity |].
        split; [exact E |]. right.
        unfold GameSpawn.margin, ARENA_WIDTH, ARENA_HEIGHT.
        split; [left; reflexivity | lra].
  - intros registry g Hknown. unfold GameSpawn.spawnEnemy.
    destruct (Hfair 0%nat) as [H00 H01].
    pose proof (randomInt_range (random 0%nat) 0
                  (Z.of_nat (length GameSpawn.enemyTypes) - 1) H00 H01
                  ltac:(cbn; lia)) as Htype.
    change (Z.of_nat (length GameSpawn.enemyTypes) - 1)%Z with 2%Z in *.
    assert (Hin : exists type : string,
               GameSpawn.at_index GameSpawn.enemyTypes
                 (Utils.randomInt (random 0%nat) 0 2) = Some type
               /\ In type GameSpawn.enemyTypes).
    { assert (Hcases : Utils.randomInt (random 0%nat) 0 2 = 0%Z
                       \/ Utils.randomInt (random 0%nat) 0 2 = 1%Z
                       \/ Utils.randomInt (random 0%nat) 0 2 = 2%Z) by lia.
      destruct Hcases as [-> | [-> | ->]]; eexists; (split; [reflexivity |]);
        cbn; tauto. }
    destruct Hin as (type & -> & Hin).
    destruct (GameSpawn.enemySpawnPoint random (Game.player g)) as [x y].
    destruct (registry (Some type)) as [EnemyClass |] eqn:Er.
    + exists EnemyClass. reflexivity.
    + exfalso. apply (Hknown type Hin). exact Er.
Qed.

Lemma enemy_spawns_away_from_the_player_witness :
  exists x y : Q,
    GameSpawn.enemySpawnPoint halves (playerAtCentre 3 0) = (Some x, Some y)
    /\ GameSpawn.closerThan SPAWN_SAFETY_DISTANCE (Some x, Some y)
         (playerAtCentre 3 0) = false
    /\ onSpawnFrame x y.
Proof.
  exact (proj1 (enemy_spawns_away_from_the_player halves
                  (playerAtCentre 3 0) halves_fair)).
Defined.

Lemma pickupTries_spec (random : nat -> Q) (player : Player.t) (n : nat) :
  forall (k : nat) (x y : Q),
    exists j : nat,
      (j <= n)%nat
      /\ GameSpawn.pickupTries (S n) random k player x y
         = tryPoint random (k + 2 * j)
      /\ (forall j' : nat,
            (j' < j)%nat ->
            nearPlayer player (tryPoint random (k + 2 * j')) = true)
      /\ (nearPlayer player (tryPoint random (k + 2 * j)) = false \/ j = n).
Proof.
  induction n as [| n IH]; intros k x y.
  - exists 0%nat. rewrite Nat.mul_0_r, Nat.add_0_r.
    split; [lia |]. split; [| split; [intros j' Hj'; lia | right; reflexivity]].
    cbn [GameSpawn.pickupTries]. destruct (root_ge_num _ _); reflexivity.
  - cbn [GameSpawn.pickupTries].
    fold (GameSpawn.pickupTries (S n)).
    destruct (root_ge_num _ _) eqn:E.
    + exists 0%nat. rewrite Nat.mul_0_r, Nat.add_0_r.
      split; [lia |]. split; [reflexivity |].
      split; [intros j' Hj'; lia |]. left.
      unfold nearPlayer, tryPoint. cbn [fst snd].
      rewrite root_ge_num_negb in E. apply negb_true_iff in E. exact E.
    + destruct (IH (S (S k))
                  (Utils.randomRange (random k) PICKUP_RADIUS
                     (ARENA_WIDTH - PICKUP_RADIUS))
                  (Utils.randomRange (random (S k)) PICKUP_RADIUS
                     (ARENA_HEIGHT - PICKUP_RADIUS)))
        as (j & Hj & Hpoint & Hnear & Hlast).
      exists (S j).
      replace (k + 2 * S j)%nat with (S (S k) + 2 * j)%nat by lia.
      split; [lia |]. split; [exact Hpoint |]. split.
      * intros j' Hj'. destruct j' as [| j'].
        -- rewrite Nat.mul_0_r, Nat.add_0_r.
           unfold nearPlayer, tryPoint. cbn [fst snd].
           rewrite root_ge_num_negb in E. apply negb_false_iff in E. exact E.
        -- replace (k + 2 * S j')%nat with (S (S k) + 2 * j')%nat by lia.
           apply Hnear. lia.
      * destruct Hlast as [Hfar | ->]; [left; exact Hfar | right; reflexivity].
Qed.

(** Property X19.  With draws in [[0, 1)], [spawnPickup] builds the pickup
    inside the arena, a pickup's radius away from its border, at the first
    of its forty tries that is not nearer than [PICKUP_SAFE_DISTANCE] to
    the player.  The safe distance is not assured: when all forty tries are
    too near the pickup appears at the last one, as with a player in the
    centre of the arena and every draw one half.  One pickup, of one of the
    four types, is added at the end of the list. *)
Theorem pickup_spawns_at_the_first_safe_try (random : nat -> Q)
    (player : Player.t) :
  fairDraws random ->
  (exists j : nat,
     (j < 40)%nat
     /\ GameSpawn.pickupSpawnPoint random player = tryPoint random (1 + 2 * j)
     /\ (forall j' : nat,
           (j' < j)%nat ->
           nearPlayer player (tryPoint random (1 + 2 * j')) = true)
     /\ (nearPlayer player (tryPoint random (1 + 2 * j)) = false
         \/ j = 39%nat))
  /\ (let '(x, y) := GameSpawn.pickupSpawnPoint random player in
      PICKUP_RADIUS <= x /\ x < ARENA_WIDTH - PICKUP_RADIUS
      /\ PICKUP_RADIUS <= y /\ y < ARENA_HEIGHT - PICKUP_RADIUS)
  /\ nearPlayer (playerAtCentre 3 0)
       (GameSpawn.pickupSpawnPoint halves (playerAtCentre 3 0)) = true
  /\ (forall (newPickup : Q -> Q -> option PickupType -> Pickup.t)
             (g : Game.t),
        exists type : PickupType,
          In type GameSpawn.pickupTypes
          /\ Game.pickups (GameSpawn.spawnPickup newPickup random g)
             = (Game.pickups g
                ++ [newPickup
                      (fst (GameSpawn.pickupSpawnPoint random
                              (Game.player g)))
                      (snd (GameSpawn.pickupSpawnPoint random
                              (Game.player g)))
                      (Some type)])%list).
Proof.
  intros Hfair.
  destruct (pickupTries_spec random player 39 1 (Player.x player)
              (Player.y player)) as (j & Hj & Hpoint & Hnear & Hlast).
  fold (GameSpawn.pickupSpawnPoint random player) in Hpoint.
  split; [| split; [| split]].
  - exists j. split; [lia |]. split; [exact Hpoint |].
    split; [exact Hnear | exact Hlast].
  - rewrite Hpoint. unfold tryPoint.
    destruct (Hfair (1 + 2 * j)%nat) as [Ha0 Ha1].
    destruct (Hfair (S (1 + 2 * j))%nat) as [Hb0 Hb1].
    pose proof (randomRange_bounds (random (1 + 2 * j)%nat) PICKUP_RADIUS
                  (ARENA_WIDTH - PICKUP_RADIUS) Ha0 Ha1 eq_refl) as Hx.
    pose proof (randomRange_bounds (random (S (1 + 2 * j))%nat) PICKUP_RADIUS
                  (ARENA_HEIGHT - PICKUP_RADIUS) Hb0 Hb1 eq_refl) as Hy.
    tauto.
  - vm_compute. reflexivity.
  - intros newPickup g. unfold GameSpawn.spawnPickup.
    destruct (Hfair 0%nat) as [H00 H01].
    pose proof (randomInt_range (random 0%nat) 0
                  (Z.of_nat (length GameSpawn.pickupTypes) - 1) H00 H01
                  ltac:(cbn; lia)) as Htype.
    change (Z.of_nat (length GameSpawn.pickupTypes) - 1)%Z with 3%Z in *.
    assert (Hin : exists type : PickupType,
               GameSpawn.at_index GameSpawn.pickupTypes
                 (Utils.randomInt (random 0%nat) 0 3) = Some type
               /\ In type GameSpawn.pickupTypes).
    { assert (Hcases : Utils.randomInt (random 0%nat) 0 3 = 0%Z
                       \/ Utils.randomInt (random 0%nat) 0 3 = 1%Z
                       \/ Utils.randomInt (random 0%nat) 0 3 = 2%Z
                       \/ Utils.randomInt (random 0%nat) 0 3 = 3%Z) by lia.
      destruct Hcases as [-> | [-> | [-> | ->]]]; eexists;
        (split; [reflexivity |]); cbn; tauto. }
    destruct Hin as (type & -> & Hin). exists type. split; [exact Hin |].
    destruct (GameSpawn.pickupSpawnPoint random (Game.player g)) as [x y].
    reflexivity.
Qed.

Lemma pickup_spawns_at_the_first_safe_try_witness :
  let '(x, y) := GameSpawn.pickupSpawnPoint halves (playerAtCentre 3 0) in
  PICKUP_RADIUS <= x /\ x < ARENA_WIDTH - PICKUP_RADIUS
  /\ PICKUP_RADIUS <= y /\ y < ARENA_HEIGHT - PICKUP_RADIUS.
Proof.
  exact (proj1 (proj2 (pickup_spawns_at_the_first_safe_try halves
                         (playerAtCentre 3 0) halves_fair))).
Defined.

(** ** Collision information *)

Section CollisionInfo.

Import Reals Qreals.
Local Open Scope R_scope.

Context {A B : Type} `{Circle A} `{Circle B}.

(** Property X20.  [getCollisionInfo] returns [null] exactly when
    [checkCircleCollision] is false.  When it returns an object, the
    distance in it is the distance of the centres, the normal has length
    one (it is (1, 0) for coincident centres), and the overlap is above
    [- COLLISION_EPSILON]: it is negative for circles that are apart by
    less than the epsilon. *)
Theorem collision_info_agrees_with_the_check (obj1 : A) (obj2 : B) :
  (CollisionSystem.getCollisionInfo obj1 obj2 = None
   <-> CollisionSystem.checkCircleCollision obj1 obj2 = false)
  /\ (forall info : CollisionSystem.CollisionInfo,
        CollisionSystem.getCollisionInfo obj1 obj2 = Some info ->
        CollisionSystem.distance info
        = Math_hypot (circle_x obj2 - circle_x obj1)
                     (circle_y obj2 - circle_y obj1)
        /\ squaredLength (CollisionSystem.normalX info,
                          CollisionSystem.normalY info) = 1
        /\ - Q2R COLLISION_EPSILON
           < differenceValue (CollisionSystem.overlap info)
        /\ differenceValue (CollisionSystem.overlap info)
           = Q2R (circle_radius obj1 + circle_radius obj2)
             - valueOf (CollisionSystem.distance info)).
Proof.
  unfold CollisionSystem.getCollisionInfo,
    CollisionSystem.checkCircleCollision.
  set (dx := (circle_x obj2 - circle_x obj1)%Q).
  set (dy := (circle_y obj2 - circle_y obj1)%Q).
  set (minDistance := (circle_radius obj1 + circle_radius obj2)%Q).
  rewrite root_ge_num_negb.
  assert (Hnn : (0 <= dx * dx + dy * dy)%Q)
    by exact (hypot_radicand_nonneg dx dy).
  destruct (root_lt_num (Math_sqrt (dx * dx + dy * dy))
              (minDistance + COLLISION_EPSILON)) eqn:E; cbn [negb].
  - split; [split; discriminate |].
    intros info [= <-].
    cbn [CollisionSystem.distance CollisionSystem.normalX
         CollisionSystem.normalY CollisionSystem.overlap].
    split; [reflexivity |]. split; [| split].
    + unfold root_gt_num, Math_sqrt. cbn [radicand].
      change (Qltb 0 0) with false. cbn [orb].
      change (0 * 0)%Q with 0%Q.
      destruct (Qltb 0 (dx * dx + dy * dy)) eqn:Epos.
      * apply Qltb_true in Epos.
        apply squaredLength_over; [exact Epos | reflexivity].
      * rewrite squaredLength_plain. rewrite <- RMicromega.Q2R_1.
        apply Qeq_eqR. reflexivity.
    + apply (root_lt_num_sound (Math_sqrt (dx * dx + dy * dy))
               (minDistance + COLLISION_EPSILON) Hnn) in E.
      rewrite Q2R_plus in E. unfold differenceValue.
      cbn [CollisionSystem.minuend CollisionSystem.subtrahend]. Lra.lra.
    + unfold differenceValue.
      cbn [CollisionSystem.minuend CollisionSystem.subtrahend]. reflexivity.
  - split; [split; reflexivity |]. intros info Hinfo. discriminate Hinfo.
Qed.

End CollisionInfo.

(** ** Frames of the game loop *)





(** ** Restart *)

Lemma setState_twice (s : GAME_STATES) (m : GameStateMachine.t) :
  GameStateMachine.setState s (GameStateMachine.setState s m)
  = GameStateMachine.setState s m.
Proof.
  unfold GameStateMachine.setState at 1. rewrite setState_current.
  assert (E : GAME_STATES_eqb s s = true) by (destruct s; reflexivity).
  rewrite E. reflexivity.
Qed.

(** Property X22.  [restart] from any state: the state is PLAYING, the
    lists of enemies, projectiles and pickups are empty, the counters and
    timers are zero, the player and the weapons are new, the pistol is the
    weapon and haste is off.  The input manager, the gesture input, the
    creator-mode flag, the pickup candidate and the last left pinch are
    kept as they are; so a weapon switch that was asked for before the
    restart is still pending, and the weapon step of the next tick selects
    the machine gun.  Restarting twice is restarting once. *)
Theorem restart_resets_the_world_not_the_input (gp : Game.Gameplay)
    (g : Game.t) :
  let g' := Game.restart gp g in
  (GameStateMachine.getState (Game.stateMachine g') = PLAYING
   /\ Game.enemies g' = [] /\ Game.projectiles g' = []
   /\ Game.pickups g' = [] /\ Game.killCount g' = 0%Z
   /\ Game.enemySpawnTimer g' = 0 /\ Game.pickupSpawnTimer g' = 0
   /\ Game.player g' = Game.newPlayer gp
   /\ Game.currentWeaponKey g' = pistol
   /\ Game.pistolHasteActive g' = false
   /\ pistol_fireRate (Game.weapons g')
      = pistol_fireRate (Game.newWeapons gp))
  /\ (Game.inputManager g' = Game.inputManager g
      /\ Game.gestureInput g' = Game.gestureInput g
      /\ Game.creatorMode g' = Game.creatorMode g
      /\ Game.pickupCandidate g' = Game.pickupCandidate g
      /\ Game.prevLeftPinchActive g' = Game.prevLeftPinchActive g)
  /\ Game.restart gp g' = g'
  /\ (forall now : Q,
        InputManager.getWeaponSwitch (Game.inputManager g) = true ->
        Game.currentWeaponKey (Game.handleWeaponSwitch now g') = machine_gun).
Proof.
  intros g'.
  assert (Hkeep : Game.inputManager g' = Game.inputManager g) by reflexivity.
  split; [| split; [| split]].
  - unfold g', Game.restart, Game.initGameObjects,
      Game.recomputePistolFireRate, GameStateMachine.getState.
    cbn [Game.stateMachine Game.set_stateMachine Game.set_weapons].
    rewrite setState_current. cbn. rewrite !Qdiv_1_r_eq. repeat split.
  - repeat split.
  - unfold g', Game.restart, Game.initGameObjects,
      Game.recomputePistolFireRate.
    cbn. rewrite !Qdiv_1_r_eq, setState_twice. reflexivity.
  - intros now Hflag. unfold Game.handleWeaponSwitch.
    rewrite Hkeep, Hflag. reflexivity.
Qed.

(** ** Creator mode toggles *)

Lemma creatorStep_effect (ev : CreatorEvent)
    (st : KeyboardMouseProvider.t * Game.t) :
  creatorCooldown (creatorStep st ev) = creatorCooldown st
  /\ match ev with
     | CreatorKey now code =>
         creatorLast (creatorStep st ev) = creatorLast st
         /\ (creatorFlag (creatorStep st ev) = true ->
             creatorFlag st = true
             \/ creatorCooldown st <= now - creatorLast st)
         /\ Game.creatorMode (snd (creatorStep st ev))
            = Game.creatorMode (snd st)
     | CreatorTick now =>
         creatorFlag (creatorStep st ev) = false
         /\ creatorLast (creatorStep st ev)
            = (if creatorFlag st then now else creatorLast st)
         /\ Game.creatorMode (snd (creatorStep st ev))
            = (if creatorFlag st then negb (Game.creatorMode (snd st))
               else Game.creatorMode (snd st))
     end.
Proof.
  destruct st as [kb g]. destruct ev as [now code | now].
  - unfold creatorStep, KeyboardMouseProvider.handleKeyDown, creatorFlag,
      creatorLast, creatorCooldown, InputManager.getCreatorModeToggle,
      InputManager.canSwitchWeapon, InputManager.canToggleCreatorMode.
    cbn [snd].
    destruct (KeyboardMouseProvider.keyMap !! code) as [action |];
      [| cbn; auto].
    destruct (creatorMode (InputManager.input (Game.inputManager g)))
      eqn:Ef;
      destruct (Qle_bool
                  (creatorModeToggleCooldown
                     (InputManager.input (Game.inputManager g)))
                  (now - lastCreatorModeToggleTime
                           (InputManager.input (Game.inputManager g))))
        eqn:Ec;
      destruct (String.eqb action "switchWeapon");
      destruct (String.eqb action "creatorMode");
      destruct (String.eqb action "pickup");
      cbn [negb andb orb snd];
      try destruct (_ && _);
      cbn -[Qle_bool Qminus Qle]; rewrite ?Ef;
      repeat split; auto; try discriminate;
      intros _; right; apply Qle_bool_iff; exact Ec.
  - unfold creatorStep, Game.handleCreatorModeToggle, creatorFlag,
      creatorLast, creatorCooldown, InputManager.getCreatorModeToggle.
    cbn [snd].
    destruct (creatorMode (InputManager.input (Game.inputManager g)))
      eqn:Ef.
    + assert (Him : Game.inputManager (Game.toggleCreatorMode g)
                    = Game.inputManager g).
      { unfold Game.toggleCreatorMode,
          Game.applyCreatorModeModifications,
          Game.revertCreatorModeModifications.
        cbn [Game.creatorMode Game.set_creatorMode].
        destruct (negb (Game.creatorMode g));
          cbn [Game.originalPistolFireRate Game.set_creatorMode];
          destruct (Game.truthy (Game.originalPistolFireRate g));
          reflexivity. }
      assert (Hcm : Game.creatorMode (Game.toggleCreatorMode g)
                    = negb (Game.creatorMode g)).
      { unfold Game.toggleCreatorMode,
          Game.applyCreatorModeModifications,
          Game.revertCreatorModeModifications.
        cbn [Game.creatorMode Game.set_creatorMode].
        destruct (negb (Game.creatorMode g));
          cbn [Game.originalPistolFireRate Game.set_creatorMode];
          destruct (Game.truthy (Game.originalPistolFireRate g));
          reflexivity. }
      cbn [Game.inputManager Game.set_inputManager Game.creatorMode].
      rewrite Him, Hcm. cbn. auto.
    + rewrite Ef. auto.
Qed.

Lemma creatorToggles_spaced (evs : list CreatorEvent) :
  forall (st : KeyboardMouseProvider.t * Game.t) (lo : Q),
    ascendingFrom lo (map creatorTime evs) ->
    (creatorFlag st = true -> creatorCooldown st <= lo - creatorLast st) ->
    spacedFrom (creatorCooldown st) (creatorLast st)
               (creatorToggleTimes evs st)
    /\ Game.creatorMode (snd (creatorRun evs st))
       = (if Nat.even (length (creatorToggleTimes evs st))
          then Game.creatorMode (snd st)
          else negb (Game.creatorMode (snd st))).
Proof.
  induction evs as [| ev evs IH]; intros st lo Hasc Hflag.
  - cbn. auto.
  - cbn [map ascendingFrom] in Hasc. destruct Hasc as [Hlo Hasc].
    cbn [creatorToggleTimes creatorRun fold_left].
    destruct (creatorStep_effect ev st) as [Hcool Hev].
    specialize (IH (creatorStep st ev) (creatorTime ev) Hasc).
    rewrite Hcool in IH.
    destruct ev as [now code | now]; cbn [creatorTime] in *.
    + destruct Hev as (Hlast & Hraise & Hcm).
      rewrite Hlast, Hcm in IH. cbn [app]. apply IH.
      intros Hf. destruct (Hraise Hf) as [Hold | Hcooled];
        [specialize (Hflag Hold); lra | exact Hcooled].
    + destruct Hev as (Hoff & Hlast & Hcm).
      rewrite Hlast, Hcm in IH.
      destruct (creatorFlag st) eqn:Ef.
      * cbn [app spacedFrom length].
        destruct IH as [IH1 IH2]; [rewrite Hoff; discriminate |].
        split; [split; [specialize (Hflag eq_refl); lra | exact IH1] |].
        unfold creatorRun in IH2. rewrite IH2.
        rewrite Nat.even_succ, <- Nat.negb_even.
        destruct (Nat.even _); cbn; [reflexivity | apply negb_involutive].
      * cbn [app]. apply IH. rewrite Hoff. discriminate.
Qed.

(** Property X23.  Creator mode is toggled by the ticks of [updatePlaying]
    that find the creator-mode flag of the input raised.  Over any list of
    key-downs and ticks whose clock readings do not go down, starting with
    the flag lowered: two toggles are never nearer to each other than the
    cooldown of the flag, the first one no nearer to the last clearing of
    the flag, however often G is pressed; and creator mode is on afterwards
    exactly when it was on before and the toggles are even in number, or
    off before and they are odd. *)
Theorem creator_mode_toggles_are_spaced (evs : list CreatorEvent)
    (st : KeyboardMouseProvider.t * Game.t) (lo : Q) :
  creatorFlag st = false ->
  ascendingFrom lo (map creatorTime evs) ->
  spacedFrom (creatorCooldown st) (creatorLast st)
             (creatorToggleTimes evs st)
  /\ Game.creatorMode (snd (creatorRun evs st))
     = (if Nat.even (length (creatorToggleTimes evs st))
        then Game.creatorMode (snd st)
        else negb (Game.creatorMode (snd st))).
Proof.
  intros Hoff Hasc. apply (creatorToggles_spaced evs st lo Hasc).
  rewrite Hoff. discriminate.
Qed.

Lemma creator_mode_toggles_are_spaced_witness :
  spacedFrom (creatorCooldown switchStart) (creatorLast switchStart)
             (creatorToggleTimes hammeringG switchStart)
  /\ Game.creatorMode (snd (creatorRun hammeringG switchStart))
     = (if Nat.even (length (creatorToggleTimes hammeringG switchStart))
        then Game.creatorMode (snd switchStart)
        else negb (Game.creatorMode (snd switchStart))).
Proof.
  apply (creator_mode_toggles_are_spaced hammeringG switchStart 1000).
  - reflexivity.
  - cbn. repeat split; discriminate.
Defined.

(** ** The HUD *)

Lemma Math_max_0_nonneg (a : Q) : 0 <= a -> Math_max 0 a = a.
Proof.
  intros H. unfold Math_max. apply Qle_bool_iff in H. rewrite H. reflexivity.
Qed.

Lemma Math_max_0_neg (a : Q) : a < 0 -> Math_max 0 a = 0.
Proof.
  intros H. unfold Math_max. apply Qle_bool_false in H. rewrite H.
  reflexivity.
Qed.

(** Property X26.  The health display of [updateHUD].  For a whole number
    of hp from zero to [maxHp] it shows that many full hearts and then
    empty ones up to [maxHp] hearts in all.  For hp below zero, as after a
    hit of two at one hp, it shows no full heart and [maxHp - hp] empty
    ones, more than [maxHp]. *)
Theorem hearts_add_up_to_maxHp (g : Game.t) (hp maxHp : Z) :
  Player.hp (Game.player g) = inject_Z hp ->
  Player.maxHp (Game.player g) = inject_Z maxHp ->
  ((0 <= hp <= maxHp)%Z ->
   Game.healthHearts g
   = (replicate (Z.to_nat hp) Game.FullHeart
      ++ replicate (Z.to_nat (maxHp - hp)) Game.EmptyHeart)%list
   /\ length (Game.healthHearts g) = Z.to_nat maxHp)
  /\ ((hp < 0)%Z -> (0 <= maxHp)%Z ->
      Game.healthHearts g
      = replicate (Z.to_nat (maxHp - hp)) Game.EmptyHeart
      /\ (Z.to_nat maxHp < length (Game.healthHearts g))%nat).
Proof.
  intros Hhp Hmax. unfold Game.healthHearts. rewrite Hhp, Hmax.
  assert (Ediff : inject_Z maxHp - inject_Z hp = inject_Z maxHp + - inject_Z hp)
    by reflexivity.
  assert (Efloor : Qfloor (inject_Z maxHp - inject_Z hp) = (maxHp - hp)%Z).
  { rewrite <- (Qfloor_Z (maxHp - hp)). apply Qfloor_comp.
    unfold Z.sub. rewrite inject_Z_plus, inject_Z_opp. reflexivity. }
  split.
  - intros [H0 H1].
    rewrite (Math_max_0_nonneg (inject_Z hp))
      by (change 0 with (inject_Z 0); rewrite <- Zle_Qle; exact H0).
    rewrite (Math_max_0_nonneg (inject_Z maxHp - inject_Z hp)).
    + rewrite Qfloor_Z, Efloor. split; [reflexivity |].
      rewrite length_app, !length_replicate. lia.
    + unfold Qminus. rewrite <- inject_Z_opp, <- inject_Z_plus.
      change 0 with (inject_Z 0). rewrite <- Zle_Qle. lia.
  - intros Hneg Hmax0.
    rewrite (Math_max_0_neg (inject_Z hp))
      by (change 0 with (inject_Z 0); rewrite <- Zlt_Qlt; exact Hneg).
    rewrite (Math_max_0_nonneg (inject_Z maxHp - inject_Z hp)).
    + rewrite Efloor. change (Z.to_nat (Qfloor 0)) with 0%nat.
      cbn [replicate app]. split; [reflexivity |].
      rewrite length_replicate. lia.
    + unfold Qminus. rewrite <- inject_Z_opp, <- inject_Z_plus.
      change 0 with (inject_Z 0). rewrite <- Zle_Qle. lia.
Qed.

Lemma hearts_add_up_to_maxHp_witness :
  Game.healthHearts (sceneWithHp (-1))
  = replicate (Z.to_nat (3 - -1)) Game.EmptyHeart
  /\ (Z.to_nat 3 < length (Game.healthHearts (sceneWithHp (-1))))%nat.
Proof.
  apply (proj2 (hearts_add_up_to_maxHp (sceneWithHp (-1)) (-1) 3
                  eq_refl eq_refl)); lia.
Defined.

Lemma pistolStep_hasteInRange (gp : Game.Gameplay) (op : PistolOp)
    (g : Game.t) :
  match op with
  | HasteCountdown deltaTime => 0 <= deltaTime
  | _ => True
  end ->
  hasteInRange g -> hasteInRange (pistolStep gp g op).
Proof.
  intros Hop Hin. unfold hasteInRange in *.
  assert (Hpickup : forall (type : PickupType) (g0 : Game.t),
             (Game.pistolHasteActive g0 = true ->
              0 < Game.pistolHasteRemaining g0
              /\ Game.pistolHasteRemaining g0 <= 10) ->
             Game.pistolHasteActive (Game.applyPickupEffect type g0) = true ->
             0 < Game.pistolHasteRemaining (Game.applyPickupEffect type g0)
             /\ Game.pistolHasteRemaining (Game.applyPickupEffect type g0)
                <= 10).
  { intros type g0 H0. destruct type; try exact H0.
    intros _. cbn. split; [reflexivity | discriminate]. }
  destruct op as [| type | deltaTime | |]; cbn [pistolStep].
  - unfold Game.toggleCreatorMode, Game.applyCreatorModeModifications,
      Game.revertCreatorModeModifications.
    cbn [Game.creatorMode Game.set_creatorMode].
    destruct (negb (Game.creatorMode g));
      cbn [Game.originalPistolFireRate Game.set_creatorMode];
      destruct (Game.truthy (Game.originalPistolFireRate g)); exact Hin.
  - apply Hpickup. exact Hin.
  - unfold Game.updatePistolHaste.
    destruct (Game.pistolHasteActive g) eqn:Ha; [| rewrite Ha; discriminate].
    specialize (Hin eq_refl).
    cbn [Game.pistolHasteRemaining Game.set_pistolHasteRemaining].
    destruct (Qle_bool (Math_max 0 (Game.pistolHasteRemaining g - deltaTime))
                0) eqn:E.
    + cbn. discriminate.
    + intros _. apply Qle_bool_false in E.
      cbn [Game.pistolHasteRemaining Game.set_pistolHasteRemaining].
      split; [exact E |].
      destruct (Math_max_cases 0 (Game.pistolHasteRemaining g - deltaTime))
        as [[Hle ->] | [Hle ->]]; lra.
  - unfold Game.handleCollisions.
    assert (Hres : Game.pistolHasteActive (Game.resolveDamage g)
                   = Game.pistolHasteActive g
                   /\ Game.pistolHasteRemaining (Game.resolveDamage g)
                      = Game.pistolHasteRemaining g).
    { unfold Game.resolveDamage.
      cbn [Game.projectiles Game.enemies Game.killCount Game.set_player].
      destruct (Game.projectilesVsEnemies _ _ _) as [[ps es] kills].
      cbn [Game.projectiles Game.player Game.set_killCount Game.set_enemies
           Game.set_projectiles Game.set_player].
      destruct (Game.projectilesVsPlayer _ _). split; reflexivity. }
    destruct Hres as [Ha Hr]. rewrite <- Ha, <- Hr in Hin.
    destruct (playerVsPickups_cases (Game.resolveDamage g))
      as [[_ ->] | (i & c & _ & Hno & Hyes)]; [exact Hin |].
    destruct (pickupConfirmed (Game.resolveDamage g)).
    + rewrite (Hyes eq_refl).
      apply (Hpickup (Pickup.type c) (Game.resolveDamage g) Hin).
    + rewrite (Hno eq_refl). exact Hin.
  - cbn. discriminate.
Qed.

(** Property X27.  The haste countdown of [updateHUD].  After
    [initGameObjects] and any list of creator-mode toggles, pickup effects,
    collision passes, restarts and haste countdowns over times that are not
    negative, the countdown is hidden when haste is off and shows a whole
    number of seconds from 1 to 10 when haste is on: never 0, and never
    more than 10, also after a second haste pickup. *)
Theorem haste_countdown_shows_1_to_10 (gp : Game.Gameplay)
    (ops : list PistolOp) (g : Game.t) :
  forwardInTime ops ->
  let g' := pistolRun gp ops (Game.initGameObjects gp g) in
  (Game.pistolHasteActive g' = false /\ Game.hasteCountdown g' = None)
  \/ (Game.pistolHasteActive g' = true
      /\ exists seconds : Z,
           Game.hasteCountdown g' = Some seconds /\ (1 <= seconds <= 10)%Z).
Proof.
  intros Hops g'.
  assert (Hrange : hasteInRange g').
  { unfold g'. clear g'.
    assert (Hinit : hasteInRange (Game.initGameObjects gp g))
      by (unfold hasteInRange; cbn; discriminate).
    generalize dependent (Game.initGameObjects gp g).
    induction Hops as [| op ops Hop Hops IH]; intros g0 Hinit;
      [exact Hinit |].
    cbn [pistolRun fold_left]. apply IH.
    apply pistolStep_hasteInRange; assumption. }
  unfold Game.hasteCountdown.
  destruct (Game.pistolHasteActive g') eqn:Ha; [right | left; auto].
  split; [reflexivity |]. destruct (Hrange Ha) as [Hpos Hten].
  eexists. split; [reflexivity |]. split.
  - assert (H0 : (0 < Qceiling (Game.pistolHasteRemaining g'))%Z).
    { rewrite Zlt_Qlt. apply Qlt_le_trans with (1 := Hpos).
      apply Qle_ceiling. }
    lia.
  - change 10%Z with (Qceiling (inject_Z 10)) at 1.
    + apply Qceiling_resp_le. exact Hten.
Qed.

Lemma haste_countdown_shows_1_to_10_witness :
  let g' :=
    pistolRun sampleGameplay
      [PickUp PISTOL_HASTE; HasteCountdown 4; HasteCountdown (1 # 2);
       PickUp PISTOL_HASTE; HasteCountdown 3]
      (Game.initGameObjects sampleGameplay (sceneWithHp 3)) in
  (Game.pistolHasteActive g' = false /\ Game.hasteCountdown g' = None)
  \/ (Game.pistolHasteActive g' = true
      /\ exists seconds : Z,
           Game.hasteCountdown g' = Some seconds /\ (1 <= seconds <= 10)%Z).
Proof.
  apply (haste_countdown_shows_1_to_10 sampleGameplay
           [PickUp PISTOL_HASTE; HasteCountdown 4; HasteCountdown (1 # 2);
            PickUp PISTOL_HASTE; HasteCountdown 3]
           (sceneWithHp 3)).
  repeat constructor; discriminate.
Defined.
